(** * Google Workspace MCP server: dispatcher, validation and service clients

    A shallow embedding of the TypeScript sources
    ([schemas.ts], [utils.ts], [auth.ts], [config.ts], [meet-api.ts],
    [gmail-api.ts], [docs-api.ts], [tools/handlers.ts], [index.ts])
    together with the properties the specification states about them.

    Conventions.
    - A [string] is the UTF-8 encoding of the JavaScript string it stands
      for, so [Buffer.from(s)] is the identity on the bytes.
    - [async] functions are run to completion one after the other; a
      rejected promise is a thrown exception.
    - Calls that leave the process (Google APIs, the credential exchange,
      the file system, the clock, locale formatting) are fields of the
      record [Env]; every such call, and every validation attempt, is
      appended to a trace kept next to the cached credential and clients. *)

From Stdlib Require Import String Ascii List ZArith QArith Lia Bool DecimalString.
Import ListNotations.
Close Scope Q_scope.
Open Scope string_scope.
Set Warnings "-register-all".

Notation "x |> f" := (f x) (at level 50, left associativity, only parsing).

(* ===================================================================== *)
(** ** JavaScript values, exceptions and small string helpers *)
(* ===================================================================== *)

Module Js.

(** A thrown value: an [Error] instance with its message, or any other
    value, kept as the text [String(v)] gives for it. *)
Inductive exn : Type :=
| JsError (message : string)
| JsThrown (shown : string).

(** [error instanceof Error ? error.message : String(error)] *)
Definition exn_message (e : exn) : string :=
  match e with
  | JsError m => m
  | JsThrown s => s
  end.

Inductive outcome (A : Type) : Type :=
| Returned (a : A)
| Thrown (e : exn).
Arguments Returned {A} a.
Arguments Thrown {A} e.

(** Untyped data as tool arguments and API payloads carry it.  Numbers
    are the finite ones, kept as rationals. *)
Inductive json : Type :=
| JUndefined
| JNull
| JBool (b : bool)
| JNum (q : Q)
| JStr (s : string)
| JArr (items : list json)
| JObj (fields : list (string * json)).

Fixpoint has_key (k : string) (fields : list (string * json)) : bool :=
  match fields with
  | [] => false
  | (k', _) :: rest => if String.eqb k k' then true else has_key k rest
  end.

(** [obj[k]]: [undefined] when the key is absent. *)
Fixpoint lookup (k : string) (fields : list (string * json)) : json :=
  match fields with
  | [] => JUndefined
  | (k', v) :: rest => if String.eqb k k' then v else lookup k rest
  end.

(** [v?.k] *)
Definition get (k : string) (v : json) : json :=
  match v with
  | JObj fields => lookup k fields
  | _ => JUndefined
  end.

Definition is_zero (q : Q) : bool := Z.eqb (Qnum q) 0.

(** [!!v] *)
Definition truthy (v : json) : bool :=
  match v with
  | JUndefined | JNull => false
  | JBool b => b
  | JNum q => negb (is_zero q)
  | JStr s => negb (String.eqb s EmptyString)
  | JArr _ | JObj _ => true
  end.

Definition str_truthy (s : string) : bool := negb (String.eqb s EmptyString).

(** [Number.isInteger] on a finite number. *)
Definition is_integer (q : Q) : bool :=
  Z.eqb (Z.modulo (Qnum q) (Zpos (Qden q))) 0.

(** The integer a validated whole number stands for. *)
Definition to_Z (v : json) : Z :=
  match v with
  | JNum q => Z.div (Qnum q) (Zpos (Qden q))
  | _ => 0
  end.

Definition to_string (v : json) : string :=
  match v with
  | JStr s => s
  | _ => EmptyString
  end.

(** An optional string field: [None] for [undefined]. *)
Definition to_opt_string (v : json) : option string :=
  match v with
  | JStr s => Some s
  | _ => None
  end.

(** Decimal text of an integer, as [toString()] and template
    interpolation print it. *)
Definition dec (z : Z) : string := NilZero.string_of_int (Z.to_int z).

(** [parts.join(sep)] *)
Fixpoint join (sep : string) (parts : list string) : string :=
  match parts with
  | [] => EmptyString
  | [p] => p
  | p :: rest => p ++ sep ++ join sep rest
  end.

(** [s.includes(c)] for a one-character needle. *)
Fixpoint includes (c : ascii) (s : string) : bool :=
  match s with
  | EmptyString => false
  | String a rest => if Ascii.eqb a c then true else includes c rest
  end.

(** [s.split(c)] for a one-character separator: never empty. *)
Fixpoint split (c : ascii) (s : string) : list string :=
  match s with
  | EmptyString => [EmptyString]
  | String a rest =>
      if Ascii.eqb a c then EmptyString :: split c rest
      else match split c rest with
           | [] => [String a EmptyString]
           | p :: ps => String a p :: ps
           end
  end.

Fixpoint repeat_char (c : ascii) (n : nat) : string :=
  match n with
  | O => EmptyString
  | S n' => String c (repeat_char c n')
  end.

(** [s.padStart(n, c)] for a one-character filler. *)
Definition padStart (n : nat) (c : ascii) (s : string) : string :=
  repeat_char c (n - String.length s) ++ s.

Definition dquote : string := String (ascii_of_nat 34) EmptyString.
Definition CR : ascii := ascii_of_nat 13.
Definition LF : ascii := ascii_of_nat 10.
Definition CRLF : string := String CR (String LF EmptyString).

End Js.
Import Js.

(* ===================================================================== *)
(** ** The validation library (zod 3), as far as [schemas.ts] uses it *)
(* ===================================================================== *)

Module Zod.

Inductive string_check : Type :=
| SMin (n : nat) (msg : string)
| SEmail (msg : option string).

Inductive number_check : Type :=
| NInt
| NMin (bound : Z)
| NMax (bound : Z).

Inductive schema : Type :=
| ZString (checks : list string_check)
| ZNumber (checks : list number_check)
| ZBoolean
| ZArray (element : schema)
| ZOptional (inner : schema)
| ZDefault (inner : schema) (value : json)
| ZObject (shape : list (string * schema)).

Record issue : Type := { path : list string; message : string }.

Definition received (v : json) : string :=
  match v with
  | JUndefined => "undefined"
  | JNull => "null"
  | JBool _ => "boolean"
  | JNum _ => "number"
  | JStr _ => "string"
  | JArr _ => "array"
  | JObj _ => "object"
  end.

Definition invalid_type (expected : string) (p : list string) (v : json) : issue :=
  {| path := p;
     message := match v with
                | JUndefined => "Required"
                | _ => "Expected " ++ expected ++ ", received " ++ received v
                end |}.

Definition string_issue (is_email : string -> bool) (p : list string)
           (v : string) (c : string_check) : list issue :=
  match c with
  | SMin n msg =>
      if Nat.ltb (String.length v) n then [{| path := p; message := msg |}] else []
  | SEmail msg =>
      if is_email v then []
      else [{| path := p;
               message := match msg with Some m => m | None => "Invalid email" end |}]
  end.

Definition number_issue (p : list string) (q : Q) (c : number_check) : list issue :=
  match c with
  | NInt =>
      if is_integer q then []
      else [{| path := p; message := "Expected integer, received float" |}]
  | NMin b =>
      if Qle_bool (inject_Z b) q then []
      else [{| path := p;
               message := "Number must be greater than or equal to " ++ dec b |}]
  | NMax b =>
      if Qle_bool q (inject_Z b) then []
      else [{| path := p;
               message := "Number must be less than or equal to " ++ dec b |}]
  end.

(** [schema.safeParse(input)]: the issues found, in the order zod reports
    them, and the parsed data (meaningful when there is no issue).  Keys
    an object schema does not declare are stripped. *)
Fixpoint parse (is_email : string -> bool) (s : schema) (p : list string)
         (input : json) {struct s} : list issue * json :=
  match s with
  | ZString checks =>
      match input with
      | JStr v => (flat_map (string_issue is_email p v) checks, input)
      | _ => ([invalid_type "string" p input], input)
      end
  | ZNumber checks =>
      match input with
      | JNum q => (flat_map (number_issue p q) checks, input)
      | _ => ([invalid_type "number" p input], input)
      end
  | ZBoolean =>
      match input with
      | JBool _ => ([], input)
      | _ => ([invalid_type "boolean" p input], input)
      end
  | ZArray element =>
      match input with
      | JArr items =>
          let fix each (i : nat) (xs : list json) : list issue * list json :=
            match xs with
            | [] => ([], [])
            | x :: rest =>
                let '(e1, v) := parse is_email element (p ++ [dec (Z.of_nat i)])%list x in
                let '(e2, vs) := each (S i) rest in
                ((e1 ++ e2)%list, v :: vs)
            end in
          let '(errs, vs) := each O items in (errs, JArr vs)
      | _ => ([invalid_type "array" p input], input)
      end
  | ZOptional inner =>
      match input with
      | JUndefined => ([], JUndefined)
      | _ => parse is_email inner p input
      end
  | ZDefault inner value =>
      match input with
      | JUndefined => parse is_email inner p value
      | _ => parse is_email inner p input
      end
  | ZObject shape =>
      match input with
      | JObj fields =>
          let fix each (sh : list (string * schema)) : list issue * list (string * json) :=
            match sh with
            | [] => ([], [])
            | (k, sk) :: rest =>
                let '(e1, v) := parse is_email sk (p ++ [k])%list (lookup k fields) in
                let '(e2, out) := each rest in
                ((e1 ++ e2)%list,
                 if has_key k fields || negb (match v with JUndefined => true | _ => false end)
                 then (k, v) :: out else out)
            end in
          let '(errs, out) := each shape in (errs, JObj out)
      | _ => ([invalid_type "object" p input], input)
      end
  end.

End Zod.

(** The builders of [schemas.ts], written in call order with [|>]. *)
Module z.
Import Zod.

Definition string : schema := ZString [].
Definition number : schema := ZNumber [].
Definition boolean : schema := ZBoolean.
Definition array (element : schema) : schema := ZArray element.
Definition object (shape : list (String.string * schema)) : schema := ZObject shape.

Definition int (s : schema) : schema :=
  match s with ZNumber cs => ZNumber (cs ++ [NInt])%list | _ => s end.
Definition min (b : Z) (s : schema) : schema :=
  match s with ZNumber cs => ZNumber (cs ++ [NMin b])%list | _ => s end.
Definition max (b : Z) (s : schema) : schema :=
  match s with ZNumber cs => ZNumber (cs ++ [NMax b])%list | _ => s end.
Definition min_length (n : nat) (msg : String.string) (s : schema) : schema :=
  match s with ZString cs => ZString (cs ++ [SMin n msg])%list | _ => s end.
Definition email (msg : option String.string) (s : schema) : schema :=
  match s with ZString cs => ZString (cs ++ [SEmail msg])%list | _ => s end.
Definition optional (s : schema) : schema := ZOptional s.
Definition default (value : json) (s : schema) : schema := ZDefault s value.
End z.

(* ===================================================================== *)
(** ** schemas.ts *)
(* ===================================================================== *)

Module Schemas.
Import Zod.

Definition num (n : Z) : json := JNum (inject_Z n).

Definition ListConferencesSchema : schema :=
  z.object [("limit", z.number |> z.int |> z.min 1 |> z.max 100 |> z.optional |> z.default (num 10))].

Definition GetConferenceSchema : schema :=
  z.object [("name", z.string |> z.min_length 1 "Conference name is required")].

Definition ConferenceNameSchema : schema :=
  z.object [("conference_name", z.string |> z.min_length 1 "Conference name is required")].

Definition TranscriptNameSchema : schema :=
  z.object [("transcript_name", z.string |> z.min_length 1 "Transcript name is required")].

Definition ListMeetingsSchema : schema :=
  z.object [("limit", z.number |> z.int |> z.min 1 |> z.max 100 |> z.optional |> z.default (num 10))].

Definition EmptySchema : schema := z.object [].

Definition ListEmailsSchema : schema :=
  z.object [("limit", z.number |> z.int |> z.min 1 |> z.max 50 |> z.optional |> z.default (num 10))].

Definition SearchEmailsSchema : schema :=
  z.object [("query", z.string |> z.min_length 1 "Search query is required");
            ("limit", z.number |> z.int |> z.min 1 |> z.max 50 |> z.optional |> z.default (num 10))].

Definition GetEmailSchema : schema :=
  z.object [("message_id", z.string |> z.min_length 1 "Message ID is required")].

Definition GetThreadSchema : schema :=
  z.object [("thread_id", z.string |> z.min_length 1 "Thread ID is required")].

Definition SendEmailSchema : schema :=
  z.object [("to", z.string |> z.email (Some "Valid email address required"));
            ("subject", z.string |> z.min_length 1 "Subject is required");
            ("body", z.string |> z.min_length 1 "Email body is required");
            ("cc", z.string |> z.optional);
            ("bcc", z.string |> z.optional)].

Definition CreateDraftSchema : schema := SendEmailSchema.

Definition TrashEmailSchema : schema :=
  z.object [("message_id", z.string |> z.min_length 1 "Message ID is required")].

Definition MarkEmailSchema : schema :=
  z.object [("message_id", z.string |> z.min_length 1 "Message ID is required")].

Definition ListDocsSchema : schema :=
  z.object [("limit", z.number |> z.int |> z.min 1 |> z.max 50 |> z.optional |> z.default (num 10))].

Definition SearchDocsSchema : schema :=
  z.object [("query", z.string |> z.min_length 1 "Search query is required");
            ("limit", z.number |> z.int |> z.min 1 |> z.max 50 |> z.optional |> z.default (num 10))].

Definition GetDocSchema : schema :=
  z.object [("document_id", z.string |> z.min_length 1 "Document ID is required")].

Definition CreateDocSchema : schema :=
  z.object [("title", z.string |> z.min_length 1 "Document title is required");
            ("content", z.string |> z.optional)].

Definition AppendToDocSchema : schema :=
  z.object [("document_id", z.string |> z.min_length 1 "Document ID is required");
            ("text", z.string |> z.min_length 1 "Text to append is required")].

Definition ReplaceInDocSchema : schema :=
  z.object [("document_id", z.string |> z.min_length 1 "Document ID is required");
            ("search_text", z.string |> z.min_length 1 "Search text is required");
            ("replace_text", z.string);
            ("match_case", z.boolean |> z.optional |> z.default (JBool false))].

Definition CreateCalendarEventSchema : schema :=
  z.object [("summary", z.string |> z.min_length 1 "Event title is required");
            ("description", z.string |> z.optional);
            ("start_time", z.string |> z.min_length 1
               "Start time is required (e.g., '2024-01-30 14:00' or ISO format)");
            ("end_time", z.string |> z.optional);
            ("duration_minutes",
               z.number |> z.int |> z.min 5 |> z.max 480 |> z.optional |> z.default (num 60));
            ("attendees", z.array (z.string |> z.email None) |> z.optional);
            ("location", z.string |> z.optional);
            ("timezone", z.string |> z.optional |> z.default (JStr "Asia/Kolkata"));
            ("add_meet_link", z.boolean |> z.optional |> z.default (JBool true))].

Definition format_issue (e : issue) : string :=
  join "." (path e) ++ ": " ++ message e.

(** [validateInput(schema, input)]: the parsed data, or one [Error]
    whose message lists every issue. *)
Definition validateInput (is_email : string -> bool) (s : schema) (input : json)
  : outcome json :=
  match parse is_email s [] input with
  | ([], data) => Returned data
  | (errors, _) =>
      Thrown (JsError ("Invalid input: " ++ join ", " (map format_issue errors)))
  end.

End Schemas.

(* ===================================================================== *)
(** ** utils.ts: the response envelope *)
(* ===================================================================== *)

Module Utils.

Record content_item : Type := { type : string; text : string }.

(** [ToolResponse]: [isError] is [None] when the property is not set. *)
Record ToolResponse : Type :=
  { content : list content_item; isError : option bool }.

Definition createErrorResponse (message : string) : ToolResponse :=
  {| content := [{| type := "text"; text := message |}]; isError := Some true |}.

Definition createSuccessResponse (text : string) : ToolResponse :=
  {| content := [{| type := "text"; text := text |}]; isError := None |}.

Definition NOT_AUTHENTICATED_RESPONSE : ToolResponse :=
  createErrorResponse "❌ Not authenticated. Please use the 'authenticate' tool first.".

End Utils.
Import Utils.

(* ===================================================================== *)
(** ** The tools, the process state and the outside world *)
(* ===================================================================== *)

(** The names the router of [handleToolCall] knows. *)
Inductive tool : Type :=
| auth_status | authenticate_
| list_conferences | get_conference | list_participants | list_recordings
| list_transcripts | get_transcript_text | create_meeting
| list_upcoming_meetings | list_past_meetings | summarize_transcript
| create_calendar_event
| gmail_profile | list_emails | search_emails | get_email | get_thread
| send_email | create_draft | list_labels | trash_email | mark_as_read
| mark_as_unread
| list_docs | search_docs | get_doc | create_doc | append_to_doc | replace_in_doc.

(** An authorization handle is opaque; handles are told apart by a tag. *)
Record GoogleAuth : Type := { handle : nat }.

(** Each client is bound to the handle it was constructed with. *)
Record GoogleMeetService : Type := { meet_auth : GoogleAuth }.
Record GmailService : Type := { gmail_auth : GoogleAuth }.
Record GoogleDocsService : Type := { docs_auth : GoogleAuth }.

(** The four module-level variables of [handlers.ts]. *)
Record cache : Type :=
  { authInstance : option GoogleAuth;
    meetService : option GoogleMeetService;
    gmailService : option GmailService;
    docsService : option GoogleDocsService }.

Definition empty_cache : cache :=
  {| authInstance := None; meetService := None; gmailService := None; docsService := None |}.

(** [calendar.events.list] parameters. *)
Record events_list_request : Type :=
  { el_calendarId : string;
    el_timeMin : string;
    el_timeMax : option string;
    el_maxResults : Z;
    el_singleEvents : bool;
    el_orderBy : string }.

Record event_time : Type := { dateTime : string; timeZone : string }.

(** [calendar.events.insert] parameters. *)
Record events_insert_request : Type :=
  { ei_calendarId : string;
    ei_summary : string;
    ei_description : option string;
    ei_location : option string;
    ei_start : event_time;
    ei_end : event_time;
    ei_attendees : option (list string);
    ei_conference_requestId : option string;
    ei_conferenceDataVersion : Z;
    ei_sendUpdates : string }.

(** [gmail.users.messages.list] parameters. *)
Record messages_list_request : Type :=
  { ml_userId : string;
    ml_q : option string;
    ml_maxResults : Z;
    ml_labelIds : list string }.

(** [drive.files.list] parameters. *)
Record files_list_request : Type :=
  { fl_q : string; fl_pageSize : Z; fl_fields : string; fl_orderBy : string }.

(** One request of a [documents.batchUpdate]. *)
Inductive docs_update : Type :=
| InsertText (index : Z) (text : string)
| ReplaceAllText (search : string) (matchCase : bool) (replaceText : string).

(** What the process does that can be seen from outside it, plus the
    validations it attempts. *)
Inductive event : Type :=
| EvValidate (s : Zod.schema) (input : json)
| EvAuthenticate
| EvMeetApi (method endpoint : string)
| EvCalendarList (r : events_list_request)
| EvCalendarInsert (r : events_insert_request)
| EvGmailGetProfile
| EvGmailMessagesList (r : messages_list_request)
| EvGmailMessagesGet (id : string)
| EvGmailThreadsGet (id : string)
| EvGmailLabelsList
| EvGmailMessagesSend (raw : string)
| EvGmailDraftsCreate (raw : string)
| EvGmailMessagesTrash (id : string)
| EvGmailMessagesModify (id : string) (addLabelIds removeLabelIds : list string)
| EvDocsGet (documentId : string)
| EvDocsCreate (title : string)
| EvDocsBatchUpdate (documentId : string) (u : docs_update)
| EvDriveFilesList (r : files_list_request).

(** The credentials file as [fs] and [JSON.parse] show it. *)
Inductive credentials_file : Type :=
| Missing
| Unreadable (e : exn)
| Parsed (j : json).

(** Everything outside the process, as one call of a tool sees it.  An
    exchange that never completes has no outcome here. *)
Record Env : Type :=
  { (* config.ts and the file system *)
    credentialsPath : string;
    credentials : credentials_file;
    token_exists : bool;
    (* google-auth-library *)
    service_account_auth : json -> outcome GoogleAuth;
    oauth_exchange : json -> outcome GoogleAuth;
    (* zod's e-mail pattern *)
    is_email : string -> bool;
    (* the clock and the random source *)
    now_iso : string;
    days_ago_iso : Z -> string;
    fresh_request_id : string;
    (* Meet REST API, behind getAccessToken and fetch *)
    meet_api : string -> string -> outcome json;
    (* googleapis: Calendar *)
    calendar_events_list : events_list_request -> outcome (option (list json));
    calendar_events_insert : events_insert_request -> outcome json;
    (* googleapis: Gmail *)
    gmail_getProfile : outcome json;
    gmail_messages_list : messages_list_request -> outcome (option (list string));
    gmail_messages_get : string -> outcome json;
    gmail_threads_get : string -> outcome json;
    gmail_labels_list : outcome (option (list json));
    gmail_messages_send : string -> outcome json;
    gmail_drafts_create : string -> outcome json;
    gmail_messages_trash : string -> outcome unit;
    gmail_messages_modify : string -> list string -> list string -> outcome unit;
    (* googleapis: Docs and Drive *)
    docs_documents_get : string -> outcome json;
    docs_documents_create : string -> outcome json;
    docs_documents_batchUpdate : string -> docs_update -> outcome json;
    drive_files_list : files_list_request -> outcome (option (list json));
    (* the engine's message for reading a property of undefined *)
    type_error_message : string;
    (* the end time [createCalendarEvent] prints when the hour or minute
       text of the start is no plain numeral (NaN, fractions, ...) or a
       numeral too large for exact arithmetic *)
    end_outside_numerals : string -> Z -> string;
    (* template interpolation of a value that is no string *)
    show_value : json -> string;
    (* the prose of a successful answer: presentation, fixed by the tool,
       its validated arguments and what the client returned *)
    present : tool -> json -> json -> string }.

(** *** The state and exception monad the handlers run in *)

Record state : Type := { cached : cache; trace : list event }.

Definition M (A : Type) : Type := state -> outcome A * state.

Definition ret {A} (a : A) : M A := fun st => (Returned a, st).

Definition bind {A B} (m : M A) (k : A -> M B) : M B :=
  fun st =>
    match m st with
    | (Returned a, st') => k a st'
    | (Thrown e, st') => (Thrown e, st')
    end.

Definition throw {A} (e : exn) : M A := fun st => (Thrown e, st).

(** [try { m } catch (error) { h(error) }] *)
Definition try_catch {A} (m : M A) (h : exn -> M A) : M A :=
  fun st =>
    match m st with
    | (Returned a, st') => (Returned a, st')
    | (Thrown e, st') => h e st'
    end.

Definition lift {A} (o : outcome A) : M A := fun st => (o, st).

Definition log (ev : event) : M unit :=
  fun st => (Returned tt, {| cached := cached st; trace := (trace st ++ [ev])%list |}).

Definition read_cache : M cache := fun st => (Returned (cached st), st).

Definition write_cache (c : cache) : M unit :=
  fun st => (Returned tt, {| cached := c; trace := trace st |}).

Declare Scope monad_scope.
Delimit Scope monad_scope with monad.
Notation "x <- m ;; k" := (bind m (fun x => k))
  (at level 61, m at next level, right associativity) : monad_scope.
Notation "m ;;; k" := (bind m (fun _ => k))
  (at level 61, right associativity) : monad_scope.
Open Scope monad_scope.

(** The [catch] block every client method ends with. *)
Definition failing_as {A} (what : string) (m : M A) : M A :=
  try_catch m (fun error => throw (JsError (what ++ ": " ++ exn_message error))).

(** An external call: recorded, then answered by the world. *)
Definition call {A} (ev : event) (answer : outcome A) : M A :=
  log ev ;;; lift answer.

(** [${v}] *)
Definition interpolate (env : Env) (v : json) : string :=
  match v with
  | JStr s => s
  | JUndefined => "undefined"
  | JNull => "null"
  | JBool true => "true"
  | JBool false => "false"
  | _ => show_value env v
  end.

Definition nl : string := String LF EmptyString.

(* ===================================================================== *)
(** ** auth.ts *)
(* ===================================================================== *)

Module Auth.

Inductive credential_type : Type := service_account | oauth.

Definition getCredentialType (credentials : json) : credential_type :=
  match credentials with
  | JObj fields =>
      match lookup "type" fields with
      | JStr t => if String.eqb t "service_account" then service_account else oauth
      | _ => oauth
      end
  | _ => oauth
  end.

Definition authenticate (env : Env) : M GoogleAuth :=
  log EvAuthenticate ;;;
  match credentials env with
  | Missing =>
      throw (JsError
        ("credentials.json not found at " ++ credentialsPath env ++ nl ++ nl ++
         "To get credentials:" ++ nl ++
         "1. Go to https://console.cloud.google.com/" ++ nl ++
         "2. Create a project and enable Google Meet API" ++ nl ++
         "3. Go to APIs & Services → Credentials" ++ nl ++
         "4. Create either:" ++ nl ++
         "   - Service Account (recommended) - download JSON key" ++ nl ++
         "   - OAuth client ID (Desktop app) - download JSON" ++ nl ++
         "5. Save the file as 'credentials.json' in the project root"))
  | Unreadable e => throw e
  | Parsed j =>
      match getCredentialType j with
      | service_account => lift (service_account_auth env j)
      | oauth => lift (oauth_exchange env j)
      end
  end.

Definition isAuthenticated (env : Env) : bool :=
  match credentials env with
  | Missing => false
  | Unreadable _ => false
  | Parsed j =>
      match getCredentialType j with
      | service_account => true
      | oauth => token_exists env
      end
  end.

Definition getAuthStatus (env : Env) : string :=
  match credentials env with
  | Missing => "❌ No credentials found. Please add credentials.json to the project root."
  | Unreadable _ => "❌ Error reading credentials file."
  | Parsed j =>
      match getCredentialType j with
      | service_account =>
          "✅ Service Account configured: " ++ interpolate env (get "client_email" j)
      | oauth =>
          if token_exists env then "✅ Authenticated with Google (OAuth)"
          else "⚠️ OAuth credentials found but not authenticated. Use the 'authenticate' tool to sign in."
      end
  end.

End Auth.

(* ===================================================================== *)
(** ** config.ts *)
(* ===================================================================== *)

Module Config.
Definition conferencePageSize : Z := 10.
Definition participantPageSize : Z := 50.
Definition transcriptPageSize : Z := 100.
Definition calendarMaxResults : Z := 10.
Definition pastMeetingsDays : Z := 30.
Definition gmail_maxResults : Z := 10.
Definition gmail_defaultLabels : list string := ["INBOX"].
End Config.

(* ===================================================================== *)
(** ** Regular expressions of [parseDateTime], matched by hand *)
(* ===================================================================== *)

Module Re.

Definition code (a : ascii) : nat := nat_of_ascii a.

(** [\d] *)
Definition is_digit (a : ascii) : bool :=
  Nat.leb 48 (code a) && Nat.leb (code a) 57.

Definition digit_value (a : ascii) : Z := Z.of_nat (code a) - 48.

(** [parseInt(s, 10)] on a text made of digits. *)
Fixpoint digits_value_from (acc : Z) (s : string) : Z :=
  match s with
  | EmptyString => acc
  | String a rest => digits_value_from (acc * 10 + digit_value a) rest
  end.
Definition parseInt (s : string) : Z := digits_value_from 0 s.

Fixpoint all_digits (s : string) : bool :=
  match s with
  | EmptyString => true
  | String a rest => is_digit a && all_digits rest
  end.

Definition three_byte_space (a b c : nat) : bool :=
  (Nat.eqb a 225 && Nat.eqb b 154 && Nat.eqb c 128)
  || (Nat.eqb a 226 && Nat.eqb b 128 && Nat.leb 128 c && Nat.leb c 138)
  || (Nat.eqb a 226 && Nat.eqb b 128 && (Nat.eqb c 168 || Nat.eqb c 169 || Nat.eqb c 175))
  || (Nat.eqb a 226 && Nat.eqb b 129 && Nat.eqb c 159)
  || (Nat.eqb a 227 && Nat.eqb b 128 && Nat.eqb c 128)
  || (Nat.eqb a 239 && Nat.eqb b 187 && Nat.eqb c 191).

(** One [\s] character at the head of [s], in its UTF-8 form, and what
    follows it. *)
Definition take_space (s : string) : option (string * string) :=
  match s with
  | EmptyString => None
  | String a r =>
      let n := code a in
      if (Nat.leb 9 n && Nat.leb n 13) || Nat.eqb n 32
      then Some (String a EmptyString, r)
      else
        match r with
        | EmptyString => None
        | String b r2 =>
            if Nat.eqb n 194 && Nat.eqb (code b) 160
            then Some (String a (String b EmptyString), r2)
            else
              match r2 with
              | EmptyString => None
              | String c r3 =>
                  if three_byte_space n (code b) (code c)
                  then Some (String a (String b (String c EmptyString)), r3)
                  else None
              end
        end
  end.

(** The longest run of [\s] characters at the head of [s]. *)
Fixpoint spaces_from (fuel : nat) (s : string) : list string * string :=
  match fuel with
  | O => ([], s)
  | S fuel' =>
      match take_space s with
      | Some (sp, rest) =>
          let '(sps, tail) := spaces_from fuel' rest in (sp :: sps, tail)
      | None => ([], s)
      end
  end.
Definition spaces (s : string) : list string * string :=
  spaces_from (String.length s) s.

(** A character [.] refuses: LF, CR, U+2028 or U+2029. *)
Fixpoint has_line_terminator (s : string) : bool :=
  match s with
  | EmptyString => false
  | String a r =>
      if Nat.eqb (code a) 10 || Nat.eqb (code a) 13 then true
      else
        match r with
        | String b (String c _) =>
            if Nat.eqb (code a) 226 && Nat.eqb (code b) 128
               && (Nat.eqb (code c) 168 || Nat.eqb (code c) 169)
            then true else has_line_terminator r
        | _ => has_line_terminator r
        end
  end.

(** [\d{4}-\d{2}-\d{2}] at the head of [s]. *)
Definition take_date (s : string) : option (string * string) :=
  match s with
  | String y1 (String y2 (String y3 (String y4 (String d1
      (String m1 (String m2 (String d2 (String a1 (String a2 rest))))))))) =>
      if is_digit y1 && is_digit y2 && is_digit y3 && is_digit y4
         && Ascii.eqb d1 "-" && is_digit m1 && is_digit m2
         && Ascii.eqb d2 "-" && is_digit a1 && is_digit a2
      then Some (String y1 (String y2 (String y3 (String y4 (String d1
             (String m1 (String m2 (String d2 (String a1 (String a2
                EmptyString))))))))), rest)
      else None
  | _ => None
  end.

(** [\s+(.+)$] on what follows the date: the second group.  When
    nothing follows the blanks, the last blank is given back to the
    group. *)
Definition time_after_blanks (after : string) : option string :=
  match spaces after with
  | ([], _) => None
  | (sps, EmptyString) =>
      match rev sps with
      | last :: _ :: _ => if has_line_terminator last then None else Some last
      | _ => None
      end
  | (_, tail) => if has_line_terminator tail then None else Some tail
  end.

(** [/^(\d{4}-\d{2}-\d{2})\s+(.+)$/]: the two groups. *)
Definition match_date_time (input : string) : option (string * string) :=
  match take_date input with
  | None => None
  | Some (datePart, after) =>
      match time_after_blanks after with
      | Some timePart => Some (datePart, timePart)
      | None => None
      end
  end.

(** [\d{1,2}] at the head of [s], taking two digits when it can. *)
Definition take_digits12 (s : string) : option (string * string) :=
  match s with
  | String a (String b rest) =>
      if is_digit a && is_digit b then Some (String a (String b EmptyString), rest)
      else if is_digit a then Some (String a EmptyString, String b rest)
      else None
  | String a EmptyString =>
      if is_digit a then Some (String a EmptyString, EmptyString) else None
  | EmptyString => None
  end.

(** [\d{2}] at the head of [s]. *)
Definition take_digits2 (s : string) : option (string * string) :=
  match s with
  | String a (String b rest) =>
      if is_digit a && is_digit b then Some (String a (String b EmptyString), rest)
      else None
  | _ => None
  end.

(** [(am|pm)$] without regard to case: [Some true] for pm. *)
Definition am_pm (s : string) : option bool :=
  match s with
  | String a (String m EmptyString) =>
      if Nat.eqb (code m) 109 || Nat.eqb (code m) 77 then
        if Nat.eqb (code a) 97 || Nat.eqb (code a) 65 then Some false
        else if Nat.eqb (code a) 112 || Nat.eqb (code a) 80 then Some true
        else None
      else None
  | _ => None
  end.

(** [/^(\d{1,2}):(\d{2})$/] *)
Definition match_time24 (timePart : string) : option (string * string) :=
  match take_digits12 timePart with
  | Some (h, String c rest) =>
      if Ascii.eqb c ":" then
        match take_digits2 rest with
        | Some (m, EmptyString) => Some (h, m)
        | _ => None
        end
      else None
  | _ => None
  end.

(** [/^(\d{1,2}):(\d{2})\s*(am|pm)$/i]: the third group as [isPM]. *)
Definition match_time12 (timePart : string) : option (string * string * bool) :=
  match take_digits12 timePart with
  | Some (h, String c rest) =>
      if Ascii.eqb c ":" then
        match take_digits2 rest with
        | Some (m, after) =>
            match am_pm (snd (spaces after)) with
            | Some pm => Some (h, m, pm)
            | None => None
            end
        | None => None
        end
      else None
  | _ => None
  end.

(** [/^(\d{1,2})\s*(am|pm)?$/i]: the second group as [isPM] when it
    took part in the match. *)
Definition match_hour (timePart : string) : option (string * option bool) :=
  match take_digits12 timePart with
  | Some (h, after) =>
      match snd (spaces after) with
      | EmptyString => Some (h, None)
      | tail =>
          match am_pm tail with
          | Some pm => Some (h, Some pm)
          | None => None
          end
      end
  | None => None
  end.

End Re.

(* ===================================================================== *)
(** ** meet-api.ts *)
(* ===================================================================== *)

Module Meet.
Local Open Scope Z_scope.

(** [(v || [])] for a field the API types as an array. *)
Definition items_or_empty (v : json) : list json :=
  match v with
  | JArr items => items
  | _ => []
  end.

Definition listConferenceRecords (env : Env) (pageSize : Z) : M (list json) :=
  failing_as "Failed to list conference records"
    (let endpoint := "/conferenceRecords?pageSize=" ++ dec pageSize in
     data <- call (EvMeetApi "GET" endpoint) (meet_api env "GET" endpoint) ;;
     ret (items_or_empty (get "conferenceRecords" data))).

Definition getConferenceRecord (env : Env) (name : string) : M json :=
  failing_as "Failed to get conference record"
    (let endpoint := "/" ++ name in
     call (EvMeetApi "GET" endpoint) (meet_api env "GET" endpoint)).

Definition listParticipants (env : Env) (conferenceRecordName : string) : M (list json) :=
  failing_as "Failed to list participants"
    (let endpoint := "/" ++ conferenceRecordName ++ "/participants?pageSize="
                         ++ dec Config.participantPageSize in
     data <- call (EvMeetApi "GET" endpoint) (meet_api env "GET" endpoint) ;;
     ret (items_or_empty (get "participants" data))).

Definition listRecordings (env : Env) (conferenceRecordName : string) : M (list json) :=
  failing_as "Failed to list recordings"
    (let endpoint := "/" ++ conferenceRecordName ++ "/recordings" in
     data <- call (EvMeetApi "GET" endpoint) (meet_api env "GET" endpoint) ;;
     ret (items_or_empty (get "recordings" data))).

Definition listTranscripts (env : Env) (conferenceRecordName : string) : M (list json) :=
  failing_as "Failed to list transcripts"
    (let endpoint := "/" ++ conferenceRecordName ++ "/transcripts" in
     data <- call (EvMeetApi "GET" endpoint) (meet_api env "GET" endpoint) ;;
     ret (items_or_empty (get "transcripts" data))).

Definition listTranscriptEntries (env : Env) (transcriptName : string) : M (list json) :=
  failing_as "Failed to list transcript entries"
    (let endpoint := "/" ++ transcriptName ++ "/entries?pageSize="
                         ++ dec Config.transcriptPageSize in
     data <- call (EvMeetApi "GET" endpoint) (meet_api env "GET" endpoint) ;;
     ret (items_or_empty (get "transcriptEntries" data))).

Definition createSpace (env : Env) : M json :=
  failing_as "Failed to create meeting space"
    (call (EvMeetApi "POST" "/spaces") (meet_api env "POST" "/spaces")).

(** The filter of both calendar listings. *)
Definition isMeetEvent (event : json) : bool :=
  match get "name" (get "conferenceSolution" (get "conferenceData" event)) with
  | JStr name => String.eqb name "Google Meet"
  | _ => false
  end
  || truthy (get "hangoutLink" event).

(** [xs.slice(0, n)] for a whole number [n]: a negative [n] counts from
    the end. *)
Definition slice0 {A} (n : Z) (xs : list A) : list A :=
  if Z.leb 0 n then firstn (Z.to_nat n) xs
  else firstn (Z.to_nat (Z.of_nat (length xs) + n)) xs.

Definition upcoming_request (env : Env) (maxResults : Z) : events_list_request :=
  {| el_calendarId := "primary";
     el_timeMin := now_iso env;
     el_timeMax := None;
     el_maxResults := maxResults * 2;
     el_singleEvents := true;
     el_orderBy := "startTime" |}.

Definition past_request (env : Env) (maxResults : Z) : events_list_request :=
  {| el_calendarId := "primary";
     el_timeMin := days_ago_iso env Config.pastMeetingsDays;
     el_timeMax := Some (now_iso env);
     el_maxResults := maxResults * 2;
     el_singleEvents := true;
     el_orderBy := "startTime" |}.

Definition listUpcomingMeetings (env : Env) (maxResults : Z) : M (list json) :=
  failing_as "Failed to list upcoming meetings"
    (let request := upcoming_request env maxResults in
     items <- call (EvCalendarList request) (calendar_events_list env request) ;;
     let events := match items with Some l => l | None => [] end in
     let meetEvents := filter isMeetEvent events in
     ret (slice0 maxResults meetEvents)).

Definition listPastMeetings (env : Env) (maxResults : Z) : M (list json) :=
  failing_as "Failed to list past meetings"
    (let request := past_request env maxResults in
     items <- call (EvCalendarList request) (calendar_events_list env request) ;;
     let events := match items with Some l => l | None => [] end in
     let meetEvents := filter isMeetEvent events in
     ret (slice0 maxResults meetEvents)).

(** [n.toString().padStart(2, "0")] *)
Definition pad2 (n : Z) : string := padStart 2 "0" (dec n).

(** The adjustment both 12-hour branches make. *)
Definition adjust12 (isPM : bool) (hours : Z) : Z :=
  let hours := if isPM && negb (Z.eqb hours 12) then hours + 12 else hours in
  if negb isPM && Z.eqb hours 12 then 0 else hours.

(** The hours and minutes [parseDateTime] reads from the time part. *)
Definition parseTimePart (timePart : string) : Z * Z :=
  match Re.match_time24 timePart with
  | Some (h, m) => (Re.parseInt h, Re.parseInt m)
  | None =>
      match Re.match_time12 timePart with
      | Some (h, m, isPM) => (adjust12 isPM (Re.parseInt h), Re.parseInt m)
      | None =>
          match Re.match_hour timePart with
          | Some (h, Some isPM) => (adjust12 isPM (Re.parseInt h), 0)
          | Some (h, None) => (Re.parseInt h, 0)
          | None => (0, 0)
          end
      end
  end.

Definition parseDateTime (input : string) (timezone : string) : string :=
  if includes "T" input || includes "Z" input then input
  else
    match Re.match_date_time input with
    | Some (datePart, timePart) =>
        let '(hours, minutes) := parseTimePart timePart in
        datePart ++ "T" ++ pad2 hours ++ ":" ++ pad2 minutes ++ ":00"
    | None => input
    end.

(** 2^53: up to here every whole number is a double, so that sums and
    products of whole numbers that stay below it are exact. *)
Definition max_exact : Z := 9007199254740992.

(** [Number(s)] where it is a whole number written in digits and not
    above 2^53 (beyond that [Number] rounds), or the empty text; any
    other text is left to the world. *)
Definition Number (s : string) : option Z :=
  match s with
  | EmptyString => Some 0
  | _ =>
      if Re.all_digits s && Z.leb (Re.parseInt s) max_exact
      then Some (Re.parseInt s) else None
  end.

Record CreateCalendarEventParams : Type :=
  { summary : string;
    description : option string;
    start_time : string;
    end_time : option string;
    duration_minutes : option Z;
    attendees : option (list string);
    location : option string;
    timezone : option string;
    add_meet_link : option bool }.

(** Hours and minutes of the end, from those of the start. *)
Definition end_clock (hours minutes durationMinutes : Z) : Z * Z :=
  let totalMinutes := hours * 60 + minutes + durationMinutes in
  (Z.rem (Z.div totalMinutes 60) 24, Z.rem totalMinutes 60).

Inductive computed_end : Type :=
| EndAt (endDateTime : string)
| EndTypeError
| EndOutsideNumerals.

(** The [else] branch of "Calculate end time".  The minutes of the start
    are counted on whole numbers as long as, with any duration the schema
    lets through (at most 480), they stay within 2^53, where the doubles
    of the code are exact; a start beyond that is left to the world. *)
Definition end_from_duration (startDateTime : string) (durationMinutes : Z)
  : computed_end :=
  match split "T" startDateTime with
  | datePart :: timePart :: _ =>
      match split ":" timePart with
      | h :: m :: _ =>
          match Number h, Number m with
          | Some hours, Some minutes =>
              if Z.leb (hours * 60 + minutes + 480) max_exact then
                let '(endHours, endMins) := end_clock hours minutes durationMinutes in
                EndAt (datePart ++ "T" ++ pad2 endHours ++ ":" ++ pad2 endMins ++ ":00")
              else EndOutsideNumerals
          | _, _ => EndOutsideNumerals
          end
      | _ => EndOutsideNumerals
      end
  | _ => EndTypeError
  end.

Definition or_string (v : option string) (d : string) : string :=
  match v with
  | Some s => if str_truthy s then s else d
  | None => d
  end.

Definition or_number (v : option Z) (d : Z) : Z :=
  match v with
  | Some n => if Z.eqb n 0 then d else n
  | None => d
  end.

Definition has_attendees (p : CreateCalendarEventParams) : bool :=
  match attendees p with
  | Some (_ :: _) => true
  | _ => false
  end.

Definition wants_meet_link (p : CreateCalendarEventParams) : bool :=
  match add_meet_link p with
  | Some false => false
  | _ => true
  end.

(** [params.end_time] when it is truthy. *)
Definition given_end_time (p : CreateCalendarEventParams) : option string :=
  match end_time p with
  | Some e => if str_truthy e then Some e else None
  | None => None
  end.

(** "Calculate end time": [end_time] parsed when given, the start plus
    the duration otherwise. *)
Definition event_end (env : Env) (params : CreateCalendarEventParams)
           (timezone startDateTime : string) : M string :=
  match given_end_time params with
  | Some e => ret (parseDateTime e timezone)
  | None =>
      let durationMinutes := or_number (duration_minutes params) 60 in
      match end_from_duration startDateTime durationMinutes with
      | EndAt endDateTime => ret endDateTime
      | EndTypeError => throw (JsError (type_error_message env))
      | EndOutsideNumerals => ret (end_outside_numerals env startDateTime durationMinutes)
      end
  end.

(** [v || d] *)
Definition or_else (v d : json) : json := if truthy v then v else d.

Definition opt_str (v : option string) : json :=
  match v with Some s => JStr s | None => JUndefined end.

Definition insert_request (env : Env) (params : CreateCalendarEventParams)
           (timezone startDateTime endDateTime : string) : events_insert_request :=
  {| ei_calendarId := "primary";
     ei_summary := summary params;
     ei_description := description params;
     ei_location := location params;
     ei_start := {| dateTime := startDateTime; timeZone := timezone |};
     ei_end := {| dateTime := endDateTime; timeZone := timezone |};
     ei_attendees := if has_attendees params then attendees params else None;
     ei_conference_requestId :=
       if wants_meet_link params then Some (fresh_request_id env) else None;
     ei_conferenceDataVersion := if wants_meet_link params then 1 else 0;
     ei_sendUpdates := if has_attendees params then "all" else "none" |}.

Definition created_attendee (a : json) : json :=
  JObj [("email", or_else (get "email" a) (JStr EmptyString));
        ("responseStatus", or_else (get "responseStatus" a) JUndefined)].

Definition created_time (t : json) (timezone : string) : json :=
  JObj [("dateTime", or_else (get "dateTime" t) JUndefined);
        ("date", or_else (get "date" t) JUndefined);
        ("timeZone", or_else (get "timeZone" t) (JStr timezone))].

Definition created_event (event : json) (params : CreateCalendarEventParams)
           (timezone : string) : json :=
  JObj [("id", or_else (get "id" event) (JStr EmptyString));
        ("summary", or_else (get "summary" event) (JStr (summary params)));
        ("htmlLink", or_else (get "htmlLink" event) (JStr EmptyString));
        ("start", created_time (get "start" event) timezone);
        ("end", created_time (get "end" event) timezone);
        ("hangoutLink", or_else (get "hangoutLink" event) JUndefined);
        ("attendees", match get "attendees" event with
                      | JArr l => JArr (map created_attendee l)
                      | _ => JUndefined
                      end)].

Definition createCalendarEvent (env : Env) (params : CreateCalendarEventParams) : M json :=
  failing_as "Failed to create calendar event"
    (let timezone := or_string (timezone params) "America/Los_Angeles" in
     let startDateTime := parseDateTime (start_time params) timezone in
     endDateTime <- event_end env params timezone startDateTime ;;
     let request := insert_request env params timezone startDateTime endDateTime in
     event <- call (EvCalendarInsert request) (calendar_events_insert env request) ;;
     ret (created_event event params timezone)).

End Meet.

(* ===================================================================== *)
(** ** Base64, as [Buffer.prototype.toString("base64")] produces it *)
(* ===================================================================== *)

Module Base64.

Definition standard : string :=
  "ABCDEFGHIJKLMNOPQRSTUVWXYZabcdefghijklmnopqrstuvwxyz0123456789+/".

Definition url_safe : string :=
  "ABCDEFGHIJKLMNOPQRSTUVWXYZabcdefghijklmnopqrstuvwxyz0123456789-_".

Definition digit (alphabet : string) (n : nat) : ascii :=
  match String.get n alphabet with
  | Some c => c
  | None => "="%char
  end.

(** The four six-bit groups of three bytes. *)
Definition sextet1 (a : nat) : nat := a / 4.
Definition sextet2 (a b : nat) : nat := (a mod 4) * 16 + b / 16.
Definition sextet3 (b c : nat) : nat := (b mod 16) * 4 + c / 64.
Definition sextet4 (c : nat) : nat := c mod 64.

Definition padding (padded : bool) (n : nat) : string :=
  if padded then repeat_char "=" n else EmptyString.

Fixpoint encode (alphabet : string) (padded : bool) (bytes : string) : string :=
  match bytes with
  | EmptyString => EmptyString
  | String a EmptyString =>
      let a := nat_of_ascii a in
      String (digit alphabet (sextet1 a))
        (String (digit alphabet (sextet2 a 0)) (padding padded 2))
  | String a (String b EmptyString) =>
      let a := nat_of_ascii a in
      let b := nat_of_ascii b in
      String (digit alphabet (sextet1 a))
        (String (digit alphabet (sextet2 a b))
           (String (digit alphabet (sextet3 b 0)) (padding padded 1)))
  | String a (String b (String c rest)) =>
      let a := nat_of_ascii a in
      let b := nat_of_ascii b in
      let c := nat_of_ascii c in
      String (digit alphabet (sextet1 a))
        (String (digit alphabet (sextet2 a b))
           (String (digit alphabet (sextet3 b c))
              (String (digit alphabet (sextet4 c)) (encode alphabet padded rest))))
  end.

(** [buf.toString("base64")] *)
Definition toBase64 (bytes : string) : string := encode standard true bytes.

(** [s.replace(/c/g, d)] for one-character [c] and [d]. *)
Fixpoint replace_all (c d : ascii) (s : string) : string :=
  match s with
  | EmptyString => EmptyString
  | String a rest => String (if Ascii.eqb a c then d else a) (replace_all c d rest)
  end.

(** [s.replace(/=+$/, "")] *)
Fixpoint strip_trailing_eq (s : string) : string :=
  match s with
  | EmptyString => EmptyString
  | String a rest =>
      match strip_trailing_eq rest with
      | EmptyString => if Ascii.eqb a "=" then EmptyString else String a EmptyString
      | kept => String a kept
      end
  end.

(** Base64url without padding (RFC 4648, section 5), written directly:
    what the specification asks the mail client to produce. *)
Definition base64url_unpadded (bytes : string) : string := encode url_safe false bytes.

End Base64.

(* ===================================================================== *)
(** ** gmail-api.ts *)
(* ===================================================================== *)

Module Gmail.

Record SendEmailParams : Type :=
  { to : string;
    subject : string;
    body : string;
    cc : option string;
    bcc : option string }.

(** [Promise.all]: every promise is started; the result is the list of
    values, or the first rejection in list order. *)
Fixpoint promise_all {A} (ms : list (M A)) : M (list A) :=
  match ms with
  | [] => ret []
  | m :: rest =>
      fun st =>
        match m st with
        | (Returned a, st1) =>
            match promise_all rest st1 with
            | (Returned l, st2) => (Returned (a :: l), st2)
            | (Thrown e, st2) => (Thrown e, st2)
            end
        | (Thrown e, st1) => (Thrown e, snd (promise_all rest st1))
        end
  end.

Definition getProfile (env : Env) : M json :=
  failing_as "Failed to get Gmail profile"
    (data <- call EvGmailGetProfile (gmail_getProfile env) ;;
     ret (JObj [("emailAddress", Meet.or_else (get "emailAddress" data) (JStr EmptyString));
                ("messagesTotal", Meet.or_else (get "messagesTotal" data) (Schemas.num 0));
                ("threadsTotal", Meet.or_else (get "threadsTotal" data) (Schemas.num 0))])).

Definition getMessage (env : Env) (messageId : string) : M json :=
  failing_as "Failed to get message"
    (call (EvGmailMessagesGet messageId) (gmail_messages_get env messageId)).

Definition or_default {A} (v : option A) (d : A) : A :=
  match v with Some a => a | None => d end.

(** [listMessages(query?, maxResults = config.gmail.maxResults,
    labelIds = config.gmail.defaultLabels)]: [None] is an argument left
    out or [undefined]. *)
Definition listMessages (env : Env) (query : option string) (maxResults : option Z)
           (labelIds : option (list string)) : M (list json) :=
  let maxResults := or_default maxResults Config.gmail_maxResults in
  let labelIds := or_default labelIds Config.gmail_defaultLabels in
  failing_as "Failed to list messages"
    (let request := {| ml_userId := "me"; ml_q := query;
                       ml_maxResults := maxResults; ml_labelIds := labelIds |} in
     listed <- call (EvGmailMessagesList request) (gmail_messages_list env request) ;;
     let messages := or_default listed [] in
     fullMessages <- promise_all (map (fun id => getMessage env id) messages) ;;
     ret fullMessages).

Definition getThread (env : Env) (threadId : string) : M json :=
  failing_as "Failed to get thread"
    (call (EvGmailThreadsGet threadId) (gmail_threads_get env threadId)).

Definition listLabels (env : Env) : M (list json) :=
  failing_as "Failed to list labels"
    (labels <- call EvGmailLabelsList (gmail_labels_list env) ;;
     ret (or_default labels [])).

Definition searchEmails (env : Env) (query : string) (maxResults : option Z)
  : M (list json) :=
  listMessages env (Some query) (Some (or_default maxResults Config.gmail_maxResults))
               (Some []).

(** [if (v) headers.push(name + v)] *)
Definition pushed (name : string) (v : option string) : list string :=
  match v with
  | Some s => if str_truthy s then [name ++ s] else []
  | None => []
  end.

Definition sendEmail (env : Env) (params : SendEmailParams) : M json :=
  failing_as "Failed to send email"
    (let headers :=
       List.app ["To: " ++ to params;
                 "Subject: " ++ subject params;
                 "Content-Type: text/plain; charset=utf-8";
                 "MIME-Version: 1.0"]
                (List.app (pushed "Cc: " (cc params)) (pushed "Bcc: " (bcc params))) in
     let email := join CRLF headers ++ CRLF ++ CRLF ++ body params in
     let encodedEmail :=
       Base64.toBase64 email
       |> Base64.replace_all "+" "-"
       |> Base64.replace_all "/" "_"
       |> Base64.strip_trailing_eq in
     call (EvGmailMessagesSend encodedEmail) (gmail_messages_send env encodedEmail)).

Definition createDraft (env : Env) (params : SendEmailParams) : M json :=
  failing_as "Failed to create draft"
    (let headers :=
       List.app ["To: " ++ to params;
                 "Subject: " ++ subject params;
                 "Content-Type: text/plain; charset=utf-8";
                 "MIME-Version: 1.0"]
                (List.app (pushed "Cc: " (cc params)) (pushed "Bcc: " (bcc params))) in
     let email := join CRLF headers ++ CRLF ++ CRLF ++ body params in
     let encodedEmail :=
       Base64.toBase64 email
       |> Base64.replace_all "+" "-"
       |> Base64.replace_all "/" "_"
       |> Base64.strip_trailing_eq in
     call (EvGmailDraftsCreate encodedEmail) (gmail_drafts_create env encodedEmail)).

Definition trashMessage (env : Env) (messageId : string) : M unit :=
  failing_as "Failed to trash message"
    (call (EvGmailMessagesTrash messageId) (gmail_messages_trash env messageId)).

Definition markAsRead (env : Env) (messageId : string) : M unit :=
  failing_as "Failed to mark message as read"
    (call (EvGmailMessagesModify messageId [] ["UNREAD"])
          (gmail_messages_modify env messageId [] ["UNREAD"])).

Definition markAsUnread (env : Env) (messageId : string) : M unit :=
  failing_as "Failed to mark message as unread"
    (call (EvGmailMessagesModify messageId ["UNREAD"] [])
          (gmail_messages_modify env messageId ["UNREAD"] [])).

End Gmail.

(* ===================================================================== *)
(** ** docs-api.ts *)
(* ===================================================================== *)

Module Docs.
Local Open Scope Z_scope.

Definition getDocument (env : Env) (documentId : string) : M json :=
  failing_as "Failed to get document"
    (call (EvDocsGet documentId) (docs_documents_get env documentId)).

(** The index just before the final newline of the document. *)
Definition getDocumentEndIndex (doc : json) : Z :=
  match get "content" (get "body" doc) with
  | JArr content =>
      let endIndex := to_Z (get "endIndex" (last content JUndefined)) in
      (if Z.eqb endIndex 0 then 2 else endIndex) - 1
  | _ => 1
  end.

Definition extractTextFromDoc (doc : json) : string :=
  match get "content" (get "body" doc) with
  | JArr content =>
      String.concat EmptyString
        (flat_map
           (fun element =>
              match get "elements" (get "paragraph" element) with
              | JArr elements =>
                  flat_map
                    (fun paragraphElement =>
                       match get "content" (get "textRun" paragraphElement) with
                       | JStr run => [run]
                       | _ => []
                       end)
                    elements
              | _ => []
              end)
           content)
  | _ => EmptyString
  end.

Definition appendText (env : Env) (documentId text : string) : M unit :=
  failing_as "Failed to append text"
    (doc <- getDocument env documentId ;;
     let endIndex := getDocumentEndIndex doc in
     call (EvDocsBatchUpdate documentId (InsertText endIndex text))
          (docs_documents_batchUpdate env documentId (InsertText endIndex text)) ;;;
     ret tt).

Definition createDocument (env : Env) (title : string) (content : option string) : M json :=
  failing_as "Failed to create document"
    (data <- call (EvDocsCreate title) (docs_documents_create env title) ;;
     match content, get "documentId" data with
     | Some text, JStr documentId =>
         if str_truthy text && str_truthy documentId
         then appendText env documentId text ;;; ret data
         else ret data
     | _, _ => ret data
     end).

Definition occurrencesChanged (data : json) : Z :=
  match get "replies" data with
  | JArr (reply :: _) => to_Z (get "occurrencesChanged" (get "replaceAllText" reply))
  | _ => 0
  end.

Definition replaceText (env : Env) (documentId searchText replaceText : string)
           (matchCase : bool) : M Z :=
  failing_as "Failed to replace text"
    (data <- call (EvDocsBatchUpdate documentId (ReplaceAllText searchText matchCase replaceText))
                  (docs_documents_batchUpdate env documentId
                     (ReplaceAllText searchText matchCase replaceText)) ;;
     ret (occurrencesChanged data)).

Definition listed_file (file : json) : json :=
  JObj [("id", Meet.or_else (get "id" file) (JStr EmptyString));
        ("name", Meet.or_else (get "name" file) (JStr "Untitled"));
        ("modifiedTime", Meet.or_else (get "modifiedTime" file) (JStr EmptyString))].

Definition listDocuments (env : Env) (maxResults : Z) : M (list json) :=
  failing_as "Failed to list documents"
    (let request := {| fl_q := "mimeType='application/vnd.google-apps.document'";
                       fl_pageSize := maxResults;
                       fl_fields := "files(id, name, modifiedTime)";
                       fl_orderBy := "modifiedTime desc" |} in
     files <- call (EvDriveFilesList request) (drive_files_list env request) ;;
     ret (map listed_file (Gmail.or_default files []))).

(** [query.replace(/'/g, "\\'")] *)
Fixpoint escape_quotes (s : string) : string :=
  match s with
  | EmptyString => EmptyString
  | String a rest =>
      if Ascii.eqb a "'" then String "\" (String "'" (escape_quotes rest))
      else String a (escape_quotes rest)
  end.

Definition searchDocuments (env : Env) (query : string) (maxResults : Z) : M (list json) :=
  failing_as "Failed to search documents"
    (let request := {| fl_q := "mimeType='application/vnd.google-apps.document' and name contains '"
                                ++ escape_quotes query ++ "'";
                       fl_pageSize := maxResults;
                       fl_fields := "files(id, name, modifiedTime)";
                       fl_orderBy := "modifiedTime desc" |} in
     files <- call (EvDriveFilesList request) (drive_files_list env request) ;;
     ret (map listed_file (Gmail.or_default files []))).

Definition getDocumentText (env : Env) (documentId : string) : M string :=
  failing_as "Failed to get document text"
    (doc <- getDocument env documentId ;;
     ret (extractTextFromDoc doc)).

Definition getDocumentUrl (documentId : string) : string :=
  "https://docs.google.com/document/d/" ++ documentId ++ "/edit".

End Docs.

(* ===================================================================== *)
(** ** tools/handlers.ts *)
(* ===================================================================== *)

Module Handlers.

Definition set_authInstance (a : GoogleAuth) : M unit :=
  c <- read_cache ;;
  write_cache {| authInstance := Some a; meetService := meetService c;
                 gmailService := gmailService c; docsService := docsService c |}.

Definition set_meetService (s : GoogleMeetService) : M unit :=
  c <- read_cache ;;
  write_cache {| authInstance := authInstance c; meetService := Some s;
                 gmailService := gmailService c; docsService := docsService c |}.

Definition set_gmailService (s : GmailService) : M unit :=
  c <- read_cache ;;
  write_cache {| authInstance := authInstance c; meetService := meetService c;
                 gmailService := Some s; docsService := docsService c |}.

Definition set_docsService (s : GoogleDocsService) : M unit :=
  c <- read_cache ;;
  write_cache {| authInstance := authInstance c; meetService := meetService c;
                 gmailService := gmailService c; docsService := Some s |}.

Definition ensureAuth (env : Env) : M GoogleAuth :=
  c <- read_cache ;;
  match authInstance c with
  | Some auth => ret auth
  | None =>
      if Auth.isAuthenticated env then
        auth <- Auth.authenticate env ;;
        set_authInstance auth ;;;
        ret auth
      else throw (JsError "NOT_AUTHENTICATED")
  end.

Definition getMeetService (env : Env) : M GoogleMeetService :=
  c <- read_cache ;;
  match meetService c with
  | Some service => ret service
  | None =>
      auth <- ensureAuth env ;;
      set_meetService {| meet_auth := auth |} ;;;
      ret {| meet_auth := auth |}
  end.

Definition getGmailService (env : Env) : M GmailService :=
  c <- read_cache ;;
  match gmailService c with
  | Some service => ret service
  | None =>
      auth <- ensureAuth env ;;
      set_gmailService {| gmail_auth := auth |} ;;;
      ret {| gmail_auth := auth |}
  end.

Definition getDocsService (env : Env) : M GoogleDocsService :=
  c <- read_cache ;;
  match docsService c with
  | Some service => ret service
  | None =>
      auth <- ensureAuth env ;;
      set_docsService {| docs_auth := auth |} ;;;
      ret {| docs_auth := auth |}
  end.

(** [error instanceof Error && error.message === "NOT_AUTHENTICATED"] *)
Definition is_not_authenticated (error : exn) : bool :=
  match error with
  | JsError message => String.eqb message "NOT_AUTHENTICATED"
  | JsThrown _ => false
  end.

Definition on_auth_error (error : exn) : M ToolResponse :=
  if is_not_authenticated error then ret NOT_AUTHENTICATED_RESPONSE else throw error.

Definition withMeetAuth (env : Env) (handler : GoogleMeetService -> M ToolResponse)
  : M ToolResponse :=
  try_catch (service <- getMeetService env ;; handler service) on_auth_error.

Definition withGmailAuth (env : Env) (handler : GmailService -> M ToolResponse)
  : M ToolResponse :=
  try_catch (service <- getGmailService env ;; handler service) on_auth_error.

Definition withDocsAuth (env : Env) (handler : GoogleDocsService -> M ToolResponse)
  : M ToolResponse :=
  try_catch (service <- getDocsService env ;; handler service) on_auth_error.

(** [validateInput], with the attempt recorded. *)
Definition validateInput (env : Env) (s : Zod.schema) (args : json) : M json :=
  log (EvValidate s args) ;;;
  lift (Schemas.validateInput (is_email env) s args).

Definition is_empty {A} (l : list A) : bool := Nat.eqb (length l) 0.

(** *** Auth tools *)

Definition handleAuthStatus (env : Env) : M ToolResponse :=
  ret (createSuccessResponse (Auth.getAuthStatus env)).

Definition handleAuthenticate (env : Env) : M ToolResponse :=
  try_catch
    (auth <- Auth.authenticate env ;;
     set_authInstance auth ;;;
     set_meetService {| meet_auth := auth |} ;;;
     set_gmailService {| gmail_auth := auth |} ;;;
     set_docsService {| docs_auth := auth |} ;;;
     ret (createSuccessResponse
            ("✅ Successfully authenticated with Google!" ++ nl ++ nl ++
             "You can now use Google Meet, Calendar, Gmail, and Docs tools.")))
    (fun error =>
       ret (createErrorResponse ("❌ Authentication failed: " ++ exn_message error))).

(** *** Meet tools *)

Definition handleListConferences (env : Env) (args : json) : M ToolResponse :=
  withMeetAuth env (fun service =>
    data <- validateInput env Schemas.ListConferencesSchema args ;;
    conferences <- Meet.listConferenceRecords env (to_Z (get "limit" data)) ;;
    if is_empty conferences then
      ret (createSuccessResponse
             ("No conference records found." ++ nl ++ nl ++
              "Note: Conference records are only available for meetings where:" ++ nl ++
              "- Recording or transcription was enabled" ++ nl ++
              "- The meeting occurred recently (records expire after some time)"))
    else ret (createSuccessResponse (present env list_conferences data (JArr conferences)))).

Definition handleGetConference (env : Env) (args : json) : M ToolResponse :=
  withMeetAuth env (fun service =>
    data <- validateInput env Schemas.GetConferenceSchema args ;;
    conf <- Meet.getConferenceRecord env (to_string (get "name" data)) ;;
    ret (createSuccessResponse (present env get_conference data conf))).

Definition handleListParticipants (env : Env) (args : json) : M ToolResponse :=
  withMeetAuth env (fun service =>
    data <- validateInput env Schemas.ConferenceNameSchema args ;;
    participants <- Meet.listParticipants env (to_string (get "conference_name" data)) ;;
    if is_empty participants then
      ret (createSuccessResponse "No participants found for this conference.")
    else ret (createSuccessResponse (present env list_participants data (JArr participants)))).

Definition handleListRecordings (env : Env) (args : json) : M ToolResponse :=
  withMeetAuth env (fun service =>
    data <- validateInput env Schemas.ConferenceNameSchema args ;;
    recordings <- Meet.listRecordings env (to_string (get "conference_name" data)) ;;
    if is_empty recordings then
      ret (createSuccessResponse
             ("No recordings found for this conference." ++ nl ++ nl ++
              "Note: Recordings must be enabled in the meeting for them to be available."))
    else ret (createSuccessResponse (present env list_recordings data (JArr recordings)))).

Definition handleListTranscripts (env : Env) (args : json) : M ToolResponse :=
  withMeetAuth env (fun service =>
    data <- validateInput env Schemas.ConferenceNameSchema args ;;
    transcripts <- Meet.listTranscripts env (to_string (get "conference_name" data)) ;;
    if is_empty transcripts then
      ret (createSuccessResponse
             ("No transcripts found for this conference." ++ nl ++ nl ++
              "Note: Transcription must be enabled in the meeting for transcripts to be available."))
    else ret (createSuccessResponse (present env list_transcripts data (JArr transcripts)))).

Definition handleGetTranscriptText (env : Env) (args : json) : M ToolResponse :=
  withMeetAuth env (fun service =>
    data <- validateInput env Schemas.TranscriptNameSchema args ;;
    entries <- Meet.listTranscriptEntries env (to_string (get "transcript_name" data)) ;;
    if is_empty entries then
      ret (createSuccessResponse "No transcript entries found.")
    else ret (createSuccessResponse (present env get_transcript_text data (JArr entries)))).

Definition handleCreateMeeting (env : Env) : M ToolResponse :=
  withMeetAuth env (fun service =>
    space <- Meet.createSpace env ;;
    ret (createSuccessResponse
           ("✅ **Meeting Created!**" ++ nl ++ nl ++
            "- Meeting URI: "
              ++ interpolate env (Meet.or_else (get "meetingUri" space) (JStr "N/A")) ++ nl ++
            "- Meeting Code: "
              ++ interpolate env (Meet.or_else (get "meetingCode" space) (JStr "N/A")) ++ nl ++
            "- Resource Name: `" ++ interpolate env (get "name" space) ++ "`"))).

Definition handleListUpcomingMeetings (env : Env) (args : json) : M ToolResponse :=
  withMeetAuth env (fun service =>
    data <- validateInput env Schemas.ListMeetingsSchema args ;;
    meetings <- Meet.listUpcomingMeetings env (to_Z (get "limit" data)) ;;
    if is_empty meetings then
      ret (createSuccessResponse "No upcoming Google Meet meetings found in your calendar.")
    else ret (createSuccessResponse (present env list_upcoming_meetings data (JArr meetings)))).

Definition handleListPastMeetings (env : Env) (args : json) : M ToolResponse :=
  withMeetAuth env (fun service =>
    data <- validateInput env Schemas.ListMeetingsSchema args ;;
    meetings <- Meet.listPastMeetings env (to_Z (get "limit" data)) ;;
    if is_empty meetings then
      ret (createSuccessResponse
             "No past Google Meet meetings found in your calendar (last 30 days).")
    else ret (createSuccessResponse (present env list_past_meetings data (JArr meetings)))).

Definition handleSummarizeTranscript (env : Env) (args : json) : M ToolResponse :=
  withMeetAuth env (fun service =>
    data <- validateInput env Schemas.TranscriptNameSchema args ;;
    entries <- Meet.listTranscriptEntries env (to_string (get "transcript_name" data)) ;;
    if is_empty entries then
      ret (createSuccessResponse "No transcript entries found to summarize.")
    else ret (createSuccessResponse (present env summarize_transcript data (JArr entries)))).

(** The validated record of [create_calendar_event], typed. *)
Definition calendar_params (data : json) : Meet.CreateCalendarEventParams :=
  {| Meet.summary := to_string (get "summary" data);
     Meet.description := to_opt_string (get "description" data);
     Meet.start_time := to_string (get "start_time" data);
     Meet.end_time := to_opt_string (get "end_time" data);
     Meet.duration_minutes :=
       match get "duration_minutes" data with
       | JNum q => Some (to_Z (JNum q))
       | _ => None
       end;
     Meet.attendees :=
       match get "attendees" data with
       | JArr l => Some (map to_string l)
       | _ => None
       end;
     Meet.location := to_opt_string (get "location" data);
     Meet.timezone := to_opt_string (get "timezone" data);
     Meet.add_meet_link :=
       match get "add_meet_link" data with
       | JBool b => Some b
       | _ => None
       end |}.

Definition handleCreateCalendarEvent (env : Env) (args : json) : M ToolResponse :=
  withMeetAuth env (fun service =>
    data <- validateInput env Schemas.CreateCalendarEventSchema args ;;
    event <- Meet.createCalendarEvent env (calendar_params data) ;;
    ret (createSuccessResponse (present env create_calendar_event data event))).

(** *** Gmail tools *)

Definition handleGmailProfile (env : Env) : M ToolResponse :=
  withGmailAuth env (fun service =>
    profile <- Gmail.getProfile env ;;
    ret (createSuccessResponse (present env gmail_profile JUndefined profile))).

Definition handleListEmails (env : Env) (args : json) : M ToolResponse :=
  withGmailAuth env (fun service =>
    data <- validateInput env Schemas.ListEmailsSchema args ;;
    messages <- Gmail.listMessages env None (Some (to_Z (get "limit" data))) None ;;
    if is_empty messages then
      ret (createSuccessResponse "No emails found in your inbox.")
    else ret (createSuccessResponse (present env list_emails data (JArr messages)))).

Definition handleSearchEmails (env : Env) (args : json) : M ToolResponse :=
  withGmailAuth env (fun service =>
    data <- validateInput env Schemas.SearchEmailsSchema args ;;
    let query := to_string (get "query" data) in
    messages <- Gmail.searchEmails env query (Some (to_Z (get "limit" data))) ;;
    if is_empty messages then
      ret (createSuccessResponse ("No emails found matching: " ++ dquote ++ query ++ dquote))
    else ret (createSuccessResponse (present env search_emails data (JArr messages)))).

Definition handleGetEmail (env : Env) (args : json) : M ToolResponse :=
  withGmailAuth env (fun service =>
    data <- validateInput env Schemas.GetEmailSchema args ;;
    message <- Gmail.getMessage env (to_string (get "message_id" data)) ;;
    ret (createSuccessResponse (present env get_email data message))).

Definition handleGetThread (env : Env) (args : json) : M ToolResponse :=
  withGmailAuth env (fun service =>
    data <- validateInput env Schemas.GetThreadSchema args ;;
    thread <- Gmail.getThread env (to_string (get "thread_id" data)) ;;
    if negb (truthy (get "messages" thread)) || is_empty (Meet.items_or_empty (get "messages" thread))
    then ret (createSuccessResponse "No messages found in this thread.")
    else ret (createSuccessResponse (present env get_thread data thread))).

(** The validated record of [send_email] and [create_draft], typed. *)
Definition email_params (data : json) : Gmail.SendEmailParams :=
  {| Gmail.to := to_string (get "to" data);
     Gmail.subject := to_string (get "subject" data);
     Gmail.body := to_string (get "body" data);
     Gmail.cc := to_opt_string (get "cc" data);
     Gmail.bcc := to_opt_string (get "bcc" data) |}.

Definition handleSendEmail (env : Env) (args : json) : M ToolResponse :=
  withGmailAuth env (fun service =>
    data <- validateInput env Schemas.SendEmailSchema args ;;
    let params := email_params data in
    message <- Gmail.sendEmail env params ;;
    ret (createSuccessResponse
           ("✅ **Email Sent Successfully!**" ++ nl ++ nl ++
            "- To: " ++ Gmail.to params ++ nl ++
            "- Subject: " ++ Gmail.subject params ++ nl ++
            "- Message ID: `" ++ interpolate env (get "id" message) ++ "`"))).

Definition handleCreateDraft (env : Env) (args : json) : M ToolResponse :=
  withGmailAuth env (fun service =>
    data <- validateInput env Schemas.SendEmailSchema args ;;
    let params := email_params data in
    draft <- Gmail.createDraft env params ;;
    ret (createSuccessResponse
           ("✅ **Draft Created Successfully!**" ++ nl ++ nl ++
            "- To: " ++ Gmail.to params ++ nl ++
            "- Subject: " ++ Gmail.subject params ++ nl ++
            "- Draft ID: `" ++ interpolate env (get "id" draft) ++ "`"))).

Definition handleListLabels (env : Env) : M ToolResponse :=
  withGmailAuth env (fun service =>
    labels <- Gmail.listLabels env ;;
    ret (createSuccessResponse (present env list_labels JUndefined (JArr labels)))).

Definition handleTrashEmail (env : Env) (args : json) : M ToolResponse :=
  withGmailAuth env (fun service =>
    data <- validateInput env Schemas.TrashEmailSchema args ;;
    let message_id := to_string (get "message_id" data) in
    Gmail.trashMessage env message_id ;;;
    ret (createSuccessResponse ("✅ Email moved to trash: `" ++ message_id ++ "`"))).

Definition handleMarkAsRead (env : Env) (args : json) : M ToolResponse :=
  withGmailAuth env (fun service =>
    data <- validateInput env Schemas.MarkEmailSchema args ;;
    let message_id := to_string (get "message_id" data) in
    Gmail.markAsRead env message_id ;;;
    ret (createSuccessResponse ("✅ Email marked as read: `" ++ message_id ++ "`"))).

Definition handleMarkAsUnread (env : Env) (args : json) : M ToolResponse :=
  withGmailAuth env (fun service =>
    data <- validateInput env Schemas.MarkEmailSchema args ;;
    let message_id := to_string (get "message_id" data) in
    Gmail.markAsUnread env message_id ;;;
    ret (createSuccessResponse ("✅ Email marked as unread: `" ++ message_id ++ "`"))).

(** *** Google Docs tools *)

Definition handleListDocs (env : Env) (args : json) : M ToolResponse :=
  withDocsAuth env (fun service =>
    data <- validateInput env Schemas.ListDocsSchema args ;;
    docs <- Docs.listDocuments env (to_Z (get "limit" data)) ;;
    if is_empty docs then
      ret (createSuccessResponse "No Google Docs found in your Drive.")
    else ret (createSuccessResponse (present env list_docs data (JArr docs)))).

Definition handleSearchDocs (env : Env) (args : json) : M ToolResponse :=
  withDocsAuth env (fun service =>
    data <- validateInput env Schemas.SearchDocsSchema args ;;
    let query := to_string (get "query" data) in
    docs <- Docs.searchDocuments env query (to_Z (get "limit" data)) ;;
    if is_empty docs then
      ret (createSuccessResponse ("No documents found matching: " ++ dquote ++ query ++ dquote))
    else ret (createSuccessResponse (present env search_docs data (JArr docs)))).

Definition handleGetDoc (env : Env) (args : json) : M ToolResponse :=
  withDocsAuth env (fun service =>
    data <- validateInput env Schemas.GetDocSchema args ;;
    let document_id := to_string (get "document_id" data) in
    doc <- Docs.getDocument env document_id ;;
    text <- Docs.getDocumentText env document_id ;;
    ret (createSuccessResponse
           ("**Document: " ++ interpolate env (get "title" doc) ++ "**" ++ nl ++ nl ++
            "- ID: `" ++ interpolate env (get "documentId" doc) ++ "`" ++ nl ++
            "- URL: " ++ Docs.getDocumentUrl (interpolate env (get "documentId" doc))
              ++ nl ++ nl ++
            "---" ++ nl ++ nl ++ "**Content:**" ++ nl ++ nl ++
            (if str_truthy text then text else "(Empty document)")))).

Definition handleCreateDoc (env : Env) (args : json) : M ToolResponse :=
  withDocsAuth env (fun service =>
    data <- validateInput env Schemas.CreateDocSchema args ;;
    doc <- Docs.createDocument env (to_string (get "title" data))
                               (to_opt_string (get "content" data)) ;;
    ret (createSuccessResponse
           ("✅ **Document Created!**" ++ nl ++ nl ++
            "- Title: " ++ interpolate env (get "title" doc) ++ nl ++
            "- ID: `" ++ interpolate env (get "documentId" doc) ++ "`" ++ nl ++
            "- URL: " ++ Docs.getDocumentUrl (interpolate env (get "documentId" doc))))).

Definition handleAppendToDoc (env : Env) (args : json) : M ToolResponse :=
  withDocsAuth env (fun service =>
    data <- validateInput env Schemas.AppendToDocSchema args ;;
    let document_id := to_string (get "document_id" data) in
    Docs.appendText env document_id (to_string (get "text" data)) ;;;
    ret (createSuccessResponse
           ("✅ Text appended to document!" ++ nl ++ nl ++
            "- Document ID: `" ++ document_id ++ "`" ++ nl ++
            "- URL: " ++ Docs.getDocumentUrl document_id))).

Definition handleReplaceInDoc (env : Env) (args : json) : M ToolResponse :=
  withDocsAuth env (fun service =>
    data <- validateInput env Schemas.ReplaceInDocSchema args ;;
    let document_id := to_string (get "document_id" data) in
    let search_text := to_string (get "search_text" data) in
    let replace_text := to_string (get "replace_text" data) in
    count <- Docs.replaceText env document_id search_text replace_text
                              (truthy (get "match_case" data)) ;;
    ret (createSuccessResponse
           ("✅ Text replaced in document!" ++ nl ++ nl ++
            "- Occurrences replaced: " ++ dec count ++ nl ++
            "- Search: " ++ dquote ++ search_text ++ dquote ++ nl ++
            "- Replace: " ++ dquote ++ replace_text ++ dquote ++ nl ++
            "- Document: " ++ Docs.getDocumentUrl document_id))).

(** *** Tool router *)

Definition tool_name (t : tool) : string :=
  match t with
  | auth_status => "auth_status"
  | authenticate_ => "authenticate"
  | list_conferences => "list_conferences"
  | get_conference => "get_conference"
  | list_participants => "list_participants"
  | list_recordings => "list_recordings"
  | list_transcripts => "list_transcripts"
  | get_transcript_text => "get_transcript_text"
  | create_meeting => "create_meeting"
  | list_upcoming_meetings => "list_upcoming_meetings"
  | list_past_meetings => "list_past_meetings"
  | summarize_transcript => "summarize_transcript"
  | create_calendar_event => "create_calendar_event"
  | gmail_profile => "gmail_profile"
  | list_emails => "list_emails"
  | search_emails => "search_emails"
  | get_email => "get_email"
  | get_thread => "get_thread"
  | send_email => "send_email"
  | create_draft => "create_draft"
  | list_labels => "list_labels"
  | trash_email => "trash_email"
  | mark_as_read => "mark_as_read"
  | mark_as_unread => "mark_as_unread"
  | list_docs => "list_docs"
  | search_docs => "search_docs"
  | get_doc => "get_doc"
  | create_doc => "create_doc"
  | append_to_doc => "append_to_doc"
  | replace_in_doc => "replace_in_doc"
  end.

Definition all_tools : list tool :=
  [auth_status; authenticate_;
   list_conferences; get_conference; list_participants; list_recordings;
   list_transcripts; get_transcript_text; create_meeting;
   list_upcoming_meetings; list_past_meetings; summarize_transcript;
   create_calendar_event;
   gmail_profile; list_emails; search_emails; get_email; get_thread;
   send_email; create_draft; list_labels; trash_email; mark_as_read;
   mark_as_unread;
   list_docs; search_docs; get_doc; create_doc; append_to_doc; replace_in_doc].

(** The [case] label that matches [name], if any. *)
Definition tool_of_name (name : string) : option tool :=
  find (fun t => String.eqb name (tool_name t)) all_tools.

(** The body of each [case]. *)
Definition handler (t : tool) (env : Env) (args : json) : M ToolResponse :=
  match t with
  | auth_status => handleAuthStatus env
  | authenticate_ => handleAuthenticate env
  | list_conferences => handleListConferences env args
  | get_conference => handleGetConference env args
  | list_participants => handleListParticipants env args
  | list_recordings => handleListRecordings env args
  | list_transcripts => handleListTranscripts env args
  | get_transcript_text => handleGetTranscriptText env args
  | create_meeting => handleCreateMeeting env
  | list_upcoming_meetings => handleListUpcomingMeetings env args
  | list_past_meetings => handleListPastMeetings env args
  | summarize_transcript => handleSummarizeTranscript env args
  | create_calendar_event => handleCreateCalendarEvent env args
  | gmail_profile => handleGmailProfile env
  | list_emails => handleListEmails env args
  | search_emails => handleSearchEmails env args
  | get_email => handleGetEmail env args
  | get_thread => handleGetThread env args
  | send_email => handleSendEmail env args
  | create_draft => handleCreateDraft env args
  | list_labels => handleListLabels env
  | trash_email => handleTrashEmail env args
  | mark_as_read => handleMarkAsRead env args
  | mark_as_unread => handleMarkAsUnread env args
  | list_docs => handleListDocs env args
  | search_docs => handleSearchDocs env args
  | get_doc => handleGetDoc env args
  | create_doc => handleCreateDoc env args
  | append_to_doc => handleAppendToDoc env args
  | replace_in_doc => handleReplaceInDoc env args
  end.

Definition handleToolCall (env : Env) (name : string) (args : json) : M ToolResponse :=
  match tool_of_name name with
  | Some t => handler t env args
  | None => ret (createErrorResponse ("Unknown tool: " ++ name))
  end.

End Handlers.

(* ===================================================================== *)
(** ** index.ts: the [CallToolRequestSchema] handler *)
(* ===================================================================== *)

Module Index.

(** The protocol boundary: whatever [handleToolCall] throws becomes an
    error envelope. *)
Definition callTool (env : Env) (name : string) (args : json) (st : state)
  : ToolResponse * state :=
  match Handlers.handleToolCall env name args st with
  | (Returned response, st') => (response, st')
  | (Thrown error, st') => (createErrorResponse ("Error: " ++ exn_message error), st')
  end.

End Index.

(* ===================================================================== *)
(** ** tools/definitions.ts: the registry *)
(* ===================================================================== *)

Module Definitions.

(** A tool descriptor: its name, the name and JSON type of each declared
    property, and the names listed as required.  The descriptive prose of
    the source is left out. *)
Record Tool : Type :=
  { name : string;
    properties : list (string * string);
    required : list string }.

Definition tools : list Tool :=
  [ {| name := "auth_status"; properties := []; required := [] |};
    {| name := "authenticate"; properties := []; required := [] |};
    {| name := "list_conferences"; properties := [("limit", "number")]; required := [] |};
    {| name := "get_conference"; properties := [("name", "string")]; required := ["name"] |};
    {| name := "list_participants"; properties := [("conference_name", "string")];
       required := ["conference_name"] |};
    {| name := "list_recordings"; properties := [("conference_name", "string")];
       required := ["conference_name"] |};
    {| name := "list_transcripts"; properties := [("conference_name", "string")];
       required := ["conference_name"] |};
    {| name := "get_transcript_text"; properties := [("transcript_name", "string")];
       required := ["transcript_name"] |};
    {| name := "create_meeting"; properties := []; required := [] |};
    {| name := "list_upcoming_meetings"; properties := [("limit", "number")]; required := [] |};
    {| name := "list_past_meetings"; properties := [("limit", "number")]; required := [] |};
    {| name := "summarize_transcript"; properties := [("transcript_name", "string")];
       required := ["transcript_name"] |};
    {| name := "create_calendar_event";
       properties := [("summary", "string"); ("description", "string");
                      ("start_time", "string"); ("end_time", "string");
                      ("duration_minutes", "number"); ("attendees", "array");
                      ("location", "string"); ("timezone", "string");
                      ("add_meet_link", "boolean")];
       required := ["summary"; "start_time"] |};
    {| name := "gmail_profile"; properties := []; required := [] |};
    {| name := "list_emails"; properties := [("limit", "number")]; required := [] |};
    {| name := "search_emails"; properties := [("query", "string"); ("limit", "number")];
       required := ["query"] |};
    {| name := "get_email"; properties := [("message_id", "string")];
       required := ["message_id"] |};
    {| name := "get_thread"; properties := [("thread_id", "string")];
       required := ["thread_id"] |};
    {| name := "send_email";
       properties := [("to", "string"); ("subject", "string"); ("body", "string");
                      ("cc", "string"); ("bcc", "string")];
       required := ["to"; "subject"; "body"] |};
    {| name := "create_draft";
       properties := [("to", "string"); ("subject", "string"); ("body", "string");
                      ("cc", "string"); ("bcc", "string")];
       required := ["to"; "subject"; "body"] |};
    {| name := "list_labels"; properties := []; required := [] |};
    {| name := "trash_email"; properties := [("message_id", "string")];
       required := ["message_id"] |};
    {| name := "mark_as_read"; properties := [("message_id", "string")];
       required := ["message_id"] |};
    {| name := "mark_as_unread"; properties := [("message_id", "string")];
       required := ["message_id"] |};
    {| name := "list_docs"; properties := [("limit", "number")]; required := [] |};
    {| name := "search_docs"; properties := [("query", "string"); ("limit", "number")];
       required := ["query"] |};
    {| name := "get_doc"; properties := [("document_id", "string")];
       required := ["document_id"] |};
    {| name := "create_doc"; properties := [("title", "string"); ("content", "string")];
       required := ["title"] |};
    {| name := "append_to_doc"; properties := [("document_id", "string"); ("text", "string")];
       required := ["document_id"; "text"] |};
    {| name := "replace_in_doc";
       properties := [("document_id", "string"); ("search_text", "string");
                      ("replace_text", "string"); ("match_case", "boolean")];
       required := ["document_id"; "search_text"; "replace_text"] |} ].

End Definitions.

(* ===================================================================== *)
(** ** utils.ts: the formatting helpers *)
(* ===================================================================== *)

Module Helpers.
Local Open Scope Z_scope.

(** [formatDuration(start, end)].  [getTime] is [new Date(s).getTime()]:
    the milliseconds of a date text, [None] for NaN.  The code computes
    on doubles: as long as both times and their difference are within
    2^53 the subtraction is exact and the two divisions, floored, are
    those of whole numbers; beyond that the difference is rounded, and
    [rounded] is what the code prints then. *)
Definition formatDuration (getTime : string -> option Z) (rounded : Z -> Z -> string)
           (start end_ : option string) : string :=
  match start, end_ with
  | Some s, Some e =>
      if str_truthy s && str_truthy e then
        match getTime s, getTime e with
        | Some startMs, Some endMs =>
            let diffMs := endMs - startMs in
            if Z.leb (Z.abs startMs) Meet.max_exact
               && Z.leb (Z.abs endMs) Meet.max_exact
               && Z.leb (Z.abs diffMs) Meet.max_exact
            then
              let mins := Z.div diffMs 60000 in
              let hours := Z.div mins 60 in
              let remainingMins := Z.rem mins 60 in
              if Z.ltb 0 hours then dec hours ++ "h " ++ dec remainingMins ++ "m"
              else dec mins ++ "m"
            else rounded startMs endMs
        | _, _ => "NaNm"
        end
      else "N/A"
  | _, _ => "N/A"
  end.

Definition getParticipantDisplayName (participant : json) : json :=
  Meet.or_else (get "displayName" (get "signedinUser" participant))
    (Meet.or_else (get "displayName" (get "anonymousUser" participant))
       (Meet.or_else (get "displayName" (get "phoneUser" participant))
          (JStr "Unknown"))).

(** [event.conferenceData?.entryPoints?.[0]?.uri] *)
Definition first_entry_point_uri (event : json) : json :=
  match get "entryPoints" (get "conferenceData" event) with
  | JArr (entry :: _) => get "uri" entry
  | _ => JUndefined
  end.

Definition getMeetingLink (event : json) : json :=
  Meet.or_else (get "hangoutLink" event)
    (Meet.or_else (first_entry_point_uri event) (JStr "N/A")).

End Helpers.

(* ===================================================================== *)
(** ** gmail-api.ts: reading a message *)
(* ===================================================================== *)

Module GmailText.

(** [decodeBody(data)].  [bufferText] is
    [Buffer.from(data, "base64url").toString("utf-8")]. *)
Definition decodeBody (bufferText : string -> string) (data : json) : string :=
  match data with
  | JStr d => if str_truthy d then bufferText d else EmptyString
  | _ => EmptyString
  end.

(** The first loop over the parts: the first text/plain part with data. *)
Fixpoint first_plain_part (parts : list json) : option json :=
  match parts with
  | [] => None
  | part :: rest =>
      match get "mimeType" part with
      | JStr mimeType =>
          if String.eqb mimeType "text/plain" && truthy (get "data" (get "body" part))
          then Some part else first_plain_part rest
      | _ => first_plain_part rest
      end
  end.

(** The second loop: the first part with any data. *)
Fixpoint first_part_with_body (parts : list json) : option json :=
  match parts with
  | [] => None
  | part :: rest =>
      if truthy (get "data" (get "body" part)) then Some part
      else first_part_with_body rest
  end.

Definition getMessageBody (bufferText : string -> string) (message : json) : string :=
  let payload := get "payload" message in
  if truthy (get "data" (get "body" payload))
  then decodeBody bufferText (get "data" (get "body" payload))
  else
    match get "parts" payload with
    | JArr parts =>
        match first_plain_part parts with
        | Some part => decodeBody bufferText (get "data" (get "body" part))
        | None =>
            match first_part_with_body parts with
            | Some part => decodeBody bufferText (get "data" (get "body" part))
            | None => EmptyString
            end
        end
    | _ => EmptyString
    end.

End GmailText.

(* ===================================================================== *)
(** ** Vocabulary of the properties *)
(* ===================================================================== *)

(** Every tool but [auth_status] and [authenticate] goes through one of
    the [with...Auth] wrappers. *)
Definition requires_auth (t : tool) : bool :=
  match t with
  | auth_status | authenticate_ => false
  | _ => true
  end.

(** The schema a tool's handler validates its arguments against; three
    tools take no arguments and validate nothing. *)
Definition schema_of (t : tool) : option Zod.schema :=
  match t with
  | auth_status | authenticate_ | create_meeting | gmail_profile | list_labels => None
  | list_conferences => Some Schemas.ListConferencesSchema
  | get_conference => Some Schemas.GetConferenceSchema
  | list_participants | list_recordings | list_transcripts => Some Schemas.ConferenceNameSchema
  | get_transcript_text | summarize_transcript => Some Schemas.TranscriptNameSchema
  | list_upcoming_meetings | list_past_meetings => Some Schemas.ListMeetingsSchema
  | create_calendar_event => Some Schemas.CreateCalendarEventSchema
  | list_emails => Some Schemas.ListEmailsSchema
  | search_emails => Some Schemas.SearchEmailsSchema
  | get_email => Some Schemas.GetEmailSchema
  | get_thread => Some Schemas.GetThreadSchema
  | send_email | create_draft => Some Schemas.SendEmailSchema
  | trash_email => Some Schemas.TrashEmailSchema
  | mark_as_read | mark_as_unread => Some Schemas.MarkEmailSchema
  | list_docs => Some Schemas.ListDocsSchema
  | search_docs => Some Schemas.SearchDocsSchema
  | get_doc => Some Schemas.GetDocSchema
  | create_doc => Some Schemas.CreateDocSchema
  | append_to_doc => Some Schemas.AppendToDocSchema
  | replace_in_doc => Some Schemas.ReplaceInDocSchema
  end.

(** The loop of [parse] over the shape of an object schema, by name. *)
Fixpoint object_fields (em : string -> bool) (p : list string)
         (fields : list (string * json)) (sh : list (string * Zod.schema))
  : list Zod.issue * list (string * json) :=
  match sh with
  | [] => ([], [])
  | (k, sk) :: rest =>
      let '(e1, v) := Zod.parse em sk (p ++ [k])%list (lookup k fields) in
      let '(e2, out) := object_fields em p fields rest in
      ((e1 ++ e2)%list,
       if has_key k fields || negb (match v with JUndefined => true | _ => false end)
       then (k, v) :: out else out)
  end.

(** The schema of every [limit] field, for an upper bound [b]. *)
Definition limit_schema (b : Z) : Zod.schema :=
  z.number |> z.int |> z.min 1 |> z.max b |> z.optional |> z.default (Schemas.num 10).

(** The upper bound the interface documents for a tool's [limit]. *)
Definition declared_limit_bound (t : tool) : option Z :=
  match t with
  | list_conferences | list_upcoming_meetings | list_past_meetings => Some 100%Z
  | list_emails | search_emails | list_docs | search_docs => Some 50%Z
  | _ => None
  end.

(** What a tool with a [limit] requires besides it: the two search tools
    need a non-empty [query]. *)
Definition other_arguments_ok (t : tool) (fields : list (string * json)) : Prop :=
  match t with
  | search_emails | search_docs =>
      exists query, lookup "query" fields = JStr query /\ query <> EmptyString
  | _ => True
  end.

(** The process starts with nothing cached and nothing done. *)
Definition initial_state : state := {| cached := empty_cache; trace := [] |}.

(** The states a process can be in: the initial one, and any state a
    tool call leaves behind, whatever the world answered. *)
Inductive reachable : state -> Prop :=
| reachable_initial : reachable initial_state
| reachable_call (env : Env) (name : string) (args : json) (st : state) :
    reachable st -> reachable (snd (Index.callTool env name args st)).

(** A client is cached only together with a credential. *)
Definition cache_coherent (c : cache) : Prop :=
  authInstance c = None ->
  meetService c = None /\ gmailService c = None /\ docsService c = None.


(** A computation that leaves the four cached variables alone. *)
Definition stable {A} (m : M A) : Prop :=
  forall st, cached (snd (m st)) = cached st.

(** A computation that keeps the cache coherent. *)
Definition keeps_coherent {A} (m : M A) : Prop :=
  forall st, cache_coherent (cached st) -> cache_coherent (cached (snd (m st))).




(** *** A sample world and a signed-in process, to run the model on *)

Definition sample_events : list json :=
  [ JObj [("summary", JStr "Standup"); ("hangoutLink", JStr "https://meet.google.com/abc-defg-hij")];
    JObj [("summary", JStr "Dentist")];
    JObj [("summary", JStr "Review");
          ("conferenceData", JObj [("conferenceSolution", JObj [("name", JStr "Google Meet")])])];
    JObj [("summary", JStr "Vendor call");
          ("conferenceData", JObj [("conferenceSolution", JObj [("name", JStr "Zoom Meeting")])])];
    JObj [("summary", JStr "Retro"); ("hangoutLink", JStr "https://meet.google.com/klm-nopq-rst")] ].

Definition sample_env : Env :=
  {| credentialsPath := "/srv/mcp/credentials.json";
     credentials := Missing;
     token_exists := false;
     service_account_auth := fun _ => Returned {| handle := 1 |};
     oauth_exchange := fun _ => Thrown (JsError "invalid_grant");
     is_email := includes "@";
     now_iso := "2026-01-30T08:00:00.000Z";
     days_ago_iso := fun _ => "2025-12-31T08:00:00.000Z";
     fresh_request_id := "meet-1769760000000-k3x9p";
     meet_api := fun _ _ => Returned (JObj []);
     calendar_events_list := fun _ => Returned (Some sample_events);
     calendar_events_insert := fun _ => Returned (JObj [("id", JStr "evt1")]);
     gmail_getProfile := Returned (JObj []);
     gmail_messages_list := fun _ => Returned (Some ["m1"; "m2"]);
     gmail_messages_get := fun id => Returned (JObj [("id", JStr id)]);
     gmail_threads_get := fun id => Returned (JObj [("id", JStr id)]);
     gmail_labels_list := Returned None;
     gmail_messages_send := fun _ => Returned (JObj [("id", JStr "sent1")]);
     gmail_drafts_create := fun _ => Returned (JObj [("id", JStr "draft1")]);
     gmail_messages_trash := fun _ => Returned tt;
     gmail_messages_modify := fun _ _ _ => Returned tt;
     docs_documents_get := fun id => Returned (JObj [("documentId", JStr id)]);
     docs_documents_create := fun _ => Returned (JObj [("documentId", JStr "doc1")]);
     docs_documents_batchUpdate := fun _ _ => Returned (JObj []);
     drive_files_list := fun _ => Returned None;
     type_error_message := "Cannot read properties of undefined (reading 'split')";
     end_outside_numerals := fun start _ => start;
     show_value := fun _ => "[object Object]";
     present := fun _ _ _ => "(formatted result)" |}.

Definition sample_auth : GoogleAuth := {| handle := 1 |}.

(** The process after a successful [authenticate]. *)
Definition signed_in : state :=
  {| cached := {| authInstance := Some sample_auth;
                  meetService := Some {| meet_auth := sample_auth |};
                  gmailService := Some {| gmail_auth := sample_auth |};
                  docsService := Some {| docs_auth := sample_auth |} |};
     trace := [] |}.

(** A Meet-backed event, as the specification has it: its conference
    solution is named "Google Meet", or it carries a direct join link. *)
Definition meet_backed (event : json) : Prop :=
  get "name" (get "conferenceSolution" (get "conferenceData" event)) = JStr "Google Meet"
  \/ truthy (get "hangoutLink" event) = true.

(** [keeps_exactly P items kept]: [kept] holds exactly the items that
    satisfy [P], each as often as it occurs and in the order of
    [items]. *)
Inductive keeps_exactly {A} (P : A -> Prop) : list A -> list A -> Prop :=
| keeps_none : keeps_exactly P [] []
| keeps_this (x : A) (items kept : list A) :
    P x -> keeps_exactly P items kept -> keeps_exactly P (x :: items) (x :: kept)
| keeps_skip (x : A) (items kept : list A) :
    ~ P x -> keeps_exactly P items kept -> keeps_exactly P (x :: items) kept.

(** The events of an answer of the calendar: an answer without a list
    has none. *)
Definition events_received (items : option (list json)) : list json :=
  match items with
  | Some events => events
  | None => []
  end.

(** What one run of the listing routine of the mail client records: the
    list request, then one fetch for each message the list returned. *)
Definition listing_events (env : Env) (r : messages_list_request) : list event :=
  EvGmailMessagesList r
  :: match gmail_messages_list env r with
     | Returned listed => map EvGmailMessagesGet (Gmail.or_default listed [])
     | Thrown _ => []
     end.

(** The two replacements of the mail client, on one character. *)
Definition url_char (c : ascii) : ascii :=
  let c1 := if Ascii.eqb c "+" then "-"%char else c in
  if Ascii.eqb c1 "/" then "_"%char else c1.


(** The raw message with the two fixed MIME lines the client adds, and
    Cc and Bcc only when they are non-empty. *)
Definition mime_message (p : Gmail.SendEmailParams) : string :=
  join CRLF
       (List.app ["To: " ++ Gmail.to p;
                  "Subject: " ++ Gmail.subject p;
                  "Content-Type: text/plain; charset=utf-8";
                  "MIME-Version: 1.0"]
                 (List.app (Gmail.pushed "Cc: " (Gmail.cc p))
                           (Gmail.pushed "Bcc: " (Gmail.bcc p))))
  ++ CRLF ++ CRLF ++ Gmail.body p.



(** The start and end [dateTime] of the events the process asked the
    calendar to insert. *)
Definition inserted_times (t : list event) : list (string * string) :=
  flat_map (fun ev => match ev with
                      | EvCalendarInsert r => [(dateTime (ei_start r), dateTime (ei_end r))]
                      | _ => []
                      end) t.

(** The whole numbers below [n], downwards. *)
Fixpoint below (n : nat) : list Z :=
  match n with
  | O => []
  | S k => Z.of_nat k :: below k
  end.

(** A computation that only adds to the trace. *)
Definition appends {A} (m : M A) : Prop :=
  forall st, exists more, trace (snd (m st)) = (trace st ++ more)%list.

(** The client a tool works through. *)
Inductive client : Type := MeetClient | GmailClient | DocsClient.

Definition client_of (t : tool) : option client :=
  match t with
  | auth_status | authenticate_ => None
  | list_conferences | get_conference | list_participants | list_recordings
  | list_transcripts | get_transcript_text | create_meeting
  | list_upcoming_meetings | list_past_meetings | summarize_transcript
  | create_calendar_event => Some MeetClient
  | gmail_profile | list_emails | search_emails | get_email | get_thread
  | send_email | create_draft | list_labels | trash_email | mark_as_read
  | mark_as_unread => Some GmailClient
  | list_docs | search_docs | get_doc | create_doc | append_to_doc
  | replace_in_doc => Some DocsClient
  end.

(** The client of the tool is already cached. *)
Definition client_cached (t : tool) (c : cache) : bool :=
  match client_of t with
  | Some MeetClient => match meetService c with Some _ => true | None => false end
  | Some GmailClient => match gmailService c with Some _ => true | None => false end
  | Some DocsClient => match docsService c with Some _ => true | None => false end
  | None => true
  end.

(** A world like [sample_env] whose saved token the exchange refuses. *)
Definition expired_env : Env :=
  {| credentialsPath := credentialsPath sample_env;
     credentials := Parsed (JObj [("installed", JObj [("client_id", JStr "app")])]);
     token_exists := true;
     service_account_auth := service_account_auth sample_env;
     oauth_exchange := fun _ => Thrown (JsError "invalid_grant");
     is_email := is_email sample_env;
     now_iso := now_iso sample_env;
     days_ago_iso := days_ago_iso sample_env;
     fresh_request_id := fresh_request_id sample_env;
     meet_api := meet_api sample_env;
     calendar_events_list := calendar_events_list sample_env;
     calendar_events_insert := calendar_events_insert sample_env;
     gmail_getProfile := gmail_getProfile sample_env;
     gmail_messages_list := gmail_messages_list sample_env;
     gmail_messages_get := gmail_messages_get sample_env;
     gmail_threads_get := gmail_threads_get sample_env;
     gmail_labels_list := gmail_labels_list sample_env;
     gmail_messages_send := gmail_messages_send sample_env;
     gmail_drafts_create := gmail_drafts_create sample_env;
     gmail_messages_trash := gmail_messages_trash sample_env;
     gmail_messages_modify := gmail_messages_modify sample_env;
     docs_documents_get := docs_documents_get sample_env;
     docs_documents_create := docs_documents_create sample_env;
     docs_documents_batchUpdate := docs_documents_batchUpdate sample_env;
     drive_files_list := drive_files_list sample_env;
     type_error_message := type_error_message sample_env;
     end_outside_numerals := end_outside_numerals sample_env;
     show_value := show_value sample_env;
     present := present sample_env |}.

(** An argument value that is not the text of an e-mail address: no
    text at all, or a text the pattern refuses. *)
Definition not_an_email_address (em : string -> bool) (v : json) : Prop :=
  match v with
  | JStr s => em s = false
  | _ => True
  end.

(** What zod says about such a recipient. *)
Definition recipient_issue (v : json) : string :=
  match v with
  | JStr _ => "Valid email address required"
  | JUndefined => "Required"
  | _ => "Expected string, received " ++ Zod.received v
  end.

(** The pairs of whole numbers below [n]. *)
Definition pairs_below (n : nat) : list (Z * Z) := list_prod (below n) (below n).

(** What [parseDateTime] and the end computation need of a clock text
    "HH:mm", checked by running them. *)
Definition clock_text_ok (hm : Z * Z) : bool :=
  let text := Meet.pad2 (fst hm) ++ ":" ++ Meet.pad2 (snd hm) in
  match Re.time_after_blanks (" " ++ text) with
  | Some timePart => String.eqb timePart text
  | None => false
  end
  && (let '(hours, minutes) := Meet.parseTimePart text in
      Z.eqb hours (fst hm) && Z.eqb minutes (snd hm))
  && negb (includes "T" (" " ++ text))
  && negb (includes "Z" (" " ++ text)).

(* ===================================================================== *)
(** ** Vocabulary of the further properties *)
(* ===================================================================== *)

(** A computation that only adds events satisfying [P] to the trace. *)
Definition adds {A} (P : event -> Prop) (m : M A) : Prop :=
  forall st, exists more,
    trace (snd (m st)) = (trace st ++ more)%list /\ Forall P more.

(** Every cached client is bound to the cached credential. *)
Definition cache_bound (c : cache) : Prop :=
  forall a, authInstance c = Some a ->
    (forall s, meetService c = Some s -> meet_auth s = a)
    /\ (forall s, gmailService c = Some s -> gmail_auth s = a)
    /\ (forall s, docsService c = Some s -> docs_auth s = a).

(** The cached client of a tool, as the credential it is bound to. *)
Definition client_binding (t : tool) (c : cache) : option GoogleAuth :=
  match client_of t with
  | Some MeetClient => option_map meet_auth (meetService c)
  | Some GmailClient => option_map gmail_auth (gmailService c)
  | Some DocsClient => option_map docs_auth (docsService c)
  | None => None
  end.

(** The names the registry lists. *)
Definition registered_names : list string := map Definitions.name Definitions.tools.

(** What was cached before is still cached after. *)
Definition persists (c c' : cache) : Prop :=
  (forall a, authInstance c = Some a -> authInstance c' = Some a)
  /\ (forall s, meetService c = Some s -> meetService c' = Some s)
  /\ (forall s, gmailService c = Some s -> gmailService c' = Some s)
  /\ (forall s, docsService c = Some s -> docsService c' = Some s).

(** A computation that replaces nothing that is cached. *)
Definition keeps_entries {A} (m : M A) : Prop :=
  forall st, persists (cached st) (cached (snd (m st))).

(** A computation that keeps the cache coherent and its clients bound. *)
Definition keeps_bound {A} (m : M A) : Prop :=
  forall st,
    cache_coherent (cached st) -> cache_bound (cached st) ->
    cache_bound (cached (snd (m st))).

(** An event other than a call of [authenticate()]. *)
Definition not_authenticate (ev : event) : Prop := ev <> EvAuthenticate.

(** A deployment with a service-account key on disk. *)
Definition service_account_env : Env :=
  {| credentialsPath := credentialsPath sample_env;
     credentials := Parsed (JObj [("type", JStr "service_account");
                                  ("client_email", JStr "bot@project.iam.gserviceaccount.com")]);
     token_exists := false;
     service_account_auth := service_account_auth sample_env;
     oauth_exchange := oauth_exchange sample_env;
     is_email := is_email sample_env;
     now_iso := now_iso sample_env;
     days_ago_iso := days_ago_iso sample_env;
     fresh_request_id := fresh_request_id sample_env;
     meet_api := meet_api sample_env;
     calendar_events_list := calendar_events_list sample_env;
     calendar_events_insert := calendar_events_insert sample_env;
     gmail_getProfile := gmail_getProfile sample_env;
     gmail_messages_list := gmail_messages_list sample_env;
     gmail_messages_get := gmail_messages_get sample_env;
     gmail_threads_get := gmail_threads_get sample_env;
     gmail_labels_list := gmail_labels_list sample_env;
     gmail_messages_send := gmail_messages_send sample_env;
     gmail_drafts_create := gmail_drafts_create sample_env;
     gmail_messages_trash := gmail_messages_trash sample_env;
     gmail_messages_modify := gmail_messages_modify sample_env;
     docs_documents_get := docs_documents_get sample_env;
     docs_documents_create := docs_documents_create sample_env;
     docs_documents_batchUpdate := docs_documents_batchUpdate sample_env;
     drive_files_list := drive_files_list sample_env;
     type_error_message := type_error_message sample_env;
     end_outside_numerals := end_outside_numerals sample_env;
     show_value := show_value sample_env;
     present := present sample_env |}.

(** A message whose recipient passed the address check and whose subject
    and body are not empty. *)
Definition deliverable (env : Env) (p : Gmail.SendEmailParams) : Prop :=
  is_email env (Gmail.to p) = true
  /\ Gmail.subject p <> EmptyString
  /\ Gmail.body p <> EmptyString.

(** An event that, when it hands a raw message to the mail API, hands
    the encoding of a deliverable message. *)
Definition validated_mail (env : Env) (ev : event) : Prop :=
  match ev with
  | EvGmailMessagesSend raw | EvGmailDraftsCreate raw =>
      exists p, deliverable env p /\ raw = Base64.base64url_unpadded (mime_message p)
  | _ => True
  end.

(** An event that, when it is a list request to Gmail, Drive or
    Calendar, asks for a page within the bounds the schemas declare:
    1 to 50 messages or files, and twice 1 to 100 calendar events. *)
Definition page_bounded (ev : event) : Prop :=
  match ev with
  | EvGmailMessagesList r => (1 <= ml_maxResults r <= 50)%Z
  | EvDriveFilesList r => (1 <= fl_pageSize r <= 50)%Z
  | EvCalendarList r => exists n, (1 <= n <= 100)%Z /\ el_maxResults r = (n * 2)%Z
  | _ => True
  end.

(** The values of a list of outcomes in order, or the first failure. *)
Fixpoint collect {A} (outcomes : list (outcome A)) : outcome (list A) :=
  match outcomes with
  | [] => Returned []
  | Returned a :: rest =>
      match collect rest with
      | Returned l => Returned (a :: l)
      | Thrown e => Thrown e
      end
  | Thrown e :: _ => Thrown e
  end.

(** The request [listMessages] sends. *)
Definition list_request (query : option string) (maxResults : option Z)
           (labelIds : option (list string)) : messages_list_request :=
  {| ml_userId := "me";
     ml_q := query;
     ml_maxResults := Gmail.or_default maxResults Config.gmail_maxResults;
     ml_labelIds := Gmail.or_default labelIds Config.gmail_defaultLabels |}.

(** The raw text the mail client derives from the bytes of a message. *)
Definition raw_of (bytes : string) : string :=
  Base64.toBase64 bytes
  |> Base64.replace_all "+" "-"
  |> Base64.replace_all "/" "_"
  |> Base64.strip_trailing_eq.

(** The place of a character in an alphabet (its length when absent). *)
Fixpoint index_of (c : ascii) (alphabet : string) : nat :=
  match alphabet with
  | EmptyString => 0
  | String a rest => if Ascii.eqb a c then 0 else S (index_of c rest)
  end.

(** The value of a base64url digit (RFC 4648, table 2). *)
Definition digit_value (c : ascii) : nat := index_of c Base64.url_safe.

(** Reading unpadded base64url back (RFC 4648, section 5): four digits
    give three bytes, a tail of three digits two bytes, of two digits
    one byte. *)
Fixpoint decode_base64url (s : string) : string :=
  match s with
  | String a (String b (String c (String d rest))) =>
      let '(a, b, c, d) := (digit_value a, digit_value b, digit_value c, digit_value d) in
      String (ascii_of_nat (a * 4 + b / 16))
        (String (ascii_of_nat ((b mod 16) * 16 + c / 4))
           (String (ascii_of_nat ((c mod 4) * 64 + d)) (decode_base64url rest)))
  | String a (String b (String c EmptyString)) =>
      let '(a, b, c) := (digit_value a, digit_value b, digit_value c) in
      String (ascii_of_nat (a * 4 + b / 16))
        (String (ascii_of_nat ((b mod 16) * 16 + c / 4)) EmptyString)
  | String a (String b EmptyString) =>
      let '(a, b) := (digit_value a, digit_value b) in
      String (ascii_of_nat (a * 4 + b / 16)) EmptyString
  | _ => EmptyString
  end.

(** Every character of a text is a digit of the URL-safe alphabet. *)
Fixpoint url_safe_text (s : string) : bool :=
  match s with
  | EmptyString => true
  | String c rest => Nat.ltb (digit_value c) 64 && url_safe_text rest
  end.

(** The encoded text a message part carries, when it carries one. *)
Definition part_data (part : json) : json := get "data" (get "body" part).

(** A part of MIME type text/plain that carries text. *)
Definition plain_with_data (part : json) : bool :=
  match get "mimeType" part with
  | JStr mimeType => String.eqb mimeType "text/plain" && truthy (part_data part)
  | _ => false
  end.

(** A two-part message: HTML first, plain text second. *)
Definition sample_multipart : json :=
  JObj [("id", JStr "m1");
        ("payload",
         JObj [("mimeType", JStr "multipart/alternative");
               ("parts",
                JArr [JObj [("mimeType", JStr "text/html");
                            ("body", JObj [("data", JStr "PGI-SGk8L2I-")])];
                      JObj [("mimeType", JStr "text/plain");
                            ("body", JObj [("data", JStr "SGk")])]])])].

(** A world like [sample_env] where reading a document is refused. *)
Definition unreadable_docs_env : Env :=
  {| credentialsPath := credentialsPath sample_env;
     credentials := credentials sample_env;
     token_exists := token_exists sample_env;
     service_account_auth := service_account_auth sample_env;
     oauth_exchange := oauth_exchange sample_env;
     is_email := is_email sample_env;
     now_iso := now_iso sample_env;
     days_ago_iso := days_ago_iso sample_env;
     fresh_request_id := fresh_request_id sample_env;
     meet_api := meet_api sample_env;
     calendar_events_list := calendar_events_list sample_env;
     calendar_events_insert := calendar_events_insert sample_env;
     gmail_getProfile := gmail_getProfile sample_env;
     gmail_messages_list := gmail_messages_list sample_env;
     gmail_messages_get := gmail_messages_get sample_env;
     gmail_threads_get := gmail_threads_get sample_env;
     gmail_labels_list := gmail_labels_list sample_env;
     gmail_messages_send := gmail_messages_send sample_env;
     gmail_drafts_create := gmail_drafts_create sample_env;
     gmail_messages_trash := gmail_messages_trash sample_env;
     gmail_messages_modify := gmail_messages_modify sample_env;
     docs_documents_get := fun _ => Thrown (JsError "The caller does not have permission");
     docs_documents_create := docs_documents_create sample_env;
     docs_documents_batchUpdate := docs_documents_batchUpdate sample_env;
     drive_files_list := drive_files_list sample_env;
     type_error_message := type_error_message sample_env;
     end_outside_numerals := end_outside_numerals sample_env;
     show_value := show_value sample_env;
     present := present sample_env |}.

(** A document with the given structural elements as its body. *)
Definition document_of (content : list json) : json :=
  JObj [("body", JObj [("content", JArr content)])].

(** A structural element that is no paragraph with elements (a table, a
    section break). *)
Definition no_paragraph (element : json) : bool :=
  match get "elements" (get "paragraph" element) with
  | JArr _ => false
  | _ => true
  end.

(** A replacement request, when the event is one, leaves the case of
    letters aside and looks for a text that is not empty. *)
Definition replaces_any_case (ev : event) : Prop :=
  match ev with
  | EvDocsBatchUpdate _ (ReplaceAllText search matchCase _) =>
      matchCase = false /\ search <> EmptyString
  | _ => True
  end.



(** The loop of [parse] over the items of an array, by name. *)
Fixpoint array_items (em : string -> bool) (element : Zod.schema) (p : list string)
         (i : nat) (xs : list json) : list Zod.issue * list json :=
  match xs with
  | [] => ([], [])
  | x :: rest =>
      let '(e1, v) := Zod.parse em element (p ++ [dec (Z.of_nat i)])%list x in
      let '(e2, vs) := array_items em element p (S i) rest in
      ((e1 ++ e2)%list, v :: vs)
  end.

(** The text of an address that passed the address check. *)
Definition checked_address (em : string -> bool) (v : json) : Prop :=
  exists s, v = JStr s /\ em s = true.

(** The time zone [create_calendar_event] works in, from the [timezone]
    argument: the argument when it is a non-empty text, the schema's
    default when it is left out, the client's default when it is the
    empty text. *)
Definition expected_zone (timezone : json) : string :=
  match timezone with
  | JStr s => if str_truthy s then s else "America/Los_Angeles"
  | _ => "Asia/Kolkata"
  end.

(** An invitation, when the event is one, that has a title, goes to
    checked addresses only, notifies guests exactly when there are
    guests, and asks for version 1 of the conference data exactly when
    it asks for a Meet link. *)
Definition well_formed_invitation (env : Env) (ev : event) : Prop :=
  match ev with
  | EvCalendarInsert r =>
      ei_calendarId r = "primary"
      /\ ei_summary r <> EmptyString
      /\ (forall guests a, ei_attendees r = Some guests -> In a guests ->
                           is_email env a = true)
      /\ ei_attendees r <> Some []
      /\ ei_sendUpdates r = (match ei_attendees r with Some _ => "all" | None => "none" end)
      /\ ei_conferenceDataVersion r
         = (match ei_conference_requestId r with Some _ => 1 | None => 0 end)%Z
  | _ => True
  end.

(** An invitation, when the event is one, whose start and end are in
    the given time zone. *)
Definition in_time_zone (zone : string) (ev : event) : Prop :=
  match ev with
  | EvCalendarInsert r => timeZone (ei_start r) = zone /\ timeZone (ei_end r) = zone
  | _ => True
  end.

(** The hour of the day a twelve-hour clock reading stands for. *)
Definition hour_of_day (isPM : bool) (hour : Z) : Z :=
  (hour mod 12 + (if isPM then 12 else 0))%Z.

(** A time of day on the twelve-hour clock, as text: "2:05 PM". *)
Definition twelve_hour_text (isPM : bool) (hm : Z * Z) : string :=
  dec (fst hm) ++ ":" ++ Meet.pad2 (snd hm) ++ (if isPM then " PM" else " AM").

(** What [parseDateTime] needs of a twelve-hour text, checked by running
    it: the pattern finds the text after the blank, the time is read as
    the hour of the day, and the text holds neither "T" nor "Z". *)
Definition twelve_hour_ok (isPM : bool) (hm : Z * Z) : bool :=
  if (Z.leb 1 (fst hm) && Z.leb (fst hm) 12)%bool then
    let text := twelve_hour_text isPM hm in
    match Re.time_after_blanks (" " ++ text) with
    | Some timePart => String.eqb timePart text
    | None => false
    end
    && (let '(hours, minutes) := Meet.parseTimePart text in
        Z.eqb hours (hour_of_day isPM (fst hm)) && Z.eqb minutes (snd hm))
    && negb (includes "T" (" " ++ text))
    && negb (includes "Z" (" " ++ text))
  else true.

(** The JSON type a schema asks for, whether or not the value may be
    left out. *)
Fixpoint schema_type (s : Zod.schema) : string :=
  match s with
  | Zod.ZString _ => "string"
  | Zod.ZNumber _ => "number"
  | Zod.ZBoolean => "boolean"
  | Zod.ZArray _ => "array"
  | Zod.ZOptional inner => schema_type inner
  | Zod.ZDefault inner _ => schema_type inner
  | Zod.ZObject _ => "object"
  end.

(** A schema that accepts a value that is left out. *)
Definition may_be_absent (s : Zod.schema) : bool :=
  match s with
  | Zod.ZOptional _ | Zod.ZDefault _ _ => true
  | _ => false
  end.

(** What the schema a tool validates against says of its arguments:
    their names and types in order, and the names that may not be left
    out. *)
Definition declared (t : tool) : list (string * string) * list string :=
  match schema_of t with
  | Some (Zod.ZObject shape) =>
      (map (fun ks => (fst ks, schema_type (snd ks))) shape,
       map fst (filter (fun ks => negb (may_be_absent (snd ks))) shape))
  | _ => ([], [])
  end.

(** A clock for the examples: the text of a number is that many
    milliseconds. *)
Definition sample_clock (s : string) : option Z :=
  if Re.all_digits s then Some (Re.parseInt s) else None.

(** The text of a validation failure as the specification words it: each
    issue as its path, joined by dots, a colon and its message; the
    issues joined by ", ". *)
Definition issues_text (issues : list Zod.issue) : string :=
  String.concat ", "
    (map (fun i => String.concat "." (Zod.path i) ++ ": " ++ Zod.message i) issues).

(* ===================================================================== *)
(** ** Validation *)
(* ===================================================================== *)

Section Validation.
Import Zod.
Variable em : string -> bool.

Lemma lookup_absent k fields : has_key k fields = false -> lookup k fields = JUndefined.
Proof.
  induction fields as [|[k' v] rest IH]; cbn; [reflexivity|].
  destruct (String.eqb k k'); [discriminate|exact IH].
Qed.

Lemma Qle_bool_false x y : (y < x)%Q -> Qle_bool x y = false.
Proof.
  intros H. destruct (Qle_bool x y) eqn:E; [|reflexivity].
  apply Qle_bool_iff in E. exfalso. exact (Qlt_not_le _ _ H E).
Qed.

Lemma parse_object shape p fields :
  parse em (ZObject shape) p (JObj fields)
  = let '(errs, out) := object_fields em p fields shape in (errs, JObj out).
Proof.
  cbn [parse].
  match goal with
  | |- (let '(_, _) := ?each shape in _) = _ =>
      assert (H : forall sh, each sh = object_fields em p fields sh)
  end.
  { induction sh as [|[k sk] rest IH]; [reflexivity|].
    cbn [object_fields]. rewrite <- IH. reflexivity. }
  rewrite H. reflexivity.
Qed.

(** The issues of an object are those of its fields, in shape order. *)
Lemma object_issues shape p fields :
  fst (parse em (ZObject shape) p (JObj fields))
  = flat_map (fun ks => fst (parse em (snd ks) (p ++ [fst ks]) (lookup (fst ks) fields)))
             shape.
Proof.
  rewrite parse_object.
  induction shape as [|[k sk] rest IH]; [reflexivity|].
  cbn [object_fields flat_map fst snd].
  destruct (parse em sk (p ++ [k])%list (lookup k fields)) as [e1 v].
  destruct (object_fields em p fields rest) as [e2 out].
  cbn [fst] in *. rewrite IH. reflexivity.
Qed.

Lemma flat_map_nonempty {A B} (f : A -> list B) (l : list A) (x : A) :
  In x l -> f x <> [] -> flat_map f l <> [].
Proof.
  induction l as [|y l IH]; cbn; [contradiction|].
  intros [->|Hin] Hne.
  - destruct (f x); [contradiction|discriminate].
  - destruct (f y); [eauto|discriminate].
Qed.

Lemma validateInput_thrown s input e es :
  fst (parse em s [] input) = e :: es ->
  Schemas.validateInput em s input
  = Thrown (JsError ("Invalid input: " ++ join ", " (map Schemas.format_issue (e :: es)))).
Proof.
  unfold Schemas.validateInput. destruct (parse em s [] input) as [errs data].
  cbn [fst]. intros ->. reflexivity.
Qed.

Lemma validateInput_fails s input :
  fst (parse em s [] input) <> [] ->
  exists msg, Schemas.validateInput em s input = Thrown (JsError msg).
Proof.
  destruct (fst (parse em s [] input)) as [|e es] eqn:E; [contradiction|].
  intros _. rewrite (validateInput_thrown _ _ _ _ E). eexists. reflexivity.
Qed.

(** A limit above the bound, below one, or not whole, raises an issue. *)
Lemma limit_rejected b p q :
  (inject_Z b < q)%Q \/ (q < inject_Z 1)%Q \/ is_integer q = false ->
  fst (parse em (limit_schema b) p (JNum q)) <> [].
Proof.
  intros H. cbn.
  destruct H as [H|[H|H]].
  - rewrite (Qle_bool_false _ _ H).
    destruct (is_integer q), (Qle_bool (inject_Z 1) q); cbn; discriminate.
  - rewrite (Qle_bool_false _ _ H).
    destruct (is_integer q); cbn; discriminate.
  - rewrite H. cbn. discriminate.
Qed.

(** A limit left out is replaced by ten, without any issue. *)
Lemma limit_defaulted b p :
  (10 <= b)%Z -> parse em (limit_schema b) p JUndefined = ([], Schemas.num 10).
Proof.
  intros H. cbn.
  assert (Hb : Qle_bool (inject_Z 10) (inject_Z b) = true)
    by (apply Qle_bool_iff; rewrite <- Zle_Qle; exact H).
  rewrite Hb. reflexivity.
Qed.

(** An object schema with a bounded [limit] field refuses an argument
    record whose [limit] breaks the bound. *)
Lemma limit_field_rejects shape b fields q :
  In ("limit", limit_schema b) shape ->
  lookup "limit" fields = JNum q ->
  (inject_Z b < q)%Q \/ (q < inject_Z 1)%Q \/ is_integer q = false ->
  exists msg, Schemas.validateInput em (z.object shape) (JObj fields) = Thrown (JsError msg).
Proof.
  intros Hin Hl Hq. apply validateInput_fails.
  unfold z.object. rewrite object_issues.
  apply (flat_map_nonempty _ _ _ Hin).
  cbn [fst snd]. rewrite Hl. apply limit_rejected. exact Hq.
Qed.

Lemma limit_only_defaults b fields :
  (10 <= b)%Z -> has_key "limit" fields = false ->
  Schemas.validateInput em (z.object [("limit", limit_schema b)]) (JObj fields)
  = Returned (JObj [("limit", Schemas.num 10)]).
Proof.
  intros Hb Hk. unfold Schemas.validateInput, z.object. cbn [parse].
  rewrite (lookup_absent _ _ Hk), limit_defaulted by exact Hb.
  rewrite Hk. reflexivity.
Qed.

Lemma query_limit_defaults b fields query :
  (10 <= b)%Z -> has_key "limit" fields = false ->
  lookup "query" fields = JStr query -> query <> EmptyString ->
  Schemas.validateInput em
    (z.object [("query", z.string |> z.min_length 1 "Search query is required");
               ("limit", limit_schema b)]) (JObj fields)
  = Returned (JObj [("query", JStr query); ("limit", Schemas.num 10)]).
Proof.
  intros Hb Hk Hq Hne. unfold Schemas.validateInput, z.object. cbn [parse].
  rewrite (lookup_absent _ _ Hk), limit_defaulted by exact Hb.
  rewrite Hq, Hk. cbn.
  destruct query as [|c rest]; [contradiction|]. cbn.
  rewrite orb_true_r. reflexivity.
Qed.

(** What validation lets through as [limit] is a whole number between one
    and the bound. *)
Lemma validated_limit_in_range b fields data :
  (10 <= b)%Z ->
  Schemas.validateInput em (z.object [("limit", limit_schema b)]) (JObj fields)
  = Returned data ->
  (1 <= to_Z (get "limit" data) <= b)%Z.
Proof.
  intros Hb. unfold Schemas.validateInput, z.object. rewrite parse_object.
  cbn [object_fields].
  destruct (lookup "limit" fields) as [| |x|q|x|x|x] eqn:El;
    try (cbn; intros H; discriminate H).
  - rewrite limit_defaulted by exact Hb.
    intros H. injection H as <-. cbn. rewrite orb_true_r. cbn. lia.
  - cbn [parse limit_schema z.default z.optional z.max z.min z.int z.number
             List.app flat_map number_issue].
    destruct (is_integer q) eqn:Ei; [|cbn; intros H; discriminate H].
    destruct (Qle_bool (inject_Z 1) q) eqn:E1; [|cbn; intros H; discriminate H].
    destruct (Qle_bool q (inject_Z b)) eqn:E2; [|cbn; intros H; discriminate H].
    cbn [List.app negb]. rewrite orb_true_r.
    intros H. injection H as <-.
    cbn [get lookup String.eqb Ascii.eqb Bool.eqb to_Z].
    apply Qle_bool_iff in E1, E2. unfold Qle in E1, E2. cbn in E1, E2.
    unfold is_integer in Ei. apply Z.eqb_eq in Ei.
    destruct q as [n d]. cbn [Qnum Qden] in *.
    pose proof (Z.div_mod n (Zpos d) ltac:(lia)) as Hdm. rewrite Ei in Hdm.
    assert (Hpos : (0 < Zpos d)%Z) by lia.
    split; nia.
Qed.

(** C4. For each of the seven tools whose schema bounds [limit]
    ([list_conferences], [list_upcoming_meetings], [list_past_meetings]
    up to 100; [list_emails], [search_emails], [list_docs], [search_docs]
    up to 50), an argument record whose [limit] is above the bound, below
    one or not a whole number fails validation, and an argument record
    without [limit] (and, for the two search tools, with a non-empty
    [query]) validates to a record whose [limit] is 10. *)
Theorem limit_bound_enforced_and_defaulted
        (t : tool) (b : Z) (s : schema) (fields : list (string * json)) :
  declared_limit_bound t = Some b ->
  schema_of t = Some s ->
  (forall q,
      lookup "limit" fields = JNum q ->
      (inject_Z b < q)%Q \/ (q < inject_Z 1)%Q \/ is_integer q = false ->
      exists msg, Schemas.validateInput em s (JObj fields) = Thrown (JsError msg))
  /\ (has_key "limit" fields = false ->
      other_arguments_ok t fields ->
      exists data,
        Schemas.validateInput em s (JObj fields) = Returned data
        /\ get "limit" data = Schemas.num 10).
Proof.
  intros Hb Hs.
  destruct t; cbn in Hb; try discriminate; injection Hb as <-;
    cbn in Hs; injection Hs as <-; split.
  all: try (intros q Hl Hq;
            refine (limit_field_rejects _ _ _ q _ Hl Hq); cbn; auto; fail).
  all: intros Hk Hok; cbn in Hok.
  all: lazymatch type of Hok with
       | True =>
           eexists; split; [ refine (limit_only_defaults _ _ _ Hk); lia | reflexivity ]
       | _ =>
           destruct Hok as [query [Hq Hne]];
           eexists; split;
           [ refine (query_limit_defaults _ _ query _ Hk Hq Hne); lia | reflexivity ]
       end.
Qed.

End Validation.

Lemma limit_bound_enforced_and_defaulted_witness :
  (exists msg,
      Schemas.validateInput (includes "@") Schemas.ListEmailsSchema
        (JObj [("limit", JNum (51 # 1)%Q)]) = Thrown (JsError msg))
  /\ (exists data,
         Schemas.validateInput (includes "@") Schemas.SearchEmailsSchema
           (JObj [("query", JStr "from:alice")]) = Returned data
         /\ get "limit" data = Schemas.num 10).
Proof.
  split.
  - refine (proj1 (limit_bound_enforced_and_defaulted (includes "@") list_emails 50
                     Schemas.ListEmailsSchema [("limit", JNum (51 # 1)%Q)]
                     eq_refl eq_refl) (51 # 1)%Q eq_refl _).
    left. reflexivity.
  - refine (proj2 (limit_bound_enforced_and_defaulted (includes "@") search_emails 50
                     Schemas.SearchEmailsSchema [("query", JStr "from:alice")]
                     eq_refl eq_refl) eq_refl _).
    exists "from:alice". split; [reflexivity|discriminate].
Defined.

(* ===================================================================== *)
(** ** The dispatcher: routing and the unauthenticated path *)
(* ===================================================================== *)

Lemma tool_of_name_tool_name (t : tool) :
  Handlers.tool_of_name (Handlers.tool_name t) = Some t.
Proof. destruct t; reflexivity. Qed.

Lemma handleToolCall_known (env : Env) (t : tool) (args : json) :
  Handlers.handleToolCall env (Handlers.tool_name t) args = Handlers.handler t env args.
Proof. unfold Handlers.handleToolCall. rewrite tool_of_name_tool_name. reflexivity. Qed.

Section Unauthenticated.
Variables (env : Env) (st : state).
Hypothesis no_credential : authInstance (cached st) = None.
Hypothesis no_source : Auth.isAuthenticated env = false.

Lemma ensureAuth_unauthenticated :
  Handlers.ensureAuth env st = (Thrown (JsError "NOT_AUTHENTICATED"), st).
Proof.
  unfold Handlers.ensureAuth, bind, read_cache.
  rewrite no_credential, no_source. reflexivity.
Qed.

Lemma withMeetAuth_unauthenticated handler :
  meetService (cached st) = None ->
  Handlers.withMeetAuth env handler st = (Returned NOT_AUTHENTICATED_RESPONSE, st).
Proof.
  intros Hs. unfold Handlers.withMeetAuth, try_catch, Handlers.getMeetService.
  unfold bind at 1 2. unfold read_cache at 1. rewrite Hs.
  unfold bind. rewrite ensureAuth_unauthenticated. reflexivity.
Qed.

Lemma withGmailAuth_unauthenticated handler :
  gmailService (cached st) = None ->
  Handlers.withGmailAuth env handler st = (Returned NOT_AUTHENTICATED_RESPONSE, st).
Proof.
  intros Hs. unfold Handlers.withGmailAuth, try_catch, Handlers.getGmailService.
  unfold bind at 1 2. unfold read_cache at 1. rewrite Hs.
  unfold bind. rewrite ensureAuth_unauthenticated. reflexivity.
Qed.

Lemma withDocsAuth_unauthenticated handler :
  docsService (cached st) = None ->
  Handlers.withDocsAuth env handler st = (Returned NOT_AUTHENTICATED_RESPONSE, st).
Proof.
  intros Hs. unfold Handlers.withDocsAuth, try_catch, Handlers.getDocsService.
  unfold bind at 1 2. unfold read_cache at 1. rewrite Hs.
  unfold bind. rewrite ensureAuth_unauthenticated. reflexivity.
Qed.

Lemma handler_unauthenticated (t : tool) (args : json) :
  cache_coherent (cached st) ->
  requires_auth t = true ->
  Handlers.handler t env args st = (Returned NOT_AUTHENTICATED_RESPONSE, st).
Proof.
  intros Hc Ht. destruct (Hc no_credential) as [Hm [Hg Hd]].
  destruct t; try discriminate Ht; cbn [Handlers.handler];
    first [ apply withMeetAuth_unauthenticated; exact Hm
          | apply withGmailAuth_unauthenticated; exact Hg
          | apply withDocsAuth_unauthenticated; exact Hd ].
Qed.

End Unauthenticated.

(* ===================================================================== *)
(** ** Who writes the cache *)
(* ===================================================================== *)

Create HintDb services.
#[local] Hint Unfold
  Meet.listConferenceRecords Meet.getConferenceRecord Meet.listParticipants
  Meet.listRecordings Meet.listTranscripts Meet.listTranscriptEntries
  Meet.createSpace Meet.listUpcomingMeetings Meet.listPastMeetings
  Meet.createCalendarEvent Meet.event_end
  Gmail.getProfile Gmail.getMessage Gmail.listMessages Gmail.getThread
  Gmail.listLabels Gmail.searchEmails Gmail.sendEmail Gmail.createDraft
  Gmail.trashMessage Gmail.markAsRead Gmail.markAsUnread
  Docs.getDocument Docs.appendText Docs.createDocument Docs.replaceText
  Docs.listDocuments Docs.searchDocuments Docs.getDocumentText
  Handlers.validateInput failing_as call : services.

Lemma stable_ret {A} (a : A) : stable (ret a).
Proof. intros st. reflexivity. Qed.

Lemma stable_throw {A} (e : exn) : stable (@throw A e).
Proof. intros st. reflexivity. Qed.

Lemma stable_lift {A} (o : outcome A) : stable (lift o).
Proof. intros st. reflexivity. Qed.

Lemma stable_log (ev : event) : stable (log ev).
Proof. intros st. reflexivity. Qed.

Lemma stable_bind {A B} (m : M A) (k : A -> M B) :
  stable m -> (forall a, stable (k a)) -> stable (bind m k).
Proof.
  intros Hm Hk st. unfold bind. specialize (Hm st).
  destruct (m st) as [[a|e] st1]; cbn [snd] in *; [rewrite Hk|]; exact Hm.
Qed.

Lemma stable_try_catch {A} (m : M A) (h : exn -> M A) :
  stable m -> (forall e, stable (h e)) -> stable (try_catch m h).
Proof.
  intros Hm Hh st. unfold try_catch. specialize (Hm st).
  destruct (m st) as [[a|e] st1]; cbn [snd] in *; [|rewrite Hh]; exact Hm.
Qed.

Lemma stable_promise_all {A B} (f : B -> M A) (l : list B) :
  (forall b, stable (f b)) -> stable (Gmail.promise_all (map f l)).
Proof.
  intros Hf. induction l as [|b l IH]; intros st; [reflexivity|].
  cbn [map Gmail.promise_all]. specialize (Hf b st).
  destruct (f b st) as [[a|e] st1]; cbn [snd] in *.
  - specialize (IH st1).
    destruct (Gmail.promise_all (map f l) st1) as [[r|e] st2]; cbn [snd] in *; congruence.
  - rewrite IH. exact Hf.
Qed.

Ltac stable_step :=
  first [ apply stable_ret | apply stable_throw | apply stable_lift | apply stable_log
        | apply stable_promise_all | apply stable_try_catch | apply stable_bind ].

Ltac stable_tac :=
  repeat (intros; cbv zeta;
          first [ stable_step
                | progress autounfold with services
                | match goal with
                  | |- stable (if ?c then _ else _) => destruct c
                  | |- stable (match ?x with _ => _ end) => destruct x
                  end ]).

Lemma authenticate_stable (env : Env) : stable (Auth.authenticate env).
Proof. unfold Auth.authenticate. stable_tac. Qed.

Lemma on_auth_error_stable (e : exn) : stable (Handlers.on_auth_error e).
Proof. unfold Handlers.on_auth_error. stable_tac. Qed.

Lemma on_auth_error_state (e : exn) (st : state) :
  snd (Handlers.on_auth_error e st) = st.
Proof.
  unfold Handlers.on_auth_error. destruct (Handlers.is_not_authenticated e); reflexivity.
Qed.

Section Coherence.
Variable env : Env.

(** After [ensureAuth] a credential is cached and no client has changed;
    when it throws nothing has changed. *)
Lemma ensureAuth_effect (st : state) :
  match Handlers.ensureAuth env st with
  | (Returned a, st') =>
      authInstance (cached st') = Some a
      /\ meetService (cached st') = meetService (cached st)
      /\ gmailService (cached st') = gmailService (cached st)
      /\ docsService (cached st') = docsService (cached st)
  | (Thrown _, st') => cached st' = cached st
  end.
Proof.
  unfold Handlers.ensureAuth, bind at 1, read_cache.
  destruct (authInstance (cached st)) as [a|] eqn:Ha; [cbn; auto|].
  destruct (Auth.isAuthenticated env); [|reflexivity].
  unfold bind at 1. pose proof (authenticate_stable env st) as Hs.
  destruct (Auth.authenticate env st) as [[a|e] st1]; cbn [snd] in Hs; [|exact Hs].
  cbn. rewrite Hs. auto.
Qed.

Lemma getMeetService_coherent : keeps_coherent (Handlers.getMeetService env).
Proof.
  intros st Hc. unfold Handlers.getMeetService, bind at 1, read_cache.
  destruct (meetService (cached st)) as [s|] eqn:Hs; [exact Hc|].
  unfold bind at 1. pose proof (ensureAuth_effect st) as He.
  destruct (Handlers.ensureAuth env st) as [[a|e] st1]; cbn [snd].
  - destruct He as [Ha _]. cbn. intros Hn. cbn in Hn. congruence.
  - rewrite He. exact Hc.
Qed.

Lemma getGmailService_coherent : keeps_coherent (Handlers.getGmailService env).
Proof.
  intros st Hc. unfold Handlers.getGmailService, bind at 1, read_cache.
  destruct (gmailService (cached st)) as [s|] eqn:Hs; [exact Hc|].
  unfold bind at 1. pose proof (ensureAuth_effect st) as He.
  destruct (Handlers.ensureAuth env st) as [[a|e] st1]; cbn [snd].
  - destruct He as [Ha _]. cbn. intros Hn. cbn in Hn. congruence.
  - rewrite He. exact Hc.
Qed.

Lemma getDocsService_coherent : keeps_coherent (Handlers.getDocsService env).
Proof.
  intros st Hc. unfold Handlers.getDocsService, bind at 1, read_cache.
  destruct (docsService (cached st)) as [s|] eqn:Hs; [exact Hc|].
  unfold bind at 1. pose proof (ensureAuth_effect st) as He.
  destruct (Handlers.ensureAuth env st) as [[a|e] st1]; cbn [snd].
  - destruct He as [Ha _]. cbn. intros Hn. cbn in Hn. congruence.
  - rewrite He. exact Hc.
Qed.

(** A wrapper keeps the cache coherent when the wrapped handler does not
    write it. *)
Lemma wrapped_coherent {S} (getService : M S) (handler : S -> M ToolResponse) :
  keeps_coherent getService ->
  (forall service, stable (handler service)) ->
  keeps_coherent (try_catch (service <- getService ;; handler service)
                            Handlers.on_auth_error).
Proof.
  intros Hg Hh st Hc. unfold try_catch, bind. specialize (Hg st Hc).
  destruct (getService st) as [[service|e] st1]; cbn [snd] in Hg.
  - pose proof (Hh service st1) as H1.
    destruct (handler service st1) as [[r|e] st2]; cbn [snd] in *.
    + rewrite H1. exact Hg.
    + rewrite on_auth_error_stable, H1. exact Hg.
  - rewrite on_auth_error_stable. exact Hg.
Qed.

Lemma handleAuthenticate_coherent : keeps_coherent (Handlers.handleAuthenticate env).
Proof.
  intros st Hc. unfold Handlers.handleAuthenticate, try_catch, bind at 1.
  pose proof (authenticate_stable env st) as Hs.
  destruct (Auth.authenticate env st) as [[a|e] st1]; cbn [snd] in Hs.
  - cbn. intros Hn. discriminate Hn.
  - cbn. rewrite Hs. exact Hc.
Qed.

End Coherence.

Create HintDb handlers.
#[local] Hint Unfold
  Handlers.handleListConferences Handlers.handleGetConference
  Handlers.handleListParticipants Handlers.handleListRecordings
  Handlers.handleListTranscripts Handlers.handleGetTranscriptText
  Handlers.handleCreateMeeting Handlers.handleListUpcomingMeetings
  Handlers.handleListPastMeetings Handlers.handleSummarizeTranscript
  Handlers.handleCreateCalendarEvent
  Handlers.handleGmailProfile Handlers.handleListEmails Handlers.handleSearchEmails
  Handlers.handleGetEmail Handlers.handleGetThread Handlers.handleSendEmail
  Handlers.handleCreateDraft Handlers.handleListLabels Handlers.handleTrashEmail
  Handlers.handleMarkAsRead Handlers.handleMarkAsUnread
  Handlers.handleListDocs Handlers.handleSearchDocs Handlers.handleGetDoc
  Handlers.handleCreateDoc Handlers.handleAppendToDoc Handlers.handleReplaceInDoc
  Handlers.withMeetAuth Handlers.withGmailAuth Handlers.withDocsAuth : handlers.

Lemma stable_keeps_coherent {A} (m : M A) : stable m -> keeps_coherent m.
Proof. intros Hs st Hc. rewrite Hs. exact Hc. Qed.

Lemma handler_coherent (t : tool) (env : Env) (args : json) :
  keeps_coherent (Handlers.handler t env args).
Proof.
  destruct t; cbn [Handlers.handler].
  1: apply stable_keeps_coherent; unfold Handlers.handleAuthStatus; stable_tac.
  1: apply handleAuthenticate_coherent.
  all: autounfold with handlers.
  all: first
         [ apply wrapped_coherent; [apply getMeetService_coherent|]
         | apply wrapped_coherent; [apply getGmailService_coherent|]
         | apply wrapped_coherent; [apply getDocsService_coherent|] ].
  all: stable_tac.
Qed.

Lemma callTool_coherent (env : Env) (name : string) (args : json) (st : state) :
  cache_coherent (cached st) ->
  cache_coherent (cached (snd (Index.callTool env name args st))).
Proof.
  intros Hc. unfold Index.callTool, Handlers.handleToolCall.
  destruct (Handlers.tool_of_name name) as [t|]; [|exact Hc].
  pose proof (handler_coherent t env args st Hc) as H.
  destruct (Handlers.handler t env args st) as [[r|e] st1]; exact H.
Qed.

(** In every state the process can reach, a cached client comes with a
    cached credential. *)
Lemma reachable_coherent (st : state) : reachable st -> cache_coherent (cached st).
Proof.
  induction 1 as [|env name args st _ IH].
  - intros _. cbn. auto.
  - apply callTool_coherent. exact IH.
Qed.

(** C1. In any state the process can reach, when no credential is cached
    and [isAuthenticated()] is false, every tool but [auth_status] and
    [authenticate] answers with the fixed not-authenticated envelope (one
    text segment, error flag set), whatever the tool and its arguments;
    the state, and with it the trace, is left as it was, so neither a
    validation nor an API call is attempted. *)
Theorem unauthenticated_call_short_circuits
        (env : Env) (st : state) (t : tool) (args : json) :
  reachable st ->
  authInstance (cached st) = None ->
  Auth.isAuthenticated env = false ->
  requires_auth t = true ->
  Handlers.handleToolCall env (Handlers.tool_name t) args st
  = (Returned NOT_AUTHENTICATED_RESPONSE, st)
  /\ Index.callTool env (Handlers.tool_name t) args st = (NOT_AUTHENTICATED_RESPONSE, st)
  /\ NOT_AUTHENTICATED_RESPONSE
     = {| content := [{| type := "text";
                         text := "❌ Not authenticated. Please use the 'authenticate' tool first." |}];
          isError := Some true |}.
Proof.
  intros Hr Ha Hn Ht.
  assert (H : Handlers.handleToolCall env (Handlers.tool_name t) args st
              = (Returned NOT_AUTHENTICATED_RESPONSE, st)).
  { rewrite handleToolCall_known.
    apply handler_unauthenticated; auto using reachable_coherent. }
  split; [exact H|]. split; [|reflexivity].
  unfold Index.callTool. rewrite H. reflexivity.
Qed.

Lemma unauthenticated_call_short_circuits_witness :
  Handlers.handleToolCall sample_env "send_email" (JObj [("to", JStr "not-an-email")])
                          initial_state
  = (Returned NOT_AUTHENTICATED_RESPONSE, initial_state).
Proof.
  exact (proj1 (unauthenticated_call_short_circuits
                  sample_env initial_state send_email (JObj [("to", JStr "not-an-email")])
                  reachable_initial eq_refl eq_refl eq_refl)).
Defined.

(* ===================================================================== *)
(** ** What a handler validates against *)
(* ===================================================================== *)

Lemma appends_ret {A} (a : A) : appends (ret a).
Proof. intros st. exists []. cbn. rewrite app_nil_r. reflexivity. Qed.

Lemma appends_throw {A} (e : exn) : appends (@throw A e).
Proof. intros st. exists []. cbn. rewrite app_nil_r. reflexivity. Qed.

Lemma appends_lift {A} (o : outcome A) : appends (lift o).
Proof. intros st. exists []. cbn. rewrite app_nil_r. reflexivity. Qed.

Lemma appends_log (ev : event) : appends (log ev).
Proof. intros st. exists [ev]. reflexivity. Qed.

Lemma appends_bind {A B} (m : M A) (k : A -> M B) :
  appends m -> (forall a, appends (k a)) -> appends (bind m k).
Proof.
  intros Hm Hk st. unfold bind. destruct (Hm st) as [more1 H1].
  destruct (m st) as [[a|e] st1]; cbn [snd] in *; [|exists more1; exact H1].
  destruct (Hk a st1) as [more2 H2]. exists (more1 ++ more2)%list.
  rewrite H2, H1, app_assoc. reflexivity.
Qed.

Lemma appends_try_catch {A} (m : M A) (h : exn -> M A) :
  appends m -> (forall e, appends (h e)) -> appends (try_catch m h).
Proof.
  intros Hm Hh st. unfold try_catch. destruct (Hm st) as [more1 H1].
  destruct (m st) as [[a|e] st1]; cbn [snd] in *; [exists more1; exact H1|].
  destruct (Hh e st1) as [more2 H2]. exists (more1 ++ more2)%list.
  rewrite H2, H1, app_assoc. reflexivity.
Qed.

Lemma appends_promise_all {A B} (f : B -> M A) (l : list B) :
  (forall b, appends (f b)) -> appends (Gmail.promise_all (map f l)).
Proof.
  intros Hf. induction l as [|b l IH]; intros st; [apply appends_ret|].
  cbn [map Gmail.promise_all]. destruct (Hf b st) as [more1 H1].
  destruct (f b st) as [[a|e] st1]; cbn [snd] in H1;
    destruct (IH st1) as [more2 H2]; exists (more1 ++ more2)%list.
  - destruct (Gmail.promise_all (map f l) st1) as [[r|e] st2]; cbn [snd] in *;
      rewrite H2, H1, app_assoc; reflexivity.
  - cbn [snd]. rewrite H2, H1, app_assoc. reflexivity.
Qed.

Ltac appends_tac :=
  repeat (intros; cbv zeta;
          first [ apply appends_ret | apply appends_throw | apply appends_lift
                | apply appends_log | apply appends_promise_all
                | apply appends_try_catch | apply appends_bind
                | progress autounfold with services
                | match goal with
                  | |- appends (if ?c then _ else _) => destruct c
                  | |- appends (match ?x with _ => _ end) => destruct x
                  end ]).

(** Behind a wrapper whose client is at hand, a handler that starts by
    validating records that validation before anything else. *)
Lemma validates_first (env : Env) (s : Zod.schema) (args : json)
      (k : json -> M ToolResponse) (st : state) :
  (forall data, appends (k data)) ->
  exists more,
    trace (snd (try_catch (data <- Handlers.validateInput env s args ;; k data)
                          Handlers.on_auth_error st))
    = (trace st ++ EvValidate s args :: more)%list.
Proof.
  intros Hk. unfold try_catch, bind at 1, Handlers.validateInput, bind at 1, log, lift.
  destruct (Schemas.validateInput (is_email env) s args) as [data|e].
  - destruct (Hk data {| cached := cached st;
                         trace := (trace st ++ [EvValidate s args])%list |})
      as [more Hm].
    exists more.
    destruct (k data _) as [[r|e] st2]; cbn [snd trace] in *;
      rewrite ?on_auth_error_state, Hm, <- app_assoc; reflexivity.
  - exists []. rewrite on_auth_error_state. reflexivity.
Qed.

Lemma try_catch_after {A B} (m : M A) (h : A -> M B) (c : exn -> M B)
      (a : A) (st : state) :
  m st = (Returned a, st) ->
  try_catch (x <- m ;; h x) c st = try_catch (h a) c st.
Proof. intros E. unfold try_catch, bind. rewrite E. reflexivity. Qed.

Lemma getMeetService_cached (env : Env) (st : state) (service : GoogleMeetService) :
  meetService (cached st) = Some service ->
  Handlers.getMeetService env st = (Returned service, st).
Proof.
  intros E. unfold Handlers.getMeetService, bind, read_cache. rewrite E. reflexivity.
Qed.

Lemma getGmailService_cached (env : Env) (st : state) (service : GmailService) :
  gmailService (cached st) = Some service ->
  Handlers.getGmailService env st = (Returned service, st).
Proof.
  intros E. unfold Handlers.getGmailService, bind, read_cache. rewrite E. reflexivity.
Qed.

Lemma getDocsService_cached (env : Env) (st : state) (service : GoogleDocsService) :
  docsService (cached st) = Some service ->
  Handlers.getDocsService env st = (Returned service, st).
Proof.
  intros E. unfold Handlers.getDocsService, bind, read_cache. rewrite E. reflexivity.
Qed.

(** Each tool that takes arguments validates them against the schema
    [schema_of] names, before it does anything else with its client. *)
Lemma handler_validates_against_schema
      (t : tool) (s : Zod.schema) (env : Env) (args : json) (st : state) :
  schema_of t = Some s ->
  client_cached t (cached st) = true ->
  exists more,
    trace (snd (Handlers.handler t env args st))
    = (trace st ++ EvValidate s args :: more)%list.
Proof.
  intros Hs Hc. unfold client_cached in Hc.
  destruct t; cbn in Hs; try discriminate Hs; injection Hs as <-;
    cbn [client_of] in Hc; cbn [Handlers.handler]; autounfold with handlers.
  all: first
         [ destruct (meetService (cached st)) as [service|] eqn:E; [|discriminate Hc];
           rewrite (try_catch_after _ _ _ _ _ (getMeetService_cached env st service E))
         | destruct (gmailService (cached st)) as [service|] eqn:E; [|discriminate Hc];
           rewrite (try_catch_after _ _ _ _ _ (getGmailService_cached env st service E))
         | destruct (docsService (cached st)) as [service|] eqn:E; [|discriminate Hc];
           rewrite (try_catch_after _ _ _ _ _ (getDocsService_cached env st service E)) ].
  all: apply validates_first; appends_tac.
Qed.

(* ===================================================================== *)
(** ** Every answer is one whole envelope *)
(* ===================================================================== *)











(* ===================================================================== *)
(** ** The two auth tools *)
(* ===================================================================== *)

(** C8. [auth_status] answers with the status text [getAuthStatus] reads
    off the credentials file and the token file, and changes nothing: two
    calls, in whatever states of the process and whatever else the world
    does, give the same envelope as long as the two files are the same
    (and the engine prints values the same way). *)
Theorem auth_status_idempotent
        (env1 env2 : Env) (args1 args2 : json) (st1 st2 : state) :
  credentials env1 = credentials env2 ->
  token_exists env1 = token_exists env2 ->
  show_value env1 = show_value env2 ->
  Index.callTool env1 "auth_status" args1 st1
  = (createSuccessResponse (Auth.getAuthStatus env1), st1)
  /\ Index.callTool env2 "auth_status" args2 st2
     = (createSuccessResponse (Auth.getAuthStatus env1), st2).
Proof.
  intros Hc Ht Hs. split; [reflexivity|].
  assert (E : Auth.getAuthStatus env2 = Auth.getAuthStatus env1).
  { unfold Auth.getAuthStatus, interpolate. rewrite Hc, Ht, Hs. reflexivity. }
  rewrite <- E. reflexivity.
Qed.

Lemma auth_status_idempotent_witness :
  fst (Index.callTool sample_env "auth_status" JUndefined initial_state)
  = fst (Index.callTool sample_env "auth_status" (JObj []) signed_in).
Proof.
  destruct (auth_status_idempotent sample_env sample_env JUndefined (JObj [])
              initial_state signed_in eq_refl eq_refl eq_refl) as [H1 H2].
  rewrite H1, H2. reflexivity.
Defined.

(** The other half: a successful exchange replaces the credential and
    the three clients together. *)
Lemma authenticate_success_replaces_cache
      (env : Env) (args : json) (st st1 : state) (a : GoogleAuth) :
  Auth.authenticate env st = (Returned a, st1) ->
  exists r st2,
    Handlers.handleToolCall env "authenticate" args st = (Returned r, st2)
    /\ isError r = None
    /\ cached st2 = {| authInstance := Some a;
                       meetService := Some {| meet_auth := a |};
                       gmailService := Some {| gmail_auth := a |};
                       docsService := Some {| docs_auth := a |} |}.
Proof.
  intros E.
  change (Handlers.handleToolCall env "authenticate" args st)
    with (Handlers.handleAuthenticate env st).
  unfold Handlers.handleAuthenticate, try_catch, bind at 1. rewrite E.
  cbn. eexists. eexists. split; [reflexivity|]. split; reflexivity.
Qed.

(** C9. When [authenticate()] throws, the [authenticate] tool returns the
    error envelope (one text segment, error flag set) whose text is
    "❌ Authentication failed: " followed by the message of what was
    thrown, nothing escapes, and the cached credential and the three
    clients are what they were; when [authenticate()] returns a
    credential, the tool answers without the error flag and the
    credential and the three clients built from it replace what was
    cached: the replacement happens only on a successful exchange. *)
Theorem authenticate_failure_keeps_cache (env : Env) (args : json) (st : state) :
  match Auth.authenticate env st with
  | (Thrown e, st1) =>
      Handlers.handleToolCall env "authenticate" args st
      = (Returned {| content := [{| type := "text";
                                    text := "❌ Authentication failed: " ++ exn_message e |}];
                     isError := Some true |}, st1)
      /\ cached st1 = cached st
  | (Returned a, st1) =>
      exists r st2,
        Handlers.handleToolCall env "authenticate" args st = (Returned r, st2)
        /\ isError r = None
        /\ cached st2 = {| authInstance := Some a;
                           meetService := Some {| meet_auth := a |};
                           gmailService := Some {| gmail_auth := a |};
                           docsService := Some {| docs_auth := a |} |}
  end.
Proof.
  destruct (Auth.authenticate env st) as [[a|e] st1] eqn:E.
  - exact (authenticate_success_replaces_cache env args st st1 a E).
  - split.
    + change (Handlers.handleToolCall env "authenticate" args st)
        with (Handlers.handleAuthenticate env st).
      unfold Handlers.handleAuthenticate, try_catch, bind at 1. rewrite E. reflexivity.
    + pose proof (authenticate_stable env st) as Hs. rewrite E in Hs. exact Hs.
Qed.

Lemma authenticate_failure_keeps_cache_witness :
  Handlers.handleToolCall expired_env "authenticate" JUndefined signed_in
  = (Returned {| content := [{| type := "text";
                                text := "❌ Authentication failed: invalid_grant" |}];
                 isError := Some true |},
     {| cached := cached signed_in; trace := [EvAuthenticate] |})
  /\ cached signed_in
     = {| authInstance := Some sample_auth;
          meetService := Some {| meet_auth := sample_auth |};
          gmailService := Some {| gmail_auth := sample_auth |};
          docsService := Some {| docs_auth := sample_auth |} |}.
Proof.
  split; [|reflexivity].
  exact (proj1 (authenticate_failure_keeps_cache expired_env JUndefined signed_in)).
Defined.


(* ===================================================================== *)
(** ** [send_email] with a recipient that is no e-mail address *)
(* ===================================================================== *)

Lemma join_cons (sep x : string) (l : list string) :
  exists tail, join sep (x :: l) = x ++ tail.
Proof.
  destruct l as [|y l]; cbn [join].
  - exists EmptyString. clear. induction x as [|c x IH]; cbn; congruence.
  - eexists. reflexivity.
Qed.

Lemma append_assoc (a b c : string) : (a ++ b) ++ c = a ++ (b ++ c).
Proof. induction a as [|x a IH]; cbn; congruence. Qed.

(** Obtaining the mail client records at most the call of
    [authenticate()]. *)
Lemma getGmailService_trace (env : Env) (st st1 : state) (o : outcome GmailService) :
  Handlers.getGmailService env st = (o, st1) ->
  trace st1 = trace st \/ trace st1 = (trace st ++ [EvAuthenticate])%list.
Proof.
  unfold Handlers.getGmailService, bind at 1, read_cache.
  destruct (gmailService (cached st)); [intros H; injection H as _ <-; auto|].
  unfold bind at 1, Handlers.ensureAuth, bind at 1, read_cache.
  destruct (authInstance (cached st)); [cbn; intros H; injection H as _ <-; auto|].
  destruct (Auth.isAuthenticated env); [|cbn; intros H; injection H as _ <-; auto].
  unfold bind at 1, Auth.authenticate, bind at 1, log.
  destruct (credentials env) as [|e|j]; cbn.
  - intros H; injection H as _ <-; auto.
  - intros H; injection H as _ <-; auto.
  - destruct (Auth.getCredentialType j); cbn.
    + destruct (service_account_auth env j); cbn; intros H; injection H as _ <-; auto.
    + destruct (oauth_exchange env j); cbn; intros H; injection H as _ <-; auto.
Qed.

(** The first issue zod reports for such a record is the one on [to]. *)
Lemma send_email_recipient_issue (em : string -> bool) (fields : list (string * json)) :
  not_an_email_address em (lookup "to" fields) ->
  exists es,
    fst (Zod.parse em Schemas.SendEmailSchema [] (JObj fields))
    = {| Zod.path := ["to"]; Zod.message := recipient_issue (lookup "to" fields) |} :: es.
Proof.
  intros He. unfold Schemas.SendEmailSchema, z.object.
  rewrite object_issues. cbn [flat_map fst snd List.app].
  destruct (lookup "to" fields) as [| |b|q|recipient|items|inner];
    cbn [Zod.parse z.email z.string List.app flat_map Zod.string_issue fst
         Zod.invalid_type recipient_issue];
    cbn in He; rewrite ?He; cbn [List.app]; eexists; reflexivity.
Qed.

(** C5. With the mail client available, [send_email] on an argument
    record whose [to] is not the text of an e-mail address (a text zod's
    check refuses, such as "not-an-email"; or no text at all) ends in an
    error envelope (one text segment, error flag set) whose text is
    "Error: Invalid input: " and the aggregated validation message,
    beginning with the issue on [to]; after the client was obtained the
    only thing recorded is the validation attempt, so [messages.send] is
    not called. *)
Theorem send_email_invalid_recipient
        (env : Env) (st st1 : state) (service : GmailService)
        (fields : list (string * json)) :
  Handlers.getGmailService env st = (Returned service, st1) ->
  not_an_email_address (is_email env) (lookup "to" fields) ->
  exists rest st',
    Index.callTool env "send_email" (JObj fields) st
    = ({| content :=
            [{| type := "text";
                text := "Error: Invalid input: to: "
                        ++ recipient_issue (lookup "to" fields) ++ rest |}];
          isError := Some true |}, st')
    /\ cached st' = cached st1
    /\ trace st' = (trace st1 ++ [EvValidate Schemas.SendEmailSchema (JObj fields)])%list
    /\ forall raw, In (EvGmailMessagesSend raw) (trace st') ->
                   In (EvGmailMessagesSend raw) (trace st).
Proof.
  intros Hg He.
  destruct (send_email_recipient_issue (is_email env) fields He) as [es Hes].
  pose proof (validateInput_thrown (is_email env) _ _ _ _ Hes) as Hv.
  destruct (join_cons ", " ("to: " ++ recipient_issue (lookup "to" fields))
                      (map Schemas.format_issue es)) as [tail Ht].
  exists tail. eexists. split; [|split; [|split]].
  - unfold Index.callTool.
    change (Handlers.handleToolCall env "send_email" (JObj fields) st)
      with (Handlers.handleSendEmail env (JObj fields) st).
    unfold Handlers.handleSendEmail, Handlers.withGmailAuth, try_catch.
    unfold bind at 1. rewrite Hg.
    unfold bind at 1, Handlers.validateInput, bind at 1, log, lift.
    rewrite Hv. cbn [map] in Ht |- *.
    change (Schemas.format_issue
              {| Zod.path := ["to"];
                 Zod.message := recipient_issue (lookup "to" fields) |})
      with ("to: " ++ recipient_issue (lookup "to" fields)).
    rewrite Ht, append_assoc. cbn. reflexivity.
  - reflexivity.
  - reflexivity.
  - cbn [trace]. intros raw Hin. apply in_app_or in Hin.
    destruct Hin as [Hin|[Hin|[]]]; [|discriminate Hin].
    destruct (getGmailService_trace _ _ _ _ Hg) as [E|E]; rewrite E in Hin; [exact Hin|].
    apply in_app_or in Hin. destruct Hin as [Hin|[Hin|[]]]; [exact Hin|discriminate Hin].
Qed.

Lemma send_email_invalid_recipient_witness :
  exists rest st',
    Index.callTool sample_env "send_email"
      (JObj [("to", JStr "not-an-email"); ("subject", JStr "Hi"); ("body", JStr "Hello")])
      signed_in
    = ({| content :=
            [{| type := "text";
                text := "Error: Invalid input: to: Valid email address required" ++ rest |}];
          isError := Some true |}, st')
    /\ forall raw, ~ In (EvGmailMessagesSend raw) (trace st').
Proof.
  destruct (send_email_invalid_recipient sample_env signed_in signed_in
              {| gmail_auth := sample_auth |}
              [("to", JStr "not-an-email"); ("subject", JStr "Hi"); ("body", JStr "Hello")]
              eq_refl eq_refl)
    as [rest [st' [H [_ [_ Hno]]]]].
  exists rest, st'. split; [exact H|].
  intros raw Hin. exact (Hno raw Hin).
Defined.

(* ===================================================================== *)
(** ** Calendar listings *)
(* ===================================================================== *)

Lemma isMeetEvent_criterion (event : json) :
  Meet.isMeetEvent event = true
  <-> get "name" (get "conferenceSolution" (get "conferenceData" event)) = JStr "Google Meet"
      \/ truthy (get "hangoutLink" event) = true.
Proof.
  unfold Meet.isMeetEvent. rewrite orb_true_iff.
  split; intros [H|H]; auto; left.
  - destruct (get "name" _) as [| | | |name| |]; try discriminate H.
    apply String.eqb_eq in H. subst name. reflexivity.
  - rewrite H. reflexivity.
Qed.

Lemma filter_keeps_exactly (events : list json) :
  keeps_exactly meet_backed events (filter Meet.isMeetEvent events).
Proof.
  induction events as [|event events IH]; [constructor|].
  cbn [filter]. destruct (Meet.isMeetEvent event) eqn:E.
  - apply keeps_this; [apply isMeetEvent_criterion; exact E|exact IH].
  - apply keeps_skip; [|exact IH].
    intros H. apply isMeetEvent_criterion in H. congruence.
Qed.

Lemma keeps_exactly_unique {A} (P : A -> Prop) (items kept kept' : list A) :
  keeps_exactly P items kept -> keeps_exactly P items kept' -> kept = kept'.
Proof.
  intros H. revert kept'. induction H as [|x items kept Hx _ IH|x items kept Hx _ IH];
    intros kept' H'; inversion H'; subst; try contradiction; auto.
  f_equal. auto.
Qed.

Lemma keeps_exactly_all {A} (P : A -> Prop) (items kept : list A) :
  keeps_exactly P items kept -> Forall P kept.
Proof. induction 1; auto. Qed.

Lemma in_firstn {A} (k : nat) (l : list A) (x : A) : In x (firstn k l) -> In x l.
Proof.
  revert l. induction k as [|k IH]; intros [|y l]; cbn; try contradiction.
  intros [H|H]; [left; exact H|right; exact (IH _ H)].
Qed.

Lemma first_of_kept {A} (P : A -> Prop) (n : Z) (items kept : list A) :
  (0 <= n)%Z ->
  keeps_exactly P items kept ->
  (Z.of_nat (length (firstn (Z.to_nat n) kept)) <= n)%Z
  /\ Forall P (firstn (Z.to_nat n) kept).
Proof.
  intros Hn Hk. split.
  - pose proof (firstn_le_length (Z.to_nat n) kept). lia.
  - apply Forall_forall. intros x Hin. apply in_firstn in Hin.
    revert x Hin. apply Forall_forall. exact (keeps_exactly_all P items kept Hk).
Qed.

(** C3. For a limit [n >= 0] (validation only lets 1..100 through) and
    whatever list the calendar returns, [listUpcomingMeetings(n)] and
    [listPastMeetings(n)] ask the calendar for [2 * n] events, keep
    exactly the events whose conference solution is named "Google Meet"
    or whose [hangoutLink] is truthy, in the order received, and return
    the first [n] of them: never more than [n] events, each of them
    Meet-backed. *)
Theorem meet_listings_filter_and_truncate
        (env : Env) (n : Z) (st : state) (upcoming past : option (list json)) :
  (0 <= n)%Z ->
  calendar_events_list env (Meet.upcoming_request env n) = Returned upcoming ->
  calendar_events_list env (Meet.past_request env n) = Returned past ->
  exists kept_upcoming kept_past,
    keeps_exactly meet_backed (events_received upcoming) kept_upcoming
    /\ keeps_exactly meet_backed (events_received past) kept_past
    /\ Meet.listUpcomingMeetings env n st
       = (Returned (firstn (Z.to_nat n) kept_upcoming),
          {| cached := cached st;
             trace := (trace st ++ [EvCalendarList (Meet.upcoming_request env n)])%list |})
    /\ Meet.listPastMeetings env n st
       = (Returned (firstn (Z.to_nat n) kept_past),
          {| cached := cached st;
             trace := (trace st ++ [EvCalendarList (Meet.past_request env n)])%list |})
    /\ el_maxResults (Meet.upcoming_request env n) = (2 * n)%Z
    /\ el_maxResults (Meet.past_request env n) = (2 * n)%Z
    /\ (Z.of_nat (length (firstn (Z.to_nat n) kept_upcoming)) <= n)%Z
    /\ Forall meet_backed (firstn (Z.to_nat n) kept_upcoming)
    /\ (Z.of_nat (length (firstn (Z.to_nat n) kept_past)) <= n)%Z
    /\ Forall meet_backed (firstn (Z.to_nat n) kept_past).
Proof.
  intros Hn Hu Hp.
  assert (Hs : forall A (l : list A), Meet.slice0 n l = firstn (Z.to_nat n) l).
  { intros A l. unfold Meet.slice0. apply Z.leb_le in Hn. rewrite Hn. reflexivity. }
  pose proof (filter_keeps_exactly (events_received upcoming)) as Ku.
  pose proof (filter_keeps_exactly (events_received past)) as Kp.
  destruct (first_of_kept meet_backed n _ _ Hn Ku) as [Lu Fu].
  destruct (first_of_kept meet_backed n _ _ Hn Kp) as [Lp Fp].
  exists (filter Meet.isMeetEvent (events_received upcoming)),
         (filter Meet.isMeetEvent (events_received past)).
  repeat (split; [assumption|]).
  split; [|split; [|split; [|split; [|repeat split; assumption]]]].
  - unfold Meet.listUpcomingMeetings, failing_as, try_catch, call, bind, log, lift.
    rewrite Hu, Hs. destruct upcoming; reflexivity.
  - unfold Meet.listPastMeetings, failing_as, try_catch, call, bind, log, lift.
    rewrite Hp, Hs. destruct past; reflexivity.
  - cbn [Meet.upcoming_request el_maxResults]. lia.
  - cbn [Meet.past_request el_maxResults]. lia.
Qed.

Lemma meet_listings_filter_and_truncate_witness :
  fst (Meet.listUpcomingMeetings sample_env 2 signed_in)
  = Returned
      [ JObj [("summary", JStr "Standup");
              ("hangoutLink", JStr "https://meet.google.com/abc-defg-hij")];
        JObj [("summary", JStr "Review");
              ("conferenceData",
               JObj [("conferenceSolution", JObj [("name", JStr "Google Meet")])])] ].
Proof.
  destruct (meet_listings_filter_and_truncate sample_env 2 signed_in
              (Some sample_events) (Some sample_events)
              ltac:(lia) eq_refl eq_refl) as [kept [kept' [K [_ [H _]]]]].
  rewrite H. cbn [fst]. f_equal.
  assert (K' : keeps_exactly meet_backed sample_events
                 [ JObj [("summary", JStr "Standup");
                         ("hangoutLink", JStr "https://meet.google.com/abc-defg-hij")];
                   JObj [("summary", JStr "Review");
                         ("conferenceData",
                          JObj [("conferenceSolution", JObj [("name", JStr "Google Meet")])])];
                   JObj [("summary", JStr "Retro");
                         ("hangoutLink", JStr "https://meet.google.com/klm-nopq-rst")] ]).
  { unfold sample_events.
    apply keeps_this; [right; reflexivity|].
    apply keeps_skip; [intros [E|E]; discriminate E|].
    apply keeps_this; [left; reflexivity|].
    apply keeps_skip; [intros [E|E]; discriminate E|].
    apply keeps_this; [right; reflexivity|].
    apply keeps_none. }
  rewrite (keeps_exactly_unique _ _ _ _ K K'). reflexivity.
Defined.

(* ===================================================================== *)
(** ** Mail listings *)
(* ===================================================================== *)

Lemma getMessage_run (env : Env) (id : string) (st : state) :
  snd (Gmail.getMessage env id st)
  = {| cached := cached st; trace := (trace st ++ [EvGmailMessagesGet id])%list |}.
Proof.
  unfold Gmail.getMessage, failing_as, try_catch, call, bind, log, lift.
  destruct (gmail_messages_get env id); reflexivity.
Qed.

Lemma promise_all_getMessage_run (env : Env) (ids : list string) (st : state) :
  snd (Gmail.promise_all (map (fun id => Gmail.getMessage env id) ids) st)
  = {| cached := cached st; trace := (trace st ++ map EvGmailMessagesGet ids)%list |}.
Proof.
  revert st. induction ids as [|id ids IH]; intros st.
  - cbn. rewrite app_nil_r. destruct st; reflexivity.
  - cbn [map Gmail.promise_all].
    pose proof (getMessage_run env id st) as Hg.
    destruct (Gmail.getMessage env id st) as [[m|e] st1]; cbn [snd] in Hg; subst st1.
    + specialize (IH {| cached := cached st;
                        trace := (trace st ++ [EvGmailMessagesGet id])%list |}).
      destruct (Gmail.promise_all _ _) as [[l|e] st2]; cbn [snd] in *; subst st2;
        cbn [cached trace]; rewrite <- app_assoc; reflexivity.
    + cbn [snd]. rewrite IH. cbn [cached trace]. rewrite <- app_assoc. reflexivity.
Qed.

(** What the listing routine sends, for explicit [maxResults]. *)
Lemma listMessages_run (env : Env) (query : option string) (n : Z)
      (labelIds : option (list string)) (st : state) :
  snd (Gmail.listMessages env query (Some n) labelIds st)
  = {| cached := cached st;
       trace := (trace st
                 ++ listing_events env
                      {| ml_userId := "me"; ml_q := query; ml_maxResults := n;
                         ml_labelIds := Gmail.or_default labelIds ["INBOX"] |})%list |}.
Proof.
  unfold Gmail.listMessages, listing_events, failing_as, try_catch, call.
  cbn [Gmail.or_default]. change Config.gmail_defaultLabels with ["INBOX"].
  set (r := {| ml_userId := "me"; ml_q := query; ml_maxResults := n;
               ml_labelIds := Gmail.or_default labelIds ["INBOX"] |}).
  unfold bind at 1 2, log, lift.
  destruct (gmail_messages_list env r) as [listed|e]; [|reflexivity].
  unfold bind.
  pose proof (promise_all_getMessage_run env (Gmail.or_default listed [])
                {| cached := cached st;
                   trace := (trace st ++ [EvGmailMessagesList r])%list |}) as Hp.
  destruct (Gmail.promise_all _ _) as [[l|e] st2]; cbn [snd] in *; subst st2;
    cbn [cached trace]; rewrite <- app_assoc; reflexivity.
Qed.

(** C10. With the mail client available and arguments that validate,
    [list_emails] sends [messages.list] with no query and the label filter
    ["INBOX"], [search_emails] sends it with the query and an empty label
    filter; both then fetch each listed message, through the one routine
    [listMessages], which [searchEmails] merely calls. *)
Theorem list_emails_inbox_search_all_mail
        (env : Env) (st st1 : state) (service : GmailService)
        (list_args list_data search_args search_data : json) :
  Handlers.getGmailService env st = (Returned service, st1) ->
  Schemas.validateInput (is_email env) Schemas.ListEmailsSchema list_args
  = Returned list_data ->
  Schemas.validateInput (is_email env) Schemas.SearchEmailsSchema search_args
  = Returned search_data ->
  trace (snd (Handlers.handleToolCall env "list_emails" list_args st))
  = (trace st1
     ++ EvValidate Schemas.ListEmailsSchema list_args
     :: listing_events env
          {| ml_userId := "me"; ml_q := None;
             ml_maxResults := to_Z (get "limit" list_data);
             ml_labelIds := ["INBOX"] |})%list
  /\ trace (snd (Handlers.handleToolCall env "search_emails" search_args st))
     = (trace st1
        ++ EvValidate Schemas.SearchEmailsSchema search_args
        :: listing_events env
             {| ml_userId := "me"; ml_q := Some (to_string (get "query" search_data));
                ml_maxResults := to_Z (get "limit" search_data);
                ml_labelIds := [] |})%list
  /\ (forall query maxResults,
         Gmail.searchEmails env query (Some maxResults)
         = Gmail.listMessages env (Some query) (Some maxResults) (Some [])).
Proof.
  intros Hg Hl Hs. split; [|split; [|reflexivity]].
  - change (Handlers.handleToolCall env "list_emails" list_args st)
      with (Handlers.handleListEmails env list_args st).
    unfold Handlers.handleListEmails, Handlers.withGmailAuth, try_catch.
    unfold bind at 1. rewrite Hg.
    unfold bind at 1, Handlers.validateInput, bind at 1, log, lift. rewrite Hl.
    unfold bind at 1.
    match goal with
    | |- context [Gmail.listMessages env None (Some ?n) None ?s] =>
        pose proof (listMessages_run env None n None s) as Hr;
        destruct (Gmail.listMessages env None (Some n) None s) as [[messages|e] st3]
    end; cbn [snd] in Hr; subst st3.
    + destruct (Handlers.is_empty messages); cbn [snd trace ret];
        rewrite <- app_assoc; reflexivity.
    + rewrite on_auth_error_state. cbn [trace]. rewrite <- app_assoc. reflexivity.
  - change (Handlers.handleToolCall env "search_emails" search_args st)
      with (Handlers.handleSearchEmails env search_args st).
    unfold Handlers.handleSearchEmails, Handlers.withGmailAuth, try_catch.
    unfold bind at 1. rewrite Hg.
    unfold bind at 1, Handlers.validateInput, bind at 1, log, lift. rewrite Hs.
    cbv zeta. unfold bind at 1, Gmail.searchEmails. cbn [Gmail.or_default].
    match goal with
    | |- context [Gmail.listMessages env (Some ?q) (Some ?n) (Some []) ?s] =>
        pose proof (listMessages_run env (Some q) n (Some []) s) as Hr;
        destruct (Gmail.listMessages env (Some q) (Some n) (Some []) s)
          as [[messages|e] st3]
    end; cbn [snd] in Hr; subst st3.
    + destruct (Handlers.is_empty messages); cbn [snd trace ret];
        rewrite <- app_assoc; reflexivity.
    + rewrite on_auth_error_state. cbn [trace]. rewrite <- app_assoc. reflexivity.
Qed.

Lemma list_emails_inbox_search_all_mail_witness :
  trace (snd (Handlers.handleToolCall sample_env "list_emails" (JObj []) signed_in))
  = [ EvValidate Schemas.ListEmailsSchema (JObj []);
      EvGmailMessagesList {| ml_userId := "me"; ml_q := None; ml_maxResults := 10;
                             ml_labelIds := ["INBOX"] |};
      EvGmailMessagesGet "m1"; EvGmailMessagesGet "m2" ]
  /\ trace (snd (Handlers.handleToolCall sample_env "search_emails"
                   (JObj [("query", JStr "invoice")]) signed_in))
     = [ EvValidate Schemas.SearchEmailsSchema (JObj [("query", JStr "invoice")]);
         EvGmailMessagesList {| ml_userId := "me"; ml_q := Some "invoice";
                                ml_maxResults := 10; ml_labelIds := [] |};
         EvGmailMessagesGet "m1"; EvGmailMessagesGet "m2" ].
Proof.
  destruct (list_emails_inbox_search_all_mail sample_env signed_in signed_in
              {| gmail_auth := sample_auth |}
              (JObj []) (JObj [("limit", Schemas.num 10)])
              (JObj [("query", JStr "invoice")])
              (JObj [("query", JStr "invoice"); ("limit", Schemas.num 10)])
              eq_refl eq_refl eq_refl) as [H1 [H2 _]].
  rewrite H1, H2. split; reflexivity.
Defined.

(* ===================================================================== *)
(** ** The encoded mail message *)
(* ===================================================================== *)

Section Base64url.
Import Base64.

Lemma string_ind3 (P : string -> Prop) :
  P EmptyString ->
  (forall a, P (String a EmptyString)) ->
  (forall a b, P (String a (String b EmptyString))) ->
  (forall a b c rest, P rest -> P (String a (String b (String c rest)))) ->
  forall s, P s.
Proof.
  intros H0 H1 H2 H3 s.
  enough (H : P s /\ (forall a, P (String a s)) /\ (forall a b, P (String a (String b s))))
    by exact (proj1 H).
  induction s as [|c s [IH0 [IH1 IH2]]]; auto.
Qed.

Lemma nat_of_ascii_bound (a : ascii) : (nat_of_ascii a < 256)%nat.
Proof. destruct a as [[] [] [] [] [] [] [] []]; cbn; lia. Qed.

Lemma sextet1_bound a : (a < 256 -> sextet1 a < 64)%nat.
Proof. intros H. unfold sextet1. apply Nat.Div0.div_lt_upper_bound. lia. Qed.

Lemma sextet2_bound a b : (b < 256 -> sextet2 a b < 64)%nat.
Proof.
  intros H. unfold sextet2.
  pose proof (Nat.mod_upper_bound a 4 ltac:(lia)).
  assert (b / 16 < 16)%nat by (apply Nat.Div0.div_lt_upper_bound; lia). lia.
Qed.

Lemma sextet3_bound b c : (c < 256 -> sextet3 b c < 64)%nat.
Proof.
  intros H. unfold sextet3.
  pose proof (Nat.mod_upper_bound b 16 ltac:(lia)).
  assert (c / 64 < 4)%nat by (apply Nat.Div0.div_lt_upper_bound; lia). lia.
Qed.

Lemma sextet4_bound c : (sextet4 c < 64)%nat.
Proof. unfold sextet4. apply Nat.mod_upper_bound. lia. Qed.

(** On the 64 digits the two replacements turn the standard alphabet
    into the URL-safe one, and no digit is the padding character. *)
Lemma digit_url_safe (n : nat) :
  (n < 64)%nat ->
  url_char (digit standard n) = digit url_safe n /\ digit url_safe n <> "="%char.
Proof.
  intros H.
  do 64 (destruct n as [|n]; [split; [reflexivity|discriminate]|]).
  lia.
Qed.

Lemma replace_both (c : ascii) (s : string) :
  replace_all "/" "_" (replace_all "+" "-" (String c s))
  = String (url_char c) (replace_all "/" "_" (replace_all "+" "-" s)).
Proof. reflexivity. Qed.

Lemma strip_keeps (c : ascii) (s : string) :
  c <> "="%char -> strip_trailing_eq (String c s) = String c (strip_trailing_eq s).
Proof.
  intros Hc. cbn [strip_trailing_eq]. destruct (strip_trailing_eq s); [|reflexivity].
  destruct (Ascii.eqb c "=") eqn:E; [|reflexivity].
  apply Ascii.eqb_eq in E. contradiction.
Qed.

Lemma encoded_digit (n : nat) (s : string) :
  (n < 64)%nat ->
  strip_trailing_eq
    (replace_all "/" "_" (replace_all "+" "-" (String (digit standard n) s)))
  = String (digit url_safe n)
           (strip_trailing_eq (replace_all "/" "_" (replace_all "+" "-" s))).
Proof.
  intros H. destruct (digit_url_safe n H) as [Hu Hne].
  rewrite replace_both, Hu. apply strip_keeps. exact Hne.
Qed.

Ltac sextet_bound :=
  first [ apply sextet1_bound; apply nat_of_ascii_bound
        | apply sextet2_bound; first [apply nat_of_ascii_bound | lia]
        | apply sextet3_bound; first [apply nat_of_ascii_bound | lia]
        | apply sextet4_bound ].

(** The three [replace] calls of the mail client turn Node's Base64 into
    base64url without padding. *)
Lemma base64url_by_replacement (bytes : string) :
  strip_trailing_eq (replace_all "/" "_" (replace_all "+" "-" (toBase64 bytes)))
  = base64url_unpadded bytes.
Proof.
  unfold toBase64, base64url_unpadded.
  induction bytes as [|a|a b|a b c rest IH] using string_ind3;
    cbn [encode]; rewrite ?encoded_digit by sextet_bound.
  - reflexivity.
  - reflexivity.
  - reflexivity.
  - rewrite IH. reflexivity.
Qed.

End Base64url.



(* ===================================================================== *)
(** ** The end time of a created event *)
(* ===================================================================== *)

Section EndTime.
Local Open Scope Z_scope.

(** While the end falls on the day of the start, the clock arithmetic is
    start plus duration. *)
Lemma end_clock_same_day (hours minutes durationMinutes : Z) :
  0 <= hours -> 0 <= minutes -> 0 <= durationMinutes ->
  hours * 60 + minutes + durationMinutes < 1440 ->
  let '(endHours, endMins) := Meet.end_clock hours minutes durationMinutes in
  endHours * 60 + endMins = hours * 60 + minutes + durationMinutes
  /\ 0 <= endHours < 24 /\ 0 <= endMins < 60.
Proof.
  intros Hh Hm Hd Hlt. unfold Meet.end_clock.
  set (total := hours * 60 + minutes + durationMinutes) in *.
  assert (0 <= total) by lia.
  assert (0 <= total / 60 < 24) by (split; [apply Z.div_pos; lia|apply Z.div_lt_upper_bound; lia]).
  rewrite !Z.rem_mod_nonneg by lia.
  rewrite (Z.mod_small (total / 60) 24) by lia.
  pose proof (Z.div_mod total 60 ltac:(lia)).
  pose proof (Z.mod_pos_bound total 60 ltac:(lia)). lia.
Qed.

(** Past midnight the hour wraps and nothing carries into the date: the
    clock reads a whole day less than start plus duration. *)
Lemma end_clock_next_day (hours minutes durationMinutes : Z) :
  0 <= hours -> 0 <= minutes -> 0 <= durationMinutes ->
  1440 <= hours * 60 + minutes + durationMinutes < 2880 ->
  let '(endHours, endMins) := Meet.end_clock hours minutes durationMinutes in
  endHours * 60 + endMins = hours * 60 + minutes + durationMinutes - 1440.
Proof.
  intros Hh Hm Hd Hlt. unfold Meet.end_clock.
  set (total := hours * 60 + minutes + durationMinutes) in *.
  assert (24 <= total / 60 < 48)
    by (split; [apply Z.div_le_lower_bound; lia|apply Z.div_lt_upper_bound; lia]).
  rewrite !Z.rem_mod_nonneg by lia.
  replace ((total / 60) mod 24) with (total / 60 - 24).
  - pose proof (Z.div_mod total 60 ltac:(lia)). lia.
  - apply Z.mod_unique with (q := 1); lia.
Qed.

End EndTime.

Lemma includes_app (c : ascii) (a b : string) :
  includes c (a ++ b) = includes c a || includes c b.
Proof.
  induction a as [|x a IH]; cbn; [reflexivity|].
  destruct (Ascii.eqb x c); [reflexivity|exact IH].
Qed.

Lemma split_without (c : ascii) (s : string) : includes c s = false -> split c s = [s].
Proof.
  induction s as [|x s IH]; cbn; [reflexivity|].
  destruct (Ascii.eqb x c); [discriminate|]. intros H. rewrite (IH H). reflexivity.
Qed.

Lemma split_at_first (c : ascii) (a b : string) :
  includes c a = false -> split c (a ++ String c b) = a :: split c b.
Proof.
  induction a as [|x a IH]; cbn.
  - rewrite Ascii.eqb_refl. reflexivity.
  - destruct (Ascii.eqb x c); [discriminate|]. intros H. rewrite (IH H). reflexivity.
Qed.

Lemma in_below (k : nat) (n : Z) : (0 <= n < Z.of_nat k)%Z -> In n (below k).
Proof.
  induction k as [|k IH]; intros Hk; [lia|].
  cbn [below]. destruct (Z.eq_dec n (Z.of_nat k)); [left; congruence|right].
  apply IH. lia.
Qed.

(** Two-digit printing and [Number] agree below one hundred. *)
Lemma Number_pad2 (n : Z) :
  (0 <= n < 100)%Z ->
  Meet.Number (Meet.pad2 n) = Some n
  /\ includes ":" (Meet.pad2 n) = false /\ includes "T" (Meet.pad2 n) = false.
Proof.
  intros Hn.
  assert (Hall : forallb (fun k =>
                            match Meet.Number (Meet.pad2 k) with
                            | Some v => Z.eqb v k
                            | None => false
                            end
                            && negb (includes ":" (Meet.pad2 k))
                            && negb (includes "T" (Meet.pad2 k)))
                         (below 100) = true)
    by (vm_compute; reflexivity).
  assert (Hin : In n (below 100)) by (apply in_below; lia).
  pose proof (proj1 (forallb_forall _ _) Hall n Hin) as H.
  apply andb_true_iff in H. destruct H as [H H3].
  apply andb_true_iff in H. destruct H as [H1 H2].
  destruct (Meet.Number (Meet.pad2 n)) as [v|]; [|discriminate].
  apply Z.eqb_eq in H1. subst v.
  apply negb_true_iff in H2, H3. auto.
Qed.

(** For a start of the shape [parseDateTime] prints, the end is printed
    on the date of the start, with the clock of [end_clock]. *)
Lemma end_from_duration_printed (datePart : string) (hours minutes durationMinutes : Z) :
  includes "T" datePart = false ->
  (0 <= hours < 100)%Z -> (0 <= minutes < 100)%Z ->
  Meet.end_from_duration
    (datePart ++ "T" ++ Meet.pad2 hours ++ ":" ++ Meet.pad2 minutes ++ ":00")
    durationMinutes
  = Meet.EndAt
      (datePart ++ "T"
       ++ Meet.pad2 (fst (Meet.end_clock hours minutes durationMinutes)) ++ ":"
       ++ Meet.pad2 (snd (Meet.end_clock hours minutes durationMinutes)) ++ ":00").
Proof.
  intros Hd Hh Hm.
  destruct (Number_pad2 hours Hh) as [Nh [Ch Th]].
  destruct (Number_pad2 minutes Hm) as [Nm [Cm Tm]].
  unfold Meet.end_from_duration.
  change (datePart ++ "T" ++ Meet.pad2 hours ++ ":" ++ Meet.pad2 minutes ++ ":00")
    with (datePart ++ String "T" (Meet.pad2 hours ++ ":" ++ Meet.pad2 minutes ++ ":00")).
  rewrite (split_at_first "T" _ _ Hd).
  rewrite split_without
    by (rewrite !includes_app, Th, Tm; reflexivity).
  change (Meet.pad2 hours ++ ":" ++ Meet.pad2 minutes ++ ":00")
    with (Meet.pad2 hours ++ String ":" (Meet.pad2 minutes ++ String ":" "00")).
  rewrite (split_at_first ":" _ _ Ch), (split_at_first ":" _ _ Cm).
  cbn [split]. rewrite Nh, Nm.
  replace (Z.leb (hours * 60 + minutes + 480) Meet.max_exact) with true
    by (symmetry; apply Z.leb_le; unfold Meet.max_exact; lia).
  destruct (Meet.end_clock hours minutes durationMinutes). reflexivity.
Qed.

Lemma clock_text_checked (hours minutes : Z) :
  (0 <= hours < 100)%Z -> (0 <= minutes < 100)%Z ->
  clock_text_ok (hours, minutes) = true.
Proof.
  intros Hh Hm.
  assert (Hall : forallb clock_text_ok (pairs_below 100) = true)
    by (vm_compute; reflexivity).
  apply (proj1 (forallb_forall _ _) Hall).
  apply in_prod; apply in_below; lia.
Qed.

Lemma digit_is_no_letter (a : ascii) :
  Re.is_digit a = true -> Ascii.eqb a "T" = false /\ Ascii.eqb a "Z" = false.
Proof.
  destruct a as [[] [] [] [] [] [] [] []]; cbn; intros H;
    first [discriminate H | split; reflexivity].
Qed.

Lemma dash_is_no_letter (a : ascii) :
  Ascii.eqb a "-" = true -> Ascii.eqb a "T" = false /\ Ascii.eqb a "Z" = false.
Proof. intros H. apply Ascii.eqb_eq in H. subst a. split; reflexivity. Qed.

(** A text that is exactly a date "YYYY-MM-DD" is found again at the head
    of any text it starts, and holds neither "T" nor "Z". *)
Lemma take_date_exact (datePart rest : string) :
  Re.take_date datePart = Some (datePart, EmptyString) ->
  Re.take_date (datePart ++ rest) = Some (datePart, rest)
  /\ includes "T" datePart = false /\ includes "Z" datePart = false.
Proof.
  intros H.
  do 10 (destruct datePart as [|? datePart]; [discriminate H|]).
  cbn [Re.take_date] in H.
  match type of H with
  | (if ?c then _ else _) = _ => destruct c eqn:Hc; [|discriminate H]
  end.
  injection H as _ H. subst datePart.
  split.
  - cbn [append Re.take_date]. rewrite Hc. reflexivity.
  - repeat match goal with
           | C : (_ && _) = true |- _ => apply andb_true_iff in C; destruct C as [? ?]
           end.
    repeat match goal with
           | D : Re.is_digit _ = true |- _ => apply digit_is_no_letter in D; destruct D as [? ?]
           | D : Ascii.eqb _ "-" = true |- _ => apply dash_is_no_letter in D; destruct D as [? ?]
           end.
    cbn [includes].
    repeat match goal with
           | E : Ascii.eqb ?a ?c = false |- context [Ascii.eqb ?a ?c] => rewrite E
           end.
    split; reflexivity.
Qed.

(** For a start written "YYYY-MM-DD HH:mm", the start that is sent is
    "YYYY-MM-DDTHH:mm:00" and the end that is computed is on the same
    date, at the clock [end_clock] gives. *)
Lemma start_and_end_24h (datePart timezone : string) (hours minutes durationMinutes : Z) :
  Re.take_date datePart = Some (datePart, EmptyString) ->
  (0 <= hours < 100)%Z -> (0 <= minutes < 100)%Z ->
  let start_time := datePart ++ " " ++ Meet.pad2 hours ++ ":" ++ Meet.pad2 minutes in
  Meet.parseDateTime start_time timezone
  = datePart ++ "T" ++ Meet.pad2 hours ++ ":" ++ Meet.pad2 minutes ++ ":00"
  /\ Meet.end_from_duration (Meet.parseDateTime start_time timezone) durationMinutes
     = Meet.EndAt
         (datePart ++ "T"
          ++ Meet.pad2 (fst (Meet.end_clock hours minutes durationMinutes)) ++ ":"
          ++ Meet.pad2 (snd (Meet.end_clock hours minutes durationMinutes)) ++ ":00").
Proof.
  intros Hd Hh Hm start_time.
  pose proof (clock_text_checked hours minutes Hh Hm) as Hok.
  unfold clock_text_ok in Hok. cbn [fst snd] in Hok.
  apply andb_true_iff in Hok. destruct Hok as [Hok HZ].
  apply andb_true_iff in Hok. destruct Hok as [Hok HT].
  apply andb_true_iff in Hok. destruct Hok as [Hb Hpt].
  apply negb_true_iff in HT, HZ.
  destruct (Re.time_after_blanks (" " ++ Meet.pad2 hours ++ ":" ++ Meet.pad2 minutes))
    as [timePart|] eqn:Eb; [|discriminate Hb].
  apply String.eqb_eq in Hb. subst timePart.
  destruct (Meet.parseTimePart (Meet.pad2 hours ++ ":" ++ Meet.pad2 minutes))
    as [h m] eqn:Ep.
  apply andb_true_iff in Hpt. destruct Hpt as [Eh Em].
  apply Z.eqb_eq in Eh, Em. subst h m.
  destruct (take_date_exact datePart (" " ++ Meet.pad2 hours ++ ":" ++ Meet.pad2 minutes) Hd)
    as [Ht [DT DZ]].
  assert (Hp : Meet.parseDateTime start_time timezone
               = datePart ++ "T" ++ Meet.pad2 hours ++ ":" ++ Meet.pad2 minutes ++ ":00").
  { unfold Meet.parseDateTime, start_time.
    rewrite (includes_app "T" datePart), (includes_app "Z" datePart), DT, DZ, HT, HZ.
    cbn [orb].
    unfold Re.match_date_time. rewrite Ht, Eb, Ep. reflexivity. }
  split; [exact Hp|].
  rewrite Hp. apply end_from_duration_printed; assumption.
Qed.

(** Hence the end is the start plus the duration as long as that stays
    within the day of the start. *)
Lemma same_day_end_is_start_plus_duration
      (datePart timezone : string) (hours minutes durationMinutes : Z) :
  Re.take_date datePart = Some (datePart, EmptyString) ->
  (0 <= hours < 24)%Z -> (0 <= minutes < 60)%Z -> (5 <= durationMinutes <= 480)%Z ->
  (hours * 60 + minutes + durationMinutes < 1440)%Z ->
  exists endHours endMins,
    Meet.end_from_duration
      (Meet.parseDateTime
         (datePart ++ " " ++ Meet.pad2 hours ++ ":" ++ Meet.pad2 minutes) timezone)
      durationMinutes
    = Meet.EndAt (datePart ++ "T" ++ Meet.pad2 endHours ++ ":" ++ Meet.pad2 endMins ++ ":00")
    /\ (endHours * 60 + endMins = hours * 60 + minutes + durationMinutes)%Z
    /\ (0 <= endHours < 24)%Z /\ (0 <= endMins < 60)%Z.
Proof.
  intros Hd Hh Hm Hdur Hlt.
  destruct (start_and_end_24h datePart timezone hours minutes durationMinutes Hd
              ltac:(lia) ltac:(lia)) as [_ He].
  pose proof (end_clock_same_day hours minutes durationMinutes
                ltac:(lia) ltac:(lia) ltac:(lia) Hlt) as Hc.
  destruct (Meet.end_clock hours minutes durationMinutes) as [endHours endMins].
  exists endHours, endMins. split; [exact He|exact Hc].
Qed.

(** The example of the specification: two in the afternoon plus the
    default hour. *)
Lemma default_duration_example :
  inserted_times
    (trace (snd (Index.callTool sample_env "create_calendar_event"
                   (JObj [("summary", JStr "Planning");
                          ("start_time", JStr "2026-01-30 14:00")])
                   signed_in)))
  = [("2026-01-30T14:00:00", "2026-01-30T15:00:00")].
Proof. vm_compute. reflexivity. Qed.

(** C2 (defect). [create_calendar_event] with [start_time] "2026-01-30
    23:30", no [end_time] and the default sixty minutes asks the calendar
    for an event that starts at 23:30 and ends at 00:30 of the same date:
    the hour wraps past midnight and the date is not advanced, so the end
    is not the start plus the duration. *)
Theorem end_time_stays_on_start_date :
  inserted_times
    (trace (snd (Index.callTool sample_env "create_calendar_event"
                   (JObj [("summary", JStr "Late sync");
                          ("start_time", JStr "2026-01-30 23:30")])
                   signed_in)))
  = [("2026-01-30T23:30:00", "2026-01-30T00:30:00")].
Proof. vm_compute. reflexivity. Qed.

(* ===================================================================== *)
(** ** Further properties: what a computation adds to the trace *)
(* ===================================================================== *)

Lemma adds_ret {A} P (a : A) : adds P (ret a).
Proof. intros st. exists []. cbn. rewrite app_nil_r. auto. Qed.

Lemma adds_throw {A} P (e : exn) : adds P (@throw A e).
Proof. intros st. exists []. cbn. rewrite app_nil_r. auto. Qed.

Lemma adds_lift {A} P (o : outcome A) : adds P (lift o).
Proof. intros st. exists []. cbn. rewrite app_nil_r. auto. Qed.

Lemma adds_log (P : event -> Prop) (ev : event) : P ev -> adds P (log ev).
Proof. intros H st. exists [ev]. auto. Qed.

(** Sequencing, where the continuation may rely on a fact [Q] about the
    value the first part returned. *)
Lemma adds_bind_post {A B} P (Q : A -> Prop) (m : M A) (k : A -> M B) :
  adds P m ->
  (forall st a st', m st = (Returned a, st') -> Q a) ->
  (forall a, Q a -> adds P (k a)) ->
  adds P (bind m k).
Proof.
  intros Hm HQ Hk st. unfold bind. destruct (Hm st) as [more1 [H1 F1]].
  destruct (m st) as [[a|e] st1] eqn:E; cbn [snd] in *; [|exists more1; auto].
  destruct (Hk a (HQ _ _ _ E) st1) as [more2 [H2 F2]].
  exists (more1 ++ more2)%list. rewrite H2, H1, app_assoc.
  split; [reflexivity|apply Forall_app; auto].
Qed.

Lemma adds_bind {A B} P (m : M A) (k : A -> M B) :
  adds P m -> (forall a, adds P (k a)) -> adds P (bind m k).
Proof.
  intros Hm Hk. apply (adds_bind_post P (fun _ => True)); auto.
Qed.

Lemma adds_try_catch {A} P (m : M A) (h : exn -> M A) :
  adds P m -> (forall e, adds P (h e)) -> adds P (try_catch m h).
Proof.
  intros Hm Hh st. unfold try_catch. destruct (Hm st) as [more1 [H1 F1]].
  destruct (m st) as [[a|e] st1]; cbn [snd] in *; [exists more1; auto|].
  destruct (Hh e st1) as [more2 [H2 F2]].
  exists (more1 ++ more2)%list. rewrite H2, H1, app_assoc.
  split; [reflexivity|apply Forall_app; auto].
Qed.

Lemma adds_promise_all {A B} P (f : B -> M A) (l : list B) :
  (forall b, adds P (f b)) -> adds P (Gmail.promise_all (map f l)).
Proof.
  intros Hf. induction l as [|b l IH]; intros st; [apply adds_ret|].
  cbn [map Gmail.promise_all]. destruct (Hf b st) as [more1 [H1 F1]].
  destruct (f b st) as [[a|e] st1]; cbn [snd] in H1;
    destruct (IH st1) as [more2 [H2 F2]]; exists (more1 ++ more2)%list.
  - destruct (Gmail.promise_all (map f l) st1) as [[r|e] st2]; cbn [snd] in *;
      rewrite H2, H1, app_assoc; (split; [reflexivity|apply Forall_app; auto]).
  - cbn [snd]. rewrite H2, H1, app_assoc. split; [reflexivity|apply Forall_app; auto].
Qed.

Lemma adds_on_auth_error P (e : exn) : adds P (Handlers.on_auth_error e).
Proof.
  unfold Handlers.on_auth_error.
  destruct (Handlers.is_not_authenticated e); [apply adds_ret|apply adds_throw].
Qed.

Lemma adds_read_cache P : adds P read_cache.
Proof. intros st. exists []. cbn. rewrite app_nil_r. auto. Qed.

Lemma adds_write_cache P (c : cache) : adds P (write_cache c).
Proof. intros st. exists []. cbn. rewrite app_nil_r. auto. Qed.

(** [adds_tac solve] walks a computation; [solve] settles [P ev] at each
    recorded event. *)
Ltac adds_tac solve :=
  repeat (intros; cbv zeta;
          first [ apply adds_ret | apply adds_throw | apply adds_lift
                | apply adds_read_cache | apply adds_write_cache
                | apply adds_on_auth_error
                | apply adds_log; solve
                | apply adds_promise_all | apply adds_try_catch | apply adds_bind
                | progress autounfold with services
                | match goal with
                  | |- adds _ (if ?c then _ else _) => destruct c
                  | |- adds _ (match ?x with _ => _ end) => destruct x
                  end ]).

Section Clients.
Variables (P : event -> Prop) (env : Env).
Hypothesis authenticates : P EvAuthenticate.

Lemma adds_ensureAuth : adds P (Handlers.ensureAuth env).
Proof.
  unfold Handlers.ensureAuth, Auth.authenticate, Handlers.set_authInstance.
  adds_tac ltac:(exact authenticates).
Qed.

Lemma adds_getMeetService : adds P (Handlers.getMeetService env).
Proof.
  unfold Handlers.getMeetService, Handlers.set_meetService.
  adds_tac ltac:(exact authenticates); apply adds_ensureAuth.
Qed.

Lemma adds_getGmailService : adds P (Handlers.getGmailService env).
Proof.
  unfold Handlers.getGmailService, Handlers.set_gmailService.
  adds_tac ltac:(exact authenticates); apply adds_ensureAuth.
Qed.

Lemma adds_getDocsService : adds P (Handlers.getDocsService env).
Proof.
  unfold Handlers.getDocsService, Handlers.set_docsService.
  adds_tac ltac:(exact authenticates); apply adds_ensureAuth.
Qed.

End Clients.

(** What the handler adds to the trace is what the protocol boundary
    adds. *)
Lemma adds_callTool P (env : Env) (t : tool) (args : json) (st : state) :
  adds P (Handlers.handler t env args) ->
  exists more,
    trace (snd (Index.callTool env (Handlers.tool_name t) args st))
    = (trace st ++ more)%list /\ Forall P more.
Proof.
  intros H. unfold Index.callTool. rewrite handleToolCall_known.
  destruct (H st) as [more [Hm Hf]]. exists more.
  destruct (Handlers.handler t env args st) as [[r|e] st1]; auto.
Qed.

(* ===================================================================== *)
(** ** Further properties: what validation lets through *)
(* ===================================================================== *)

Section Validated.
Import Zod.
Variable em : string -> bool.

Lemma object_fields_keys p fields shape k :
  ~ In k (map fst shape) ->
  lookup k (snd (object_fields em p fields shape)) = JUndefined.
Proof.
  induction shape as [|[k' sk] rest IH]; intros Hn; [reflexivity|].
  cbn [object_fields].
  destruct (parse em sk (p ++ [k'])%list (lookup k' fields)) as [e1 v].
  destruct (object_fields em p fields rest) as [e2 out] eqn:E.
  cbn [snd] in *. cbn [map fst] in Hn.
  assert (Hk : String.eqb k k' = false)
    by (apply String.eqb_neq; intros ->; apply Hn; left; reflexivity).
  assert (Hr : lookup k out = JUndefined) by (apply IH; intros H; apply Hn; right; exact H).
  destruct (has_key k' fields || negb _); cbn [lookup]; rewrite ?Hk; exact Hr.
Qed.

(** The value validation returns for a declared key is what the schema
    of that key made of the argument. *)
Lemma object_field_value p fields shape k sk :
  NoDup (map fst shape) ->
  In (k, sk) shape ->
  lookup k (snd (object_fields em p fields shape))
  = snd (parse em sk (p ++ [k])%list (lookup k fields)).
Proof.
  induction shape as [|[k' sk'] rest IH]; intros Hnd Hin; [contradiction|].
  cbn [map fst] in Hnd. inversion Hnd as [|? ? Hnot Hnd']; subst.
  cbn [object_fields].
  destruct Hin as [Heq|Hin].
  - injection Heq as -> ->.
    pose proof (object_fields_keys p fields rest k Hnot) as Hr.
    destruct (parse em sk (p ++ [k])%list (lookup k fields)) as [e1 v].
    destruct (object_fields em p fields rest) as [e2 out].
    cbn [snd] in *.
    destruct (has_key k fields) eqn:Hk; cbn [orb].
    + cbn [lookup]. rewrite String.eqb_refl. reflexivity.
    + destruct v; cbn [negb lookup]; rewrite ?String.eqb_refl; auto.
  - assert (Hne : String.eqb k k' = false).
    { apply String.eqb_neq. intros ->. apply Hnot.
      change k' with (fst (k', sk)). apply in_map. exact Hin. }
    specialize (IH Hnd' Hin).
    destruct (parse em sk' (p ++ [k'])%list (lookup k' fields)) as [e1 v].
    destruct (object_fields em p fields rest) as [e2 out].
    cbn [snd] in *.
    destruct (has_key k' fields || negb _); cbn [lookup]; rewrite ?Hne; exact IH.
Qed.

Lemma flat_map_nil {A B} (f : A -> list B) (l : list A) (x : A) :
  flat_map f l = [] -> In x l -> f x = [].
Proof.
  induction l as [|y l IH]; cbn; [contradiction|].
  intros H [->|Hin]; apply app_eq_nil in H; destruct H; auto.
Qed.

(** When validation of an argument record succeeds, every declared key
    was accepted by its schema, and the record returned holds for it what
    that schema produced. *)
Lemma validated_field shape fields data k sk :
  NoDup (map fst shape) ->
  In (k, sk) shape ->
  Schemas.validateInput em (z.object shape) (JObj fields) = Returned data ->
  parse em sk [k] (lookup k fields) = ([], get k data).
Proof.
  intros Hnd Hin. unfold Schemas.validateInput, z.object.
  pose proof (object_issues em shape [] fields) as Hi.
  pose proof (object_field_value [] fields shape k sk Hnd Hin) as Hv.
  rewrite parse_object in *.
  destruct (object_fields em [] fields shape) as [errs out]. cbn [fst snd] in *.
  destruct errs as [|e errs]; [|intros H; discriminate H].
  intros H. injection H as <-. cbn [get]. rewrite Hv.
  symmetry in Hi. pose proof (flat_map_nil _ _ (k, sk) Hi Hin) as H0.
  cbn [fst snd List.app] in *.
  destruct (parse em sk [k] (lookup k fields)) as [e v]. cbn [fst snd] in *.
  subst e. reflexivity.
Qed.

(** Only an argument record validates against an object schema. *)
Lemma validated_is_record shape input data :
  Schemas.validateInput em (z.object shape) input = Returned data ->
  exists fields, input = JObj fields.
Proof.
  unfold Schemas.validateInput, z.object.
  destruct input; cbn; try (intros H; discriminate H). eauto.
Qed.

(** What [validateInput] throws is an [Error] that starts "Invalid
    input: ". *)
Lemma validateInput_throws_invalid_input s input e :
  Schemas.validateInput em s input = Thrown e ->
  exists detail, e = JsError ("Invalid input: " ++ detail).
Proof.
  unfold Schemas.validateInput. destruct (parse em s [] input) as [[|i errs] data].
  - intros H. discriminate H.
  - intros H. injection H as <-. eexists. reflexivity.
Qed.

End Validated.

(* ===================================================================== *)
(** ** The registry and the router *)
(* ===================================================================== *)

Lemma registered_names_are_routed :
  registered_names = map Handlers.tool_name Handlers.all_tools.
Proof. reflexivity. Qed.

Lemma tool_of_name_some (name : string) (t : tool) :
  Handlers.tool_of_name name = Some t -> name = Handlers.tool_name t.
Proof.
  unfold Handlers.tool_of_name. intros H. apply find_some in H.
  destruct H as [_ H]. apply String.eqb_eq in H. exact H.
Qed.

(** X1. The registry lists each tool once, and lists exactly the names
    the router knows: a listed name is routed to its handler, any other
    name is answered "Unknown tool: <name>" in an error envelope (one
    text segment, error flag set), with nothing done. *)
Theorem registry_matches_router (env : Env) (name : string) (args : json) (st : state) :
  NoDup registered_names
  /\ (In name registered_names ->
      exists t, name = Handlers.tool_name t
                /\ Handlers.handleToolCall env name args = Handlers.handler t env args)
  /\ (~ In name registered_names ->
      Index.callTool env name args st
      = ({| content := [{| type := "text"; text := "Unknown tool: " ++ name |}];
            isError := Some true |}, st)).
Proof.
  split; [|split].
  - unfold registered_names. cbn.
    repeat (constructor; [cbn; intuition discriminate|]). constructor.
  - rewrite registered_names_are_routed. intros Hin.
    apply in_map_iff in Hin. destruct Hin as [t [<- _]].
    exists t. split; [reflexivity|apply handleToolCall_known].
  - intros Hn. unfold Index.callTool, Handlers.handleToolCall.
    destruct (Handlers.tool_of_name name) as [t|] eqn:E; [|reflexivity].
    exfalso. apply Hn. rewrite registered_names_are_routed.
    rewrite (tool_of_name_some _ _ E). apply in_map.
    destruct t; cbn; auto 40.
Qed.

Lemma registry_matches_router_witness :
  Index.callTool sample_env "delete_everything" (JObj []) signed_in
  = ({| content := [{| type := "text"; text := "Unknown tool: delete_everything" |}];
        isError := Some true |}, signed_in).
Proof.
  refine (proj2 (proj2 (registry_matches_router sample_env "delete_everything"
                          (JObj []) signed_in)) _).
  unfold registered_names. cbn. intuition discriminate.
Defined.

Ltac pick_field :=
  repeat match goal with
         | |- _ \/ _ => first [left; reflexivity | right]
         end.

(** X2. An argument the registry lists as required is enforced by the
    schema the handler validates against: a record that lacks it fails
    validation, and zod reports "Required" at that key. *)
Theorem required_arguments_enforced
        (em : string -> bool) (d : Definitions.Tool) (k : string) (t : tool)
        (fields : list (string * json)) :
  In d Definitions.tools ->
  In k (Definitions.required d) ->
  Handlers.tool_name t = Definitions.name d ->
  lookup k fields = JUndefined ->
  exists s msg,
    schema_of t = Some s
    /\ Schemas.validateInput em s (JObj fields) = Thrown (JsError msg)
    /\ In {| Zod.path := [k]; Zod.message := "Required" |}
          (fst (Zod.parse em s [] (JObj fields))).
Proof.
  intros Hd Hk Ht Hl.
  assert (H : exists s, schema_of t = Some s
                        /\ In {| Zod.path := [k]; Zod.message := "Required" |}
                              (fst (Zod.parse em s [] (JObj fields)))).
  { unfold Definitions.tools in Hd. cbn [In] in Hd.
    repeat (destruct Hd as [<-|Hd]; [cbn [Definitions.required In] in Hk|]);
      try contradiction;
      repeat (destruct Hk as [<-|Hk]); try contradiction;
      cbn [Definitions.name] in Ht;
      destruct t; try discriminate Ht;
      (eexists; split; [reflexivity|]);
      match goal with
      | |- In _ (fst (Zod.parse _ ?s _ _)) =>
          let s' := eval hnf in s in change s with s'
      end;
      unfold z.object; rewrite object_issues; apply in_flat_map;
      match type of Hl with
      | lookup ?key _ = _ => eexists (key, _); split; [cbn [In]; pick_field|]
      end;
      cbn [fst snd List.app]; rewrite Hl; cbn; left; reflexivity. }
  destruct H as [s [Hs Hin]]. exists s.
  destruct (validateInput_fails em s (JObj fields)) as [msg Hm].
  { intros E. rewrite E in Hin. contradiction. }
  exists msg. auto.
Qed.

Lemma required_arguments_enforced_witness :
  exists msg,
    Schemas.validateInput (includes "@") Schemas.AppendToDocSchema
      (JObj [("document_id", JStr "doc1")]) = Thrown (JsError msg).
Proof.
  destruct (required_arguments_enforced (includes "@")
              {| Definitions.name := "append_to_doc";
                 Definitions.properties := [("document_id", "string"); ("text", "string")];
                 Definitions.required := ["document_id"; "text"] |}
              "text" append_to_doc [("document_id", JStr "doc1")])
    as [s [msg [Hs [Hm _]]]].
  - unfold Definitions.tools. cbn. auto 40.
  - cbn. auto.
  - reflexivity.
  - reflexivity.
  - injection Hs as <-. exists msg. exact Hm.
Defined.

(* ===================================================================== *)
(** ** The cache of credential and clients *)
(* ===================================================================== *)

Lemma persists_refl (c : cache) : persists c c.
Proof. unfold persists. auto. Qed.

Lemma stable_keeps_entries {A} (m : M A) : stable m -> keeps_entries m.
Proof. intros Hs st. rewrite Hs. apply persists_refl. Qed.

Lemma ensureAuth_cached (env : Env) (st : state) (a : GoogleAuth) :
  authInstance (cached st) = Some a ->
  Handlers.ensureAuth env st = (Returned a, st).
Proof.
  intros E. unfold Handlers.ensureAuth, bind, read_cache. rewrite E. reflexivity.
Qed.

(** [authenticate()] is recorded once and changes nothing else. *)
Lemma authenticate_run (env : Env) (st : state) :
  snd (Auth.authenticate env st)
  = {| cached := cached st; trace := (trace st ++ [EvAuthenticate])%list |}.
Proof.
  unfold Auth.authenticate, bind, log, lift, throw.
  destruct (credentials env) as [|e|j]; try reflexivity.
  destruct (Auth.getCredentialType j);
    [destruct (service_account_auth env j)|destruct (oauth_exchange env j)]; reflexivity.
Qed.

(** What [ensureAuth] does with nothing cached and a credential source
    present. *)
Lemma ensureAuth_first (env : Env) (st : state) :
  authInstance (cached st) = None ->
  Auth.isAuthenticated env = true ->
  Handlers.ensureAuth env st
  = match fst (Auth.authenticate env st) with
    | Returned a =>
        (Returned a,
         {| cached := {| authInstance := Some a;
                         meetService := meetService (cached st);
                         gmailService := gmailService (cached st);
                         docsService := docsService (cached st) |};
            trace := (trace st ++ [EvAuthenticate])%list |})
    | Thrown e =>
        (Thrown e, {| cached := cached st; trace := (trace st ++ [EvAuthenticate])%list |})
    end.
Proof.
  intros Hn Hi. unfold Handlers.ensureAuth, bind at 1, read_cache. rewrite Hn, Hi.
  unfold bind at 1. pose proof (authenticate_run env st) as Hr.
  destruct (Auth.authenticate env st) as [[a|e] st1]; cbn [fst snd] in *; subst st1;
    reflexivity.
Qed.

Section Entries.
Variable env : Env.

Lemma getMeetService_keeps_entries : keeps_entries (Handlers.getMeetService env).
Proof.
  intros st. unfold Handlers.getMeetService, bind at 1, read_cache.
  destruct (meetService (cached st)) as [s|] eqn:Hs; [apply persists_refl|].
  unfold bind at 1. pose proof (ensureAuth_effect env st) as He.
  destruct (authInstance (cached st)) as [a0|] eqn:Ha.
  - rewrite (ensureAuth_cached env st a0 Ha). cbn. unfold persists. cbn.
    rewrite Ha, Hs. repeat split; auto; intros; discriminate.
  - destruct (Handlers.ensureAuth env st) as [[a|e] st1]; cbn [snd].
    + destruct He as [H1 [H2 [H3 H4]]]. unfold persists. cbn.
      rewrite Ha, Hs, H3, H4. repeat split; auto; intros; discriminate.
    + rewrite He. apply persists_refl.
Qed.

Lemma getGmailService_keeps_entries : keeps_entries (Handlers.getGmailService env).
Proof.
  intros st. unfold Handlers.getGmailService, bind at 1, read_cache.
  destruct (gmailService (cached st)) as [s|] eqn:Hs; [apply persists_refl|].
  unfold bind at 1. pose proof (ensureAuth_effect env st) as He.
  destruct (authInstance (cached st)) as [a0|] eqn:Ha.
  - rewrite (ensureAuth_cached env st a0 Ha). cbn. unfold persists. cbn.
    rewrite Ha, Hs. repeat split; auto; intros; discriminate.
  - destruct (Handlers.ensureAuth env st) as [[a|e] st1]; cbn [snd].
    + destruct He as [H1 [H2 [H3 H4]]]. unfold persists. cbn.
      rewrite Ha, Hs, H2, H4. repeat split; auto; intros; discriminate.
    + rewrite He. apply persists_refl.
Qed.

Lemma getDocsService_keeps_entries : keeps_entries (Handlers.getDocsService env).
Proof.
  intros st. unfold Handlers.getDocsService, bind at 1, read_cache.
  destruct (docsService (cached st)) as [s|] eqn:Hs; [apply persists_refl|].
  unfold bind at 1. pose proof (ensureAuth_effect env st) as He.
  destruct (authInstance (cached st)) as [a0|] eqn:Ha.
  - rewrite (ensureAuth_cached env st a0 Ha). cbn. unfold persists. cbn.
    rewrite Ha, Hs. repeat split; auto; intros; discriminate.
  - destruct (Handlers.ensureAuth env st) as [[a|e] st1]; cbn [snd].
    + destruct He as [H1 [H2 [H3 H4]]]. unfold persists. cbn.
      rewrite Ha, Hs, H2, H3. repeat split; auto; intros; discriminate.
    + rewrite He. apply persists_refl.
Qed.

(** The state a wrapped handler ends in differs from the one its client
    was obtained in by the trace only. *)
Lemma wrapped_cache {S} (getService : M S) (handler : S -> M ToolResponse) (st : state) :
  (forall service, stable (handler service)) ->
  cached (snd (try_catch (service <- getService ;; handler service)
                         Handlers.on_auth_error st))
  = cached (snd (getService st)).
Proof.
  intros Hh. unfold try_catch, bind.
  destruct (getService st) as [[service|e] st1]; cbn [snd].
  - pose proof (Hh service st1) as H1.
    destruct (handler service st1) as [[r|e] st2]; cbn [snd] in *;
      rewrite ?on_auth_error_stable; exact H1.
  - apply on_auth_error_stable.
Qed.

Lemma handler_keeps_entries (t : tool) (args : json) :
  t <> authenticate_ -> keeps_entries (Handlers.handler t env args).
Proof.
  intros Ht. destruct t; try contradiction; cbn [Handlers.handler].
  1: apply stable_keeps_entries; unfold Handlers.handleAuthStatus; stable_tac.
  all: autounfold with handlers; intros st; rewrite wrapped_cache by stable_tac.
  all: first [ apply getMeetService_keeps_entries
             | apply getGmailService_keeps_entries
             | apply getDocsService_keeps_entries ].
Qed.

End Entries.

(** X3. No tool but [authenticate] replaces what is cached: a cached
    credential and each cached client are the same object after the call
    as before it, whatever the tool, its arguments and the answers of the
    world. *)
Theorem cached_entries_persist
        (env : Env) (t : tool) (args : json) (st : state) :
  t <> authenticate_ ->
  persists (cached st) (cached (snd (Index.callTool env (Handlers.tool_name t) args st))).
Proof.
  intros Ht. unfold Index.callTool. rewrite handleToolCall_known.
  pose proof (handler_keeps_entries env t args Ht st) as H.
  destruct (Handlers.handler t env args st) as [[r|e] st1]; exact H.
Qed.

Lemma cached_entries_persist_witness :
  authInstance
    (cached (snd (Index.callTool sample_env "send_email"
                    (JObj [("to", JStr "ana@example.com"); ("subject", JStr "Hi");
                           ("body", JStr "Hello")]) signed_in)))
  = Some sample_auth.
Proof.
  exact (proj1 (cached_entries_persist sample_env send_email
                  (JObj [("to", JStr "ana@example.com"); ("subject", JStr "Hi");
                         ("body", JStr "Hello")]) signed_in
                  ltac:(discriminate))
               sample_auth eq_refl).
Defined.

Section Bound.
Variable env : Env.

Lemma ensureAuth_returns_cached (st st1 : state) (a a0 : GoogleAuth) :
  authInstance (cached st) = Some a0 ->
  Handlers.ensureAuth env st = (Returned a, st1) -> a = a0.
Proof.
  intros Ha. rewrite (ensureAuth_cached env st a0 Ha). intros H. congruence.
Qed.

Lemma getMeetService_keeps_bound : keeps_bound (Handlers.getMeetService env).
Proof.
  intros st Hc Hb. unfold Handlers.getMeetService, bind at 1, read_cache.
  destruct (meetService (cached st)) as [s|] eqn:Hs; [exact Hb|].
  unfold bind at 1. pose proof (ensureAuth_effect env st) as He.
  destruct (Handlers.ensureAuth env st) as [[a|e] st1] eqn:E; cbn [snd];
    [|rewrite He; exact Hb].
  destruct He as [H1 [H2 [H3 H4]]]. cbn. intros a' Ha'. cbn in Ha'.
  rewrite H1 in Ha'. injection Ha' as <-. cbn. rewrite H3, H4.
  destruct (authInstance (cached st)) as [a0|] eqn:Ha.
  - pose proof (ensureAuth_returns_cached st st1 a a0 Ha E). subst a0.
    destruct (Hb a Ha) as [_ [Hg Hd]].
    repeat split; auto. intros s Es. injection Es as <-. reflexivity.
  - destruct (Hc Ha) as [_ [Hg Hd]]. rewrite Hg, Hd.
    repeat split; try (intros; discriminate). intros s Es. injection Es as <-. reflexivity.
Qed.

Lemma getGmailService_keeps_bound : keeps_bound (Handlers.getGmailService env).
Proof.
  intros st Hc Hb. unfold Handlers.getGmailService, bind at 1, read_cache.
  destruct (gmailService (cached st)) as [s|] eqn:Hs; [exact Hb|].
  unfold bind at 1. pose proof (ensureAuth_effect env st) as He.
  destruct (Handlers.ensureAuth env st) as [[a|e] st1] eqn:E; cbn [snd];
    [|rewrite He; exact Hb].
  destruct He as [H1 [H2 [H3 H4]]]. cbn. intros a' Ha'. cbn in Ha'.
  rewrite H1 in Ha'. injection Ha' as <-. cbn. rewrite H2, H4.
  destruct (authInstance (cached st)) as [a0|] eqn:Ha.
  - pose proof (ensureAuth_returns_cached st st1 a a0 Ha E). subst a0.
    destruct (Hb a Ha) as [Hm [_ Hd]].
    repeat split; auto. intros s Es. injection Es as <-. reflexivity.
  - destruct (Hc Ha) as [Hm [_ Hd]]. rewrite Hm, Hd.
    repeat split; try (intros; discriminate). intros s Es. injection Es as <-. reflexivity.
Qed.

Lemma getDocsService_keeps_bound : keeps_bound (Handlers.getDocsService env).
Proof.
  intros st Hc Hb. unfold Handlers.getDocsService, bind at 1, read_cache.
  destruct (docsService (cached st)) as [s|] eqn:Hs; [exact Hb|].
  unfold bind at 1. pose proof (ensureAuth_effect env st) as He.
  destruct (Handlers.ensureAuth env st) as [[a|e] st1] eqn:E; cbn [snd];
    [|rewrite He; exact Hb].
  destruct He as [H1 [H2 [H3 H4]]]. cbn. intros a' Ha'. cbn in Ha'.
  rewrite H1 in Ha'. injection Ha' as <-. cbn. rewrite H2, H3.
  destruct (authInstance (cached st)) as [a0|] eqn:Ha.
  - pose proof (ensureAuth_returns_cached st st1 a a0 Ha E). subst a0.
    destruct (Hb a Ha) as [Hm [Hg _]].
    repeat split; auto. intros s Es. injection Es as <-. reflexivity.
  - destruct (Hc Ha) as [Hm [Hg _]]. rewrite Hm, Hg.
    repeat split; try (intros; discriminate). intros s Es. injection Es as <-. reflexivity.
Qed.

Lemma handleAuthenticate_keeps_bound : keeps_bound (Handlers.handleAuthenticate env).
Proof.
  intros st Hc Hb. unfold Handlers.handleAuthenticate, try_catch, bind at 1.
  pose proof (authenticate_stable env st) as Hs.
  destruct (Auth.authenticate env st) as [[a|e] st1]; cbn [snd] in Hs.
  - cbn. intros a' Ha'. cbn in Ha'. injection Ha' as <-. cbn.
    repeat split; intros s Es; injection Es as <-; reflexivity.
  - cbn. rewrite Hs. exact Hb.
Qed.

Lemma handler_keeps_bound (t : tool) (args : json) :
  keeps_bound (Handlers.handler t env args).
Proof.
  destruct t; cbn [Handlers.handler].
  1: intros st _ Hb; unfold Handlers.handleAuthStatus; exact Hb.
  1: apply handleAuthenticate_keeps_bound.
  all: autounfold with handlers; intros st Hc Hb; rewrite wrapped_cache by stable_tac.
  all: first [ apply getMeetService_keeps_bound
             | apply getGmailService_keeps_bound
             | apply getDocsService_keeps_bound ]; assumption.
Qed.

End Bound.

(** X4. In every state the process can reach, each cached client is
    bound to the credential that is cached: no client of an earlier
    credential survives a re-authentication, and no client is built from
    anything but the cached credential. *)
Theorem clients_bound_to_cached_credential (st : state) :
  reachable st -> cache_bound (cached st).
Proof.
  induction 1 as [|env name args st Hr IH].
  - intros a Ha. discriminate Ha.
  - pose proof (reachable_coherent st Hr) as Hc.
    unfold Index.callTool, Handlers.handleToolCall.
    destruct (Handlers.tool_of_name name) as [t|]; [|exact IH].
    pose proof (handler_keeps_bound env t args st Hc IH) as H.
    destruct (Handlers.handler t env args st) as [[r|e] st1]; exact H.
Qed.

Lemma clients_bound_to_cached_credential_witness :
  cache_bound
    (cached (snd (Index.callTool expired_env "list_labels" JUndefined
                    (snd (Index.callTool service_account_env "authenticate" JUndefined
                            initial_state))))).
Proof.
  apply clients_bound_to_cached_credential.
  apply reachable_call. apply reachable_call. apply reachable_initial.
Defined.

Section Reuse.
Variable env : Env.

Lemma getMeetService_with_credential (st : state) (a : GoogleAuth) :
  authInstance (cached st) = Some a ->
  exists service st1,
    Handlers.getMeetService env st = (Returned service, st1) /\ trace st1 = trace st.
Proof.
  intros Ha. unfold Handlers.getMeetService, bind at 1, read_cache.
  destruct (meetService (cached st)) as [s|];
    [eexists; eexists; split; reflexivity|].
  unfold bind at 1. rewrite (ensureAuth_cached env st a Ha).
  eexists. eexists. split; reflexivity.
Qed.

Lemma getGmailService_with_credential (st : state) (a : GoogleAuth) :
  authInstance (cached st) = Some a ->
  exists service st1,
    Handlers.getGmailService env st = (Returned service, st1) /\ trace st1 = trace st.
Proof.
  intros Ha. unfold Handlers.getGmailService, bind at 1, read_cache.
  destruct (gmailService (cached st)) as [s|];
    [eexists; eexists; split; reflexivity|].
  unfold bind at 1. rewrite (ensureAuth_cached env st a Ha).
  eexists. eexists. split; reflexivity.
Qed.

Lemma getDocsService_with_credential (st : state) (a : GoogleAuth) :
  authInstance (cached st) = Some a ->
  exists service st1,
    Handlers.getDocsService env st = (Returned service, st1) /\ trace st1 = trace st.
Proof.
  intros Ha. unfold Handlers.getDocsService, bind at 1, read_cache.
  destruct (docsService (cached st)) as [s|];
    [eexists; eexists; split; reflexivity|].
  unfold bind at 1. rewrite (ensureAuth_cached env st a Ha).
  eexists. eexists. split; reflexivity.
Qed.

(** Once the client is there, a wrapped handler adds to the trace what
    its body adds. *)
Lemma wrapped_adds {S} P (getService : M S) (handler : S -> M ToolResponse)
      (st st1 : state) (service : S) :
  getService st = (Returned service, st1) ->
  (forall service, adds P (handler service)) ->
  exists more,
    trace (snd (try_catch (x <- getService ;; handler x) Handlers.on_auth_error st))
    = (trace st1 ++ more)%list /\ Forall P more.
Proof.
  intros Hg Hh. unfold try_catch, bind. rewrite Hg.
  destruct (Hh service st1) as [more [Hm Hf]]. exists more.
  destruct (handler service st1) as [[r|e] st2]; cbn [snd] in *;
    rewrite ?on_auth_error_state; auto.
Qed.

Lemma handler_reuses_credential (t : tool) (args : json) (st : state) (a : GoogleAuth) :
  t <> authenticate_ ->
  authInstance (cached st) = Some a ->
  exists more,
    trace (snd (Handlers.handler t env args st)) = (trace st ++ more)%list
    /\ Forall not_authenticate more.
Proof.
  intros Ht Ha. destruct t; try contradiction; cbn [Handlers.handler].
  1: exists []; cbn; rewrite app_nil_r; auto.
  all: autounfold with handlers.
  all: first
         [ destruct (getMeetService_with_credential st a Ha) as [service [st1 [Hg Hs]]]
         | fail ].
  all: first
         [ rewrite <- Hs; refine (wrapped_adds _ _ _ _ _ _ Hg _)
         | clear Hg Hs service st1;
           destruct (getGmailService_with_credential st a Ha) as [service [st1 [Hg Hs]]];
           rewrite <- Hs; refine (wrapped_adds _ _ _ _ _ _ Hg _)
         | clear Hg Hs service st1;
           destruct (getDocsService_with_credential st a Ha) as [service [st1 [Hg Hs]]];
           rewrite <- Hs; refine (wrapped_adds _ _ _ _ _ _ Hg _) ].
  all: adds_tac ltac:(unfold not_authenticate; discriminate).
Qed.

End Reuse.

(** X5. With a credential cached, no tool but [authenticate] calls
    [authenticate()] again: whatever such a call adds to the trace holds
    no authentication. *)
Theorem cached_credential_is_reused
        (env : Env) (t : tool) (args : json) (st : state) (a : GoogleAuth) :
  t <> authenticate_ ->
  authInstance (cached st) = Some a ->
  exists more,
    trace (snd (Index.callTool env (Handlers.tool_name t) args st))
    = (trace st ++ more)%list
    /\ ~ In EvAuthenticate more.
Proof.
  intros Ht Ha. unfold Index.callTool. rewrite handleToolCall_known.
  destruct (handler_reuses_credential env t args st a Ht Ha) as [more [Hm Hf]].
  exists more. split.
  - destruct (Handlers.handler t env args st) as [[r|e] st1]; exact Hm.
  - intros Hin. rewrite Forall_forall in Hf. exact (Hf _ Hin eq_refl).
Qed.

Lemma cached_credential_is_reused_witness :
  exists more,
    trace (snd (Index.callTool expired_env "list_emails" (JObj []) signed_in))
    = more /\ ~ In EvAuthenticate more.
Proof.
  destruct (cached_credential_is_reused expired_env list_emails (JObj []) signed_in
              sample_auth ltac:(discriminate) eq_refl) as [more [Hm Hn]].
  exists more. split; [exact Hm|exact Hn].
Defined.

Section FirstUse.
Variables (env : Env) (st : state).
Hypothesis no_credential : authInstance (cached st) = None.
Hypothesis has_source : Auth.isAuthenticated env = true.

Lemma getMeetService_first :
  meetService (cached st) = None ->
  Handlers.getMeetService env st
  = match fst (Auth.authenticate env st) with
    | Returned a =>
        (Returned {| meet_auth := a |},
         {| cached := {| authInstance := Some a;
                         meetService := Some {| meet_auth := a |};
                         gmailService := gmailService (cached st);
                         docsService := docsService (cached st) |};
            trace := (trace st ++ [EvAuthenticate])%list |})
    | Thrown e =>
        (Thrown e, {| cached := cached st; trace := (trace st ++ [EvAuthenticate])%list |})
    end.
Proof.
  intros Hs. unfold Handlers.getMeetService, bind at 1, read_cache. rewrite Hs.
  unfold bind at 1. rewrite (ensureAuth_first env st no_credential has_source).
  destruct (fst (Auth.authenticate env st)); reflexivity.
Qed.

Lemma getGmailService_first :
  gmailService (cached st) = None ->
  Handlers.getGmailService env st
  = match fst (Auth.authenticate env st) with
    | Returned a =>
        (Returned {| gmail_auth := a |},
         {| cached := {| authInstance := Some a;
                         meetService := meetService (cached st);
                         gmailService := Some {| gmail_auth := a |};
                         docsService := docsService (cached st) |};
            trace := (trace st ++ [EvAuthenticate])%list |})
    | Thrown e =>
        (Thrown e, {| cached := cached st; trace := (trace st ++ [EvAuthenticate])%list |})
    end.
Proof.
  intros Hs. unfold Handlers.getGmailService, bind at 1, read_cache. rewrite Hs.
  unfold bind at 1. rewrite (ensureAuth_first env st no_credential has_source).
  destruct (fst (Auth.authenticate env st)); reflexivity.
Qed.

Lemma getDocsService_first :
  docsService (cached st) = None ->
  Handlers.getDocsService env st
  = match fst (Auth.authenticate env st) with
    | Returned a =>
        (Returned {| docs_auth := a |},
         {| cached := {| authInstance := Some a;
                         meetService := meetService (cached st);
                         gmailService := gmailService (cached st);
                         docsService := Some {| docs_auth := a |} |};
            trace := (trace st ++ [EvAuthenticate])%list |})
    | Thrown e =>
        (Thrown e, {| cached := cached st; trace := (trace st ++ [EvAuthenticate])%list |})
    end.
Proof.
  intros Hs. unfold Handlers.getDocsService, bind at 1, read_cache. rewrite Hs.
  unfold bind at 1. rewrite (ensureAuth_first env st no_credential has_source).
  destruct (fst (Auth.authenticate env st)); reflexivity.
Qed.

(** A wrapped handler whose client cannot be obtained for another reason
    than a missing credential lets that reason through. *)
Lemma wrapped_throws {S} (getService : M S) (handler : S -> M ToolResponse)
      (e : exn) (st1 : state) :
  getService st = (Thrown e, st1) ->
  Handlers.is_not_authenticated e = false ->
  try_catch (x <- getService ;; handler x) Handlers.on_auth_error st = (Thrown e, st1).
Proof.
  intros Hg He. unfold try_catch, bind, Handlers.on_auth_error. rewrite Hg, He. reflexivity.
Qed.

Lemma wrapped_adds_after {S} P (getService : M S) (handler : S -> M ToolResponse)
      (st1 : state) (service : S) (ev : event) :
  getService st = (Returned service, st1) ->
  trace st1 = (trace st ++ [ev])%list ->
  (forall service, adds P (handler service)) ->
  exists more,
    trace (snd (try_catch (x <- getService ;; handler x) Handlers.on_auth_error st))
    = (trace st ++ ev :: more)%list /\ Forall P more.
Proof.
  intros Hg Ht Hh. destruct (wrapped_adds P _ _ _ _ _ Hg Hh) as [more [Hm Hf]].
  exists more. split; [|exact Hf].
  rewrite Hm, Ht, <- app_assoc. reflexivity.
Qed.

Lemma handler_first_use (t : tool) (args : json) :
  cache_coherent (cached st) ->
  requires_auth t = true ->
  match fst (Auth.authenticate env st) with
  | Returned a =>
      authInstance (cached (snd (Handlers.handler t env args st))) = Some a
      /\ client_binding t (cached (snd (Handlers.handler t env args st))) = Some a
      /\ exists more,
          trace (snd (Handlers.handler t env args st))
          = (trace st ++ EvAuthenticate :: more)%list
          /\ Forall not_authenticate more
  | Thrown e =>
      Handlers.is_not_authenticated e = false ->
      Handlers.handler t env args st
      = (Thrown e, {| cached := cached st; trace := (trace st ++ [EvAuthenticate])%list |})
  end.
Proof.
  intros Hc Ht. destruct (Hc no_credential) as [Hm [Hg Hd]].
  pose proof (getMeetService_first Hm) as Gm.
  pose proof (getGmailService_first Hg) as Gg.
  pose proof (getDocsService_first Hd) as Gd.
  destruct (fst (Auth.authenticate env st)) as [a|e].
  - destruct t; try discriminate Ht; cbn [Handlers.handler];
      autounfold with handlers; rewrite wrapped_cache by stable_tac;
      rewrite ?Gm, ?Gg, ?Gd; unfold client_binding; cbn [client_of snd cached
        authInstance meetService gmailService docsService option_map meet_auth
        gmail_auth docs_auth];
      (split; [reflexivity|split; [reflexivity|]]).
    all: first [ refine (wrapped_adds_after _ _ _ _ _ _ Gm eq_refl _)
               | refine (wrapped_adds_after _ _ _ _ _ _ Gg eq_refl _)
               | refine (wrapped_adds_after _ _ _ _ _ _ Gd eq_refl _) ].
    all: adds_tac ltac:(unfold not_authenticate; discriminate).
    all: adds_tac ltac:(unfold not_authenticate; discriminate).
  - intros He. destruct t; try discriminate Ht; cbn [Handlers.handler];
      autounfold with handlers;
      first [ exact (wrapped_throws _ _ _ _ Gm He)
            | exact (wrapped_throws _ _ _ _ Gg He)
            | exact (wrapped_throws _ _ _ _ Gd He) ].
Qed.

End FirstUse.

(** X6. The first tool call that needs a client, with no credential
    cached but a credential source on disk, calls [authenticate()] once,
    first of all.  When that returns a credential, the call caches it
    together with the one client the tool uses, bound to it; when it
    throws, nothing is cached and the protocol boundary answers
    "Error: <message>" in an error envelope (one text segment, error
    flag set). *)
Theorem first_use_authenticates_once
        (env : Env) (st : state) (t : tool) (args : json) :
  reachable st ->
  authInstance (cached st) = None ->
  Auth.isAuthenticated env = true ->
  requires_auth t = true ->
  match fst (Auth.authenticate env st) with
  | Returned a =>
      authInstance (cached (snd (Index.callTool env (Handlers.tool_name t) args st)))
      = Some a
      /\ client_binding t (cached (snd (Index.callTool env (Handlers.tool_name t) args st)))
         = Some a
      /\ exists more,
          trace (snd (Index.callTool env (Handlers.tool_name t) args st))
          = (trace st ++ EvAuthenticate :: more)%list
          /\ ~ In EvAuthenticate more
  | Thrown e =>
      Handlers.is_not_authenticated e = false ->
      Index.callTool env (Handlers.tool_name t) args st
      = ({| content := [{| type := "text"; text := "Error: " ++ exn_message e |}];
            isError := Some true |},
         {| cached := cached st; trace := (trace st ++ [EvAuthenticate])%list |})
  end.
Proof.
  intros Hr Hn Hi Ht.
  pose proof (handler_first_use env st Hn Hi t args (reachable_coherent st Hr) Ht) as H.
  unfold Index.callTool. rewrite handleToolCall_known.
  destruct (fst (Auth.authenticate env st)) as [a|e].
  - destruct H as [H1 [H2 [more [H3 H4]]]].
    destruct (Handlers.handler t env args st) as [[r|e] st1]; cbn [snd] in *;
      (split; [exact H1|split; [exact H2|]]); exists more; (split; [exact H3|]);
      intros Hin; rewrite Forall_forall in H4; exact (H4 _ Hin eq_refl).
  - intros He. rewrite (H He). reflexivity.
Qed.

Lemma first_use_authenticates_once_witness :
  authInstance (cached (snd (Index.callTool service_account_env "list_labels" JUndefined
                               initial_state)))
  = Some sample_auth
  /\ client_binding list_labels
       (cached (snd (Index.callTool service_account_env "list_labels" JUndefined
                       initial_state)))
     = Some sample_auth.
Proof.
  pose proof (first_use_authenticates_once service_account_env initial_state list_labels
                JUndefined reachable_initial eq_refl eq_refl eq_refl) as H.
  cbn in H. destruct H as [H1 [H2 _]]. split; [exact H1|exact H2].
Defined.

(* ===================================================================== *)
(** ** Further properties: arguments the schema refuses *)
(* ===================================================================== *)

Section Refused.
Variable env : Env.

Lemma validation_throws {B} (s : Zod.schema) (args : json) (e : exn)
      (k : json -> M B) (st : state) :
  Schemas.validateInput (is_email env) s args = Thrown e ->
  (data <- Handlers.validateInput env s args ;; k data) st
  = (Thrown e, {| cached := cached st; trace := (trace st ++ [EvValidate s args])%list |}).
Proof.
  intros E. unfold Handlers.validateInput, bind, log, lift. rewrite E. reflexivity.
Qed.

Lemma refused_after_client {S} (getService : M S) (service : S)
      (s : Zod.schema) (args : json) (detail : string)
      (k : S -> json -> M ToolResponse) (st : state) :
  getService st = (Returned service, st) ->
  Schemas.validateInput (is_email env) s args = Thrown (JsError ("Invalid input: " ++ detail)) ->
  try_catch (service <- getService ;;
             data <- Handlers.validateInput env s args ;; k service data)
            Handlers.on_auth_error st
  = (Thrown (JsError ("Invalid input: " ++ detail)),
     {| cached := cached st; trace := (trace st ++ [EvValidate s args])%list |}).
Proof.
  intros Hg Hv. rewrite (try_catch_after _ _ _ _ _ Hg).
  unfold try_catch. rewrite (validation_throws _ _ _ _ _ Hv). reflexivity.
Qed.

Lemma handler_refuses (t : tool) (s : Zod.schema) (args : json) (detail : string)
      (st : state) :
  schema_of t = Some s ->
  client_cached t (cached st) = true ->
  Schemas.validateInput (is_email env) s args = Thrown (JsError ("Invalid input: " ++ detail)) ->
  Handlers.handler t env args st
  = (Thrown (JsError ("Invalid input: " ++ detail)),
     {| cached := cached st; trace := (trace st ++ [EvValidate s args])%list |}).
Proof.
  intros Hs Hc Hv. unfold client_cached in Hc.
  destruct t; cbn in Hs; try discriminate Hs; injection Hs as <-;
    cbn [client_of] in Hc; cbn [Handlers.handler]; autounfold with handlers.
  all: first
         [ destruct (meetService (cached st)) as [service|] eqn:E; [|discriminate Hc];
           exact (refused_after_client _ _ _ _ _ _ _
                    (getMeetService_cached env st service E) Hv)
         | destruct (gmailService (cached st)) as [service|] eqn:E; [|discriminate Hc];
           exact (refused_after_client _ _ _ _ _ _ _
                    (getGmailService_cached env st service E) Hv)
         | destruct (docsService (cached st)) as [service|] eqn:E; [|discriminate Hc];
           exact (refused_after_client _ _ _ _ _ _ _
                    (getDocsService_cached env st service E) Hv) ].
Qed.

End Refused.

Lemma join_concat (sep : string) (parts : list string) :
  join sep parts = String.concat sep parts.
Proof.
  induction parts as [|p [|q rest] IH]; [reflexivity|reflexivity|].
  change (join sep (p :: q :: rest)) with (p ++ sep ++ join sep (q :: rest)).
  rewrite IH. reflexivity.
Qed.

Lemma format_issues_text (issues : list Zod.issue) :
  join ", " (map Schemas.format_issue issues) = issues_text issues.
Proof.
  unfold issues_text. rewrite join_concat. apply (f_equal (String.concat ", ")).
  apply map_ext. intros i. unfold Schemas.format_issue. rewrite join_concat. reflexivity.
Qed.

(** X7. Arguments the tool's schema refuses reach no Google API: with
    the tool's client cached, the call records the validation and
    nothing else, leaves the cache as it was, and answers with the error
    envelope (one text segment, error flag set) whose text is "Error:
    Invalid input: " followed by every issue as "<path>: <message>",
    joined by ", ". *)
Theorem refused_arguments_reach_no_api
        (env : Env) (t : tool) (s : Zod.schema) (args : json) (st : state) :
  schema_of t = Some s ->
  client_cached t (cached st) = true ->
  fst (Zod.parse (is_email env) s [] args) <> [] ->
  Index.callTool env (Handlers.tool_name t) args st
  = ({| content :=
          [{| type := "text";
              text := "Error: Invalid input: "
                      ++ issues_text (fst (Zod.parse (is_email env) s [] args)) |}];
        isError := Some true |},
     {| cached := cached st; trace := (trace st ++ [EvValidate s args])%list |}).
Proof.
  intros Hs Hc Hi. rewrite <- format_issues_text.
  destruct (fst (Zod.parse (is_email env) s [] args)) as [|i errs] eqn:E; [contradiction|].
  pose proof (validateInput_thrown _ _ _ _ _ E) as Hv.
  unfold Index.callTool. rewrite handleToolCall_known.
  rewrite (handler_refuses env t s args _ st Hs Hc Hv). reflexivity.
Qed.

Lemma refused_arguments_reach_no_api_witness :
  Index.callTool sample_env "get_doc" (JObj []) signed_in
  = ({| content := [{| type := "text";
                       text := "Error: Invalid input: document_id: Required" |}];
        isError := Some true |},
     {| cached := cached signed_in;
        trace := [EvValidate Schemas.GetDocSchema (JObj [])] |}).
Proof.
  exact (refused_arguments_reach_no_api sample_env get_doc Schemas.GetDocSchema (JObj [])
           signed_in eq_refl eq_refl ltac:(vm_compute; discriminate)).
Defined.

(* ===================================================================== *)
(** ** Further properties: mail *)
(* ===================================================================== *)

Section Outgoing.
Variable env : Env.

Lemma nonempty_text (v : string) : Nat.ltb (String.length v) 1 = false -> v <> EmptyString.
Proof. intros H ->. discriminate H. Qed.

(** What [SendEmailSchema] lets through. *)
Lemma validated_send_email (args data : json) :
  Schemas.validateInput (is_email env) Schemas.SendEmailSchema args = Returned data ->
  deliverable env (Handlers.email_params data).
Proof.
  intros H. unfold Schemas.SendEmailSchema in H.
  destruct (validated_is_record _ _ _ _ H) as [fields ->].
  assert (Hnd : NoDup (map fst [("to", z.string |> z.email (Some "Valid email address required"));
                                ("subject", z.string |> z.min_length 1 "Subject is required");
                                ("body", z.string |> z.min_length 1 "Email body is required");
                                ("cc", z.string |> z.optional);
                                ("bcc", z.string |> z.optional)])).
  { cbn. repeat constructor; cbn; intuition discriminate. }
  pose proof (validated_field _ _ _ _ "to" _ Hnd (or_introl eq_refl) H) as Hto.
  pose proof (validated_field _ _ _ _ "subject" _ Hnd (or_intror (or_introl eq_refl)) H)
    as Hsu.
  pose proof (validated_field _ _ _ _ "body" _ Hnd
                (or_intror (or_intror (or_introl eq_refl))) H) as Hbo.
  unfold deliverable, Handlers.email_params;
    cbn [Gmail.to Gmail.subject Gmail.body].
  repeat split.
  - destruct (lookup "to" fields) as [| |b|q|v|l|o]; cbn in Hto; try discriminate Hto.
    destruct (is_email env v) eqn:E; cbn in Hto; [|discriminate Hto].
    injection Hto as <-. exact E.
  - destruct (lookup "subject" fields) as [| |b|q|v|l|o]; cbn -[Nat.ltb] in Hsu; try discriminate Hsu.
    destruct (Nat.ltb (String.length v) 1) eqn:E; cbn in Hsu; [discriminate Hsu|].
    injection Hsu as <-. exact (nonempty_text v E).
  - destruct (lookup "body" fields) as [| |b|q|v|l|o]; cbn -[Nat.ltb] in Hbo; try discriminate Hbo.
    destruct (Nat.ltb (String.length v) 1) eqn:E; cbn in Hbo; [discriminate Hbo|].
    injection Hbo as <-. exact (nonempty_text v E).
Qed.

Lemma validateInput_returned (s : Zod.schema) (args data : json) (st st' : state) :
  Handlers.validateInput env s args st = (Returned data, st') ->
  Schemas.validateInput (is_email env) s args = Returned data.
Proof.
  unfold Handlers.validateInput, bind, log, lift.
  destruct (Schemas.validateInput (is_email env) s args); intros H;
    [injection H as -> _; reflexivity|discriminate H].
Qed.

Lemma sendEmail_adds (p : Gmail.SendEmailParams) :
  deliverable env p -> adds (validated_mail env) (Gmail.sendEmail env p).
Proof.
  intros H. unfold Gmail.sendEmail. cbv zeta.
  rewrite base64url_by_replacement. fold (mime_message p).
  adds_tac ltac:(exists p; split; [exact H|reflexivity]).
Qed.

Lemma createDraft_adds (p : Gmail.SendEmailParams) :
  deliverable env p -> adds (validated_mail env) (Gmail.createDraft env p).
Proof.
  intros H. unfold Gmail.createDraft. cbv zeta.
  rewrite base64url_by_replacement. fold (mime_message p).
  adds_tac ltac:(exists p; split; [exact H|reflexivity]).
Qed.

Lemma outgoing_handlers_add (args : json) :
  adds (validated_mail env) (Handlers.handleSendEmail env args)
  /\ adds (validated_mail env) (Handlers.handleCreateDraft env args).
Proof.
  split; autounfold with handlers; apply adds_try_catch;
    try (intros; apply adds_on_auth_error);
    (apply adds_bind; [apply adds_getGmailService; exact I|]); intros service;
    apply (adds_bind_post _ (fun data => deliverable env (Handlers.email_params data)));
    try (unfold Handlers.validateInput; adds_tac ltac:(exact I); fail);
    try (intros st a st' E; exact (validated_send_email _ _ (validateInput_returned _ _ _ _ _ E)));
    intros data Hd; cbv zeta; apply adds_bind;
    first [ apply sendEmail_adds; exact Hd | apply createDraft_adds; exact Hd
          | intros; apply adds_ret ].
Qed.

End Outgoing.

(** X8. Whatever [send_email] or [create_draft] hands to the mail API
    went through validation: every raw message the call adds to the
    trace encodes a message whose recipient passed the address check and
    whose subject and body are not empty. *)
Theorem outgoing_mail_was_validated (env : Env) (args : json) (st : state) :
  (exists more,
      trace (snd (Index.callTool env "send_email" args st)) = (trace st ++ more)%list
      /\ Forall (validated_mail env) more)
  /\ (exists more,
         trace (snd (Index.callTool env "create_draft" args st)) = (trace st ++ more)%list
         /\ Forall (validated_mail env) more).
Proof.
  split.
  - exact (adds_callTool _ env send_email args st (proj1 (outgoing_handlers_add env args))).
  - exact (adds_callTool _ env create_draft args st (proj2 (outgoing_handlers_add env args))).
Qed.

Section Fetching.
Variable env : Env.

Lemma getMessage_result (id : string) (st : state) :
  fst (Gmail.getMessage env id st)
  = match gmail_messages_get env id with
    | Returned m => Returned m
    | Thrown e => Thrown (JsError ("Failed to get message: " ++ exn_message e))
    end.
Proof.
  unfold Gmail.getMessage, failing_as, try_catch, call, bind, log, lift.
  destruct (gmail_messages_get env id); reflexivity.
Qed.

Lemma promise_all_getMessage_result (ids : list string) (st : state) :
  fst (Gmail.promise_all (map (fun id => Gmail.getMessage env id) ids) st)
  = match collect (map (gmail_messages_get env) ids) with
    | Returned l => Returned l
    | Thrown e => Thrown (JsError ("Failed to get message: " ++ exn_message e))
    end.
Proof.
  revert st. induction ids as [|id ids IH]; intros st; [reflexivity|].
  cbn [map Gmail.promise_all collect].
  pose proof (getMessage_result id st) as Hg.
  destruct (Gmail.getMessage env id st) as [[m|e] st1]; cbn [fst] in Hg;
    destruct (gmail_messages_get env id) as [m'|e']; try discriminate Hg.
  - injection Hg as ->. specialize (IH st1).
    destruct (Gmail.promise_all _ st1) as [[l|e] st2]; cbn [fst] in *;
      destruct (collect (map (gmail_messages_get env) ids)); try discriminate IH;
      congruence.
  - injection Hg as ->. reflexivity.
Qed.

Lemma collect_all {A} (outcomes : list (outcome A)) (values : list A) :
  outcomes = map (@Returned A) values -> collect outcomes = Returned values.
Proof.
  intros ->. induction values as [|v values IH]; [reflexivity|].
  cbn [map collect]. rewrite IH. reflexivity.
Qed.

Lemma collect_failure {A B} (f : B -> outcome A) (l : list B) :
  (exists b, In b l /\ exists e, f b = Thrown e) ->
  exists b e, In b l /\ f b = Thrown e /\ collect (map f l) = Thrown e.
Proof.
  induction l as [|b l IH]; intros [b0 [Hin [e0 He0]]]; [contradiction|].
  cbn [map collect]. destruct (f b) as [a|e] eqn:E.
  - destruct Hin as [->|Hin]; [congruence|].
    destruct (IH (ex_intro _ b0 (conj Hin (ex_intro _ e0 He0)))) as [b1 [e1 [H1 [H2 H3]]]].
    exists b1, e1. rewrite H3. repeat split; [right; exact H1|exact H2].
  - exists b, e. repeat split; [left; reflexivity|exact E].
Qed.

End Fetching.

(** X9. [listMessages] returns the listed messages fetched one by one,
    in the order the list call gave them.  When the list call fails, the
    error reads "Failed to list messages: <reason>"; when a fetch fails,
    the reason of a failing fetch comes back wrapped twice: "Failed to
    list messages: Failed to get message: <reason>". *)
Theorem listMessages_fetches_in_order
        (env : Env) (query : option string) (maxResults : option Z)
        (labelIds : option (list string)) (st : state) :
  match gmail_messages_list env (list_request query maxResults labelIds) with
  | Thrown e =>
      fst (Gmail.listMessages env query maxResults labelIds st)
      = Thrown (JsError ("Failed to list messages: " ++ exn_message e))
  | Returned listed =>
      (forall messages,
          map (gmail_messages_get env) (Gmail.or_default listed [])
          = map (@Returned json) messages ->
          fst (Gmail.listMessages env query maxResults labelIds st) = Returned messages)
      /\ ((exists id, In id (Gmail.or_default listed [])
                      /\ exists e, gmail_messages_get env id = Thrown e) ->
          exists id e,
            In id (Gmail.or_default listed [])
            /\ gmail_messages_get env id = Thrown e
            /\ fst (Gmail.listMessages env query maxResults labelIds st)
               = Thrown (JsError ("Failed to list messages: Failed to get message: "
                                  ++ exn_message e)))
  end.
Proof.
  assert (H : fst (Gmail.listMessages env query maxResults labelIds st)
              = match gmail_messages_list env (list_request query maxResults labelIds) with
                | Thrown e => Thrown (JsError ("Failed to list messages: " ++ exn_message e))
                | Returned listed =>
                    match collect (map (gmail_messages_get env) (Gmail.or_default listed []))
                    with
                    | Returned messages => Returned messages
                    | Thrown e =>
                        Thrown (JsError ("Failed to list messages: Failed to get message: "
                                         ++ exn_message e))
                    end
                end).
  { unfold Gmail.listMessages, failing_as, try_catch, call. cbv zeta.
    fold (list_request query maxResults labelIds).
    unfold bind at 1 2, log, lift.
    destruct (gmail_messages_list env (list_request query maxResults labelIds))
      as [listed|e]; [|reflexivity].
    unfold bind.
    match goal with
    | |- context [Gmail.promise_all ?ms ?s] =>
        pose proof (promise_all_getMessage_result env (Gmail.or_default listed []) s) as Hp;
        destruct (Gmail.promise_all ms s) as [[l|e] st2]
    end; cbn [fst] in *;
      destruct (collect (map (gmail_messages_get env) (Gmail.or_default listed [])));
      try discriminate Hp; injection Hp as ->; reflexivity. }
  rewrite H.
  destruct (gmail_messages_list env (list_request query maxResults labelIds))
    as [listed|e]; [|reflexivity].
  split.
  - intros messages Hm. rewrite (collect_all _ _ Hm). reflexivity.
  - intros Hf. destruct (collect_failure _ _ Hf) as [id [e [H1 [H2 H3]]]].
    exists id, e. rewrite H3. auto.
Qed.

Lemma listMessages_fetches_in_order_witness :
  fst (Gmail.listMessages sample_env None (Some 5%Z) None initial_state)
  = Returned [JObj [("id", JStr "m1")]; JObj [("id", JStr "m2")]].
Proof.
  exact (proj1 (listMessages_fetches_in_order sample_env None (Some 5%Z) None initial_state)
               [JObj [("id", JStr "m1")]; JObj [("id", JStr "m2")]] eq_refl).
Defined.

Section Reading.
Import GmailText.

Lemma first_plain_part_skips (before after : list json) (part : json) :
  forallb (fun p => negb (plain_with_data p)) before = true ->
  plain_with_data part = true ->
  first_plain_part (before ++ part :: after)%list = Some part.
Proof.
  intros Hb Hp. induction before as [|p before IH]; cbn [List.app first_plain_part].
  - unfold plain_with_data, part_data in Hp.
    destruct (get "mimeType" part); try discriminate Hp. rewrite Hp. reflexivity.
  - cbn [forallb] in Hb. apply andb_true_iff in Hb. destruct Hb as [Hp0 Hb].
    unfold plain_with_data, part_data in Hp0.
    destruct (get "mimeType" p); try exact (IH Hb).
    apply negb_true_iff in Hp0. rewrite Hp0. exact (IH Hb).
Qed.

Lemma first_plain_part_none (parts : list json) :
  forallb (fun p => negb (plain_with_data p)) parts = true ->
  first_plain_part parts = None.
Proof.
  induction parts as [|p parts IH]; [reflexivity|]. cbn [forallb first_plain_part].
  intros Hb. apply andb_true_iff in Hb. destruct Hb as [Hp0 Hb].
  unfold plain_with_data, part_data in Hp0.
  destruct (get "mimeType" p); try exact (IH Hb).
  apply negb_true_iff in Hp0. rewrite Hp0. exact (IH Hb).
Qed.

Lemma first_part_with_body_skips (before after : list json) (part : json) :
  forallb (fun p => negb (truthy (part_data p))) before = true ->
  truthy (part_data part) = true ->
  first_part_with_body (before ++ part :: after)%list = Some part.
Proof.
  intros Hb Hp. induction before as [|p before IH]; cbn [List.app first_part_with_body].
  - unfold part_data in Hp. rewrite Hp. reflexivity.
  - cbn [forallb] in Hb. apply andb_true_iff in Hb. destruct Hb as [Hp0 Hb].
    apply negb_true_iff in Hp0. unfold part_data in Hp0. rewrite Hp0. exact (IH Hb).
Qed.

End Reading.

(** X10. [getMessageBody] prefers plain text: in a message whose payload
    carries no text of its own, the first text/plain part that carries
    text is the one decoded, whatever parts with text come before it. *)
Theorem plain_text_part_is_preferred
        (bufferText : string -> string) (message : json)
        (before after : list json) (part : json) (data : string) :
  truthy (part_data (get "payload" message)) = false ->
  get "parts" (get "payload" message) = JArr (before ++ part :: after)%list ->
  forallb (fun p => negb (plain_with_data p)) before = true ->
  get "mimeType" part = JStr "text/plain" ->
  part_data part = JStr data ->
  data <> EmptyString ->
  GmailText.getMessageBody bufferText message = bufferText data.
Proof.
  intros Hbody Hparts Hbefore Hmime Hdata Hne.
  assert (Ht : str_truthy data = true).
  { unfold str_truthy. apply negb_true_iff, String.eqb_neq. exact Hne. }
  assert (Hp : plain_with_data part = true).
  { unfold plain_with_data. rewrite Hmime, Hdata. exact Ht. }
  unfold GmailText.getMessageBody. cbv zeta. unfold part_data in Hbody.
  rewrite Hbody, Hparts, (first_plain_part_skips _ _ _ Hbefore Hp).
  unfold part_data in Hdata. rewrite Hdata. unfold GmailText.decodeBody.
  rewrite Ht. reflexivity.
Qed.

Lemma plain_text_part_is_preferred_witness :
  GmailText.getMessageBody decode_base64url sample_multipart = "Hi".
Proof.
  exact (plain_text_part_is_preferred decode_base64url sample_multipart
           [JObj [("mimeType", JStr "text/html");
                  ("body", JObj [("data", JStr "PGI-SGk8L2I-")])]]
           []
           (JObj [("mimeType", JStr "text/plain"); ("body", JObj [("data", JStr "SGk")])])
           "SGk" eq_refl eq_refl eq_refl eq_refl eq_refl ltac:(discriminate)).
Defined.

(** X11. Without a text/plain part that carries text, [getMessageBody]
    falls back to the first part that carries any text, in part order;
    with no such part either, the body is the empty string. *)
Theorem body_falls_back_to_first_part_with_text
        (bufferText : string -> string) (message : json) (parts : list json) :
  truthy (part_data (get "payload" message)) = false ->
  get "parts" (get "payload" message) = JArr parts ->
  forallb (fun p => negb (plain_with_data p)) parts = true ->
  (forall before part after data,
      parts = (before ++ part :: after)%list ->
      forallb (fun p => negb (truthy (part_data p))) before = true ->
      part_data part = JStr data -> data <> EmptyString ->
      GmailText.getMessageBody bufferText message = bufferText data)
  /\ (forallb (fun p => negb (truthy (part_data p))) parts = true ->
      GmailText.getMessageBody bufferText message = EmptyString).
Proof.
  intros Hbody Hparts Hplain. unfold part_data in Hbody.
  unfold GmailText.getMessageBody. cbv zeta.
  rewrite Hbody, Hparts, (first_plain_part_none _ Hplain). split.
  - intros before part after data -> Hbefore Hdata Hne.
    assert (Ht : str_truthy data = true).
    { unfold str_truthy. apply negb_true_iff, String.eqb_neq. exact Hne. }
    rewrite (first_part_with_body_skips before after part Hbefore)
      by (rewrite Hdata; exact Ht).
    unfold part_data in Hdata. rewrite Hdata. unfold GmailText.decodeBody.
    rewrite Ht. reflexivity.
  - intros Hnone.
    assert (H : GmailText.first_part_with_body parts = None).
    { clear Hparts Hplain. induction parts as [|p parts IH]; [reflexivity|].
      cbn [forallb GmailText.first_part_with_body] in *.
      apply andb_true_iff in Hnone. destruct Hnone as [Hp Hn].
      apply negb_true_iff in Hp. unfold part_data in Hp. rewrite Hp. exact (IH Hn). }
    rewrite H. reflexivity.
Qed.

Lemma body_falls_back_to_first_part_with_text_witness :
  GmailText.getMessageBody decode_base64url
    (JObj [("payload",
            JObj [("parts",
                   JArr [JObj [("mimeType", JStr "image/png"); ("body", JObj [])];
                         JObj [("mimeType", JStr "text/html");
                               ("body", JObj [("data", JStr "SGk")])]])])])
  = "Hi".
Proof.
  exact (proj1 (body_falls_back_to_first_part_with_text decode_base64url
                  (JObj [("payload",
                          JObj [("parts",
                                 JArr [JObj [("mimeType", JStr "image/png"); ("body", JObj [])];
                                       JObj [("mimeType", JStr "text/html");
                                             ("body", JObj [("data", JStr "SGk")])]])])])
                  _ eq_refl eq_refl eq_refl)
               [JObj [("mimeType", JStr "image/png"); ("body", JObj [])]]
               (JObj [("mimeType", JStr "text/html"); ("body", JObj [("data", JStr "SGk")])])
               [] "SGk" eq_refl eq_refl eq_refl ltac:(discriminate)).
Defined.

(* ===================================================================== *)
(** ** Further properties: the page size of list requests *)
(* ===================================================================== *)

Section PageSize.
Variable env : Env.

Lemma limit_parsed_in_range (em : string -> bool) (b : Z) (p : list string) (v v' : json) :
  (10 <= b)%Z ->
  Zod.parse em (limit_schema b) p v = ([], v') ->
  (1 <= to_Z v' <= b)%Z.
Proof.
  intros Hb. destruct v as [| |x|q|x|x|x]; try (cbn; intros H; discriminate H).
  - rewrite limit_defaulted by exact Hb. intros H. injection H as <-. cbn. lia.
  - cbn [Zod.parse limit_schema z.default z.optional z.max z.min z.int z.number
                   List.app flat_map Zod.number_issue].
    destruct (is_integer q) eqn:Ei; [|cbn; intros H; discriminate H].
    destruct (Qle_bool (inject_Z 1) q) eqn:E1; [|cbn; intros H; discriminate H].
    destruct (Qle_bool q (inject_Z b)) eqn:E2; [|cbn; intros H; discriminate H].
    cbn [List.app]. intros H. injection H as <-. cbn [to_Z].
    apply Qle_bool_iff in E1, E2. unfold Qle in E1, E2. cbn in E1, E2.
    unfold is_integer in Ei. apply Z.eqb_eq in Ei.
    destruct q as [n d]. cbn [Qnum Qden] in *.
    pose proof (Z.div_mod n (Zpos d) ltac:(lia)) as Hdm. rewrite Ei in Hdm.
    assert (Hpos : (0 < Zpos d)%Z) by lia.
    split; nia.
Qed.

(** What any schema of the server with a [limit] field lets through. *)
Lemma validated_limit (b : Z) (shape : list (string * Zod.schema)) (args data : json)
      (st st' : state) :
  (10 <= b)%Z ->
  NoDup (map fst shape) ->
  In ("limit", limit_schema b) shape ->
  Handlers.validateInput env (z.object shape) args st = (Returned data, st') ->
  (1 <= to_Z (get "limit" data) <= b)%Z.
Proof.
  intros Hb Hnd Hin H. apply validateInput_returned in H.
  destruct (validated_is_record _ _ _ _ H) as [fields ->].
  exact (limit_parsed_in_range _ b _ _ _ Hb (validated_field _ _ _ _ _ _ Hnd Hin H)).
Qed.

Ltac two_keys := cbn; repeat constructor; cbn; intuition discriminate.

Ltac listing b :=
  autounfold with handlers; apply adds_try_catch;
  [|intros; apply adds_on_auth_error];
  apply adds_bind;
  [first [apply adds_getMeetService | apply adds_getGmailService | apply adds_getDocsService];
   exact I|];
  intros service;
  apply (adds_bind_post _ (fun data => (1 <= to_Z (get "limit" data) <= b)%Z));
  [ unfold Handlers.validateInput; adds_tac ltac:(exact I)
  | intros st a st' E;
    refine (validated_limit b _ _ _ _ _ ltac:(lia) _ _ E);
    [two_keys | cbn; auto]
  | intros data Hd; cbv zeta;
    adds_tac ltac:(first [exact Hd | exists (to_Z (get "limit" data)); split; [exact Hd|reflexivity] | exact I]) ].

Lemma handler_page_bounded (t : tool) (args : json) :
  adds page_bounded (Handlers.handler t env args).
Proof.
  destruct t; cbn [Handlers.handler].
  all: try (unfold Handlers.handleAuthStatus, Handlers.handleAuthenticate,
              Handlers.set_authInstance, Handlers.set_meetService,
              Handlers.set_gmailService, Handlers.set_docsService, Auth.authenticate;
            adds_tac ltac:(exact I); fail).
  all: try (listing 100%Z; fail).
  all: try (listing 50%Z; fail).
  all: autounfold with handlers; apply adds_try_catch;
    [|intros; apply adds_on_auth_error];
    (apply adds_bind;
     [first [apply adds_getMeetService | apply adds_getGmailService
            | apply adds_getDocsService]; exact I|]);
    adds_tac ltac:(exact I).
Qed.

End PageSize.

(** X12. No tool call asks Gmail, Drive or Calendar for a page outside
    the declared bounds: every [messages.list] and [files.list] request
    a call makes carries a page size from 1 to 50, and every
    [events.list] request twice a limit from 1 to 100, whatever the
    arguments. *)
Theorem list_requests_stay_within_bounds
        (env : Env) (t : tool) (args : json) (st : state) :
  exists more,
    trace (snd (Index.callTool env (Handlers.tool_name t) args st))
    = (trace st ++ more)%list
    /\ Forall page_bounded more.
Proof.
  exact (adds_callTool _ env t args st (handler_page_bounded env t args)).
Qed.

(* ===================================================================== *)
(** ** Further properties: the raw message can be read back *)
(* ===================================================================== *)

Section Lossless.
Import Base64.

Ltac sextet_lt :=
  first [ apply sextet1_bound; apply nat_of_ascii_bound
        | apply sextet2_bound; first [apply nat_of_ascii_bound | lia]
        | apply sextet3_bound; first [apply nat_of_ascii_bound | lia]
        | apply sextet4_bound ].

Lemma digit_value_digit (n : nat) :
  (n < 64)%nat -> digit_value (digit url_safe n) = n.
Proof.
  intros H. do 64 (destruct n as [|n]; [reflexivity|]). lia.
Qed.

Lemma first_byte (a b : nat) :
  (b < 256)%nat -> (sextet1 a * 4 + sextet2 a b / 16 = a)%nat.
Proof.
  intros H. unfold sextet1, sextet2.
  rewrite Nat.div_add_l by lia.
  assert (b / 16 < 16)%nat by (apply Nat.Div0.div_lt_upper_bound; lia).
  rewrite (Nat.div_small (b / 16) 16) by lia.
  pose proof (Nat.div_mod_eq a 4). lia.
Qed.

Lemma second_byte (a b c : nat) :
  (b < 256)%nat -> (c < 256)%nat ->
  ((sextet2 a b mod 16) * 16 + sextet3 b c / 4 = b)%nat.
Proof.
  intros Hb Hc. unfold sextet2, sextet3.
  assert (b / 16 < 16)%nat by (apply Nat.Div0.div_lt_upper_bound; lia).
  assert (c / 64 < 4)%nat by (apply Nat.Div0.div_lt_upper_bound; lia).
  rewrite (Nat.add_comm (a mod 4 * 16)), Nat.Div0.mod_add, (Nat.mod_small (b / 16)) by lia.
  rewrite Nat.div_add_l, (Nat.div_small (c / 64) 4) by lia.
  pose proof (Nat.div_mod_eq b 16). lia.
Qed.

Lemma third_byte (b c : nat) :
  (c < 256)%nat -> ((sextet3 b c mod 4) * 64 + sextet4 c = c)%nat.
Proof.
  intros Hc. unfold sextet3, sextet4.
  assert (c / 64 < 4)%nat by (apply Nat.Div0.div_lt_upper_bound; lia).
  rewrite (Nat.add_comm (b mod 16 * 4)), Nat.Div0.mod_add, (Nat.mod_small (c / 64)) by lia.
  pose proof (Nat.div_mod_eq c 64). lia.
Qed.

Lemma decode_encode (bytes : string) :
  decode_base64url (base64url_unpadded bytes) = bytes.
Proof.
  unfold base64url_unpadded.
  induction bytes as [|a|a b|a b c rest IH] using string_ind3.
  - reflexivity.
  - cbn [encode padding decode_base64url].
    pose proof (nat_of_ascii_bound a).
    rewrite !digit_value_digit by sextet_lt.
    rewrite first_byte, ascii_nat_embedding by lia. reflexivity.
  - cbn [encode padding decode_base64url].
    pose proof (nat_of_ascii_bound a). pose proof (nat_of_ascii_bound b).
    rewrite !digit_value_digit by sextet_lt.
    rewrite first_byte, second_byte, !ascii_nat_embedding by lia. reflexivity.
  - cbn [encode].
    pose proof (nat_of_ascii_bound a). pose proof (nat_of_ascii_bound b).
    pose proof (nat_of_ascii_bound c).
    cbn [decode_base64url].
    rewrite !digit_value_digit by sextet_lt.
    rewrite first_byte, second_byte, third_byte, !ascii_nat_embedding by lia.
    rewrite IH. reflexivity.
Qed.

Lemma encode_url_safe (bytes : string) :
  url_safe_text (base64url_unpadded bytes) = true.
Proof.
  unfold base64url_unpadded.
  induction bytes as [|a|a b|a b c rest IH] using string_ind3;
    cbn [encode padding url_safe_text];
    rewrite ?digit_value_digit by sextet_lt;
    rewrite ?IH;
    repeat match goal with
           | |- context [Nat.ltb ?n 64] =>
               replace (Nat.ltb n 64) with true
                 by (symmetry; apply Nat.ltb_lt; sextet_lt)
           end; reflexivity.
Qed.

End Lossless.

(** X13. The raw text [sendEmail] hands to Gmail loses nothing and
    needs no escaping: read back as unpadded base64url it gives the
    bytes of the message again, and it holds only the 64 URL-safe digits
    (no "+", "/" or "="). *)
Theorem raw_message_reads_back (env : Env) (p : Gmail.SendEmailParams) (st : state) :
  exists raw,
    trace (snd (Gmail.sendEmail env p st)) = (trace st ++ [EvGmailMessagesSend raw])%list
    /\ decode_base64url raw = mime_message p
    /\ url_safe_text raw = true.
Proof.
  exists (raw_of (mime_message p)). split.
  - unfold Gmail.sendEmail, failing_as, try_catch, call, bind, log, lift.
    cbv zeta. fold (mime_message p). fold (raw_of (mime_message p)).
    destruct (gmail_messages_send env _); reflexivity.
  - unfold raw_of. rewrite !base64url_by_replacement.
    split; [apply decode_encode|apply encode_url_safe].
Qed.

(* ===================================================================== *)
(** ** Further properties: documents *)
(* ===================================================================== *)

(** X14. [createDocument] can fail after the document exists: when the
    create call returned an id and content was given, a failure to read
    the new document back is reported as a failure to create it, its
    reason wrapped three times, although [documents.create] was
    called and answered. *)
Theorem createDocument_fails_after_creating
        (env : Env) (title text documentId : string) (data : json) (e : exn) (st : state) :
  docs_documents_create env title = Returned data ->
  get "documentId" data = JStr documentId ->
  documentId <> EmptyString ->
  text <> EmptyString ->
  docs_documents_get env documentId = Thrown e ->
  Docs.createDocument env title (Some text) st
  = (Thrown (JsError ("Failed to create document: Failed to append text: "
                      ++ "Failed to get document: " ++ exn_message e)),
     {| cached := cached st;
        trace := (trace st ++ [EvDocsCreate title; EvDocsGet documentId])%list |}).
Proof.
  intros Hc Hid Hne Ht Hg.
  assert (T1 : str_truthy text = true)
    by (unfold str_truthy; apply negb_true_iff, String.eqb_neq; exact Ht).
  assert (T2 : str_truthy documentId = true)
    by (unfold str_truthy; apply negb_true_iff, String.eqb_neq; exact Hne).
  unfold Docs.createDocument, failing_as, try_catch, call.
  unfold bind at 1 2, log, lift. rewrite Hc, Hid, T1, T2. cbn [andb].
  unfold bind at 1, Docs.appendText, failing_as, try_catch.
  unfold bind at 1, Docs.getDocument, failing_as, try_catch, call, bind, log, lift.
  rewrite Hg. cbn [throw trace cached exn_message]. rewrite <- app_assoc. reflexivity.
Qed.

Lemma createDocument_fails_after_creating_witness :
  Docs.createDocument unreadable_docs_env "Notes" (Some "First line") initial_state
  = (Thrown (JsError ("Failed to create document: Failed to append text: "
                      ++ "Failed to get document: The caller does not have permission")),
     {| cached := empty_cache; trace := [EvDocsCreate "Notes"; EvDocsGet "doc1"] |}).
Proof.
  exact (createDocument_fails_after_creating unreadable_docs_env "Notes" "First line" "doc1"
           (JObj [("documentId", JStr "doc1")]) _ initial_state
           eq_refl eq_refl ltac:(discriminate) ltac:(discriminate) eq_refl).
Defined.

Section Text.

Lemma concat_app (l1 l2 : list string) :
  String.concat EmptyString (l1 ++ l2)%list
  = String.concat EmptyString l1 ++ String.concat EmptyString l2.
Proof.
  induction l1 as [|x l1 IH]; [reflexivity|].
  cbn [List.app]. destruct l1 as [|y l1].
  - cbn [List.app String.concat]. destruct l2 as [|z l2]; cbn [String.concat].
    + clear IH. induction x as [|c x IHx]; cbn; [reflexivity|f_equal; exact IHx].
    + reflexivity.
  - cbn [List.app String.concat] in *. rewrite IH.
    cbn [String.append]. rewrite append_assoc. reflexivity.
Qed.

End Text.

(** X15. [extractTextFromDoc] reads a document element by element: the
    text of a body is the text of its first elements followed by the
    text of the rest, and an element that is no paragraph (a table, a
    section break) adds nothing. *)
Theorem document_text_is_elementwise (before after : list json) (element : json) :
  Docs.extractTextFromDoc (document_of (before ++ after))
  = Docs.extractTextFromDoc (document_of before)
    ++ Docs.extractTextFromDoc (document_of after)
  /\ (no_paragraph element = true ->
      Docs.extractTextFromDoc (document_of (before ++ element :: after))
      = Docs.extractTextFromDoc (document_of (before ++ after))).
Proof.
  unfold Docs.extractTextFromDoc, document_of.
  cbn [get lookup String.eqb Ascii.eqb Bool.eqb].
  split.
  - rewrite flat_map_app. apply concat_app.
  - intros Hn. rewrite !flat_map_app. cbn [flat_map].
    unfold no_paragraph in Hn.
    destruct (get "elements" (get "paragraph" element)); try discriminate Hn; reflexivity.
Qed.

Lemma document_text_is_elementwise_witness :
  Docs.extractTextFromDoc
    (document_of
       ([JObj [("paragraph",
                JObj [("elements", JArr [JObj [("textRun", JObj [("content", JStr "Agenda")])]])])]]
          ++ JObj [("sectionBreak", JObj [])] :: []))
  = "Agenda".
Proof.
  exact (proj2 (document_text_is_elementwise
                  [JObj [("paragraph",
                          JObj [("elements",
                                 JArr [JObj [("textRun", JObj [("content", JStr "Agenda")])]])])]]
                  [] (JObj [("sectionBreak", JObj [])]))
               eq_refl).
Defined.

Section GetDoc.
Variable env : Env.



End GetDoc.



Section Replace.
Variable env : Env.

Lemma validated_replacement (fields : list (string * json)) (data : json) (st st' : state) :
  lookup "match_case" fields = JUndefined ->
  Handlers.validateInput env Schemas.ReplaceInDocSchema (JObj fields) st
  = (Returned data, st') ->
  truthy (get "match_case" data) = false
  /\ to_string (get "search_text" data) <> EmptyString.
Proof.
  intros Hm H. apply validateInput_returned in H. unfold Schemas.ReplaceInDocSchema in H.
  assert (Hnd : NoDup (map fst
                         [("document_id", z.string |> z.min_length 1 "Document ID is required");
                          ("search_text", z.string |> z.min_length 1 "Search text is required");
                          ("replace_text", z.string);
                          ("match_case", z.boolean |> z.optional |> z.default (JBool false))])).
  { cbn. repeat constructor; cbn; intuition discriminate. }
  pose proof (validated_field _ _ _ _ "search_text" _ Hnd (or_intror (or_introl eq_refl)) H)
    as Hs.
  pose proof (validated_field _ _ _ _ "match_case" _ Hnd
                (or_intror (or_intror (or_intror (or_introl eq_refl)))) H) as Hc.
  rewrite Hm in Hc. cbn in Hc. injection Hc as <-. split; [reflexivity|].
  destruct (lookup "search_text" fields) as [| |b|q|v|l|o];
    cbn -[Nat.ltb] in Hs; try discriminate Hs.
  destruct (Nat.ltb (String.length v) 1) eqn:E; cbn in Hs; [discriminate Hs|].
  injection Hs as Hs. rewrite <- Hs. cbn [to_string]. intros ->. discriminate E.
Qed.

Lemma handleReplaceInDoc_adds (fields : list (string * json)) :
  lookup "match_case" fields = JUndefined ->
  adds replaces_any_case (Handlers.handleReplaceInDoc env (JObj fields)).
Proof.
  intros Hm. autounfold with handlers. apply adds_try_catch;
    [|intros; apply adds_on_auth_error].
  apply adds_bind; [apply adds_getDocsService; exact I|]. intros service.
  apply (adds_bind_post _ (fun data => truthy (get "match_case" data) = false
                                       /\ to_string (get "search_text" data) <> EmptyString)).
  - unfold Handlers.validateInput. adds_tac ltac:(exact I).
  - intros st a st' E. exact (validated_replacement fields a st st' Hm E).
  - intros data Hd. cbv zeta. adds_tac ltac:(exact Hd).
Qed.

End Replace.

(** X17. [replace_in_doc] leaves the case of letters aside unless told
    otherwise, and never asks to replace the empty text: called without
    [match_case], every replacement request it sends has [matchCase]
    false and a search text that is not empty. *)
Theorem replace_in_doc_ignores_case_by_default
        (env : Env) (fields : list (string * json)) (st : state) :
  lookup "match_case" fields = JUndefined ->
  exists more,
    trace (snd (Index.callTool env "replace_in_doc" (JObj fields) st))
    = (trace st ++ more)%list
    /\ Forall replaces_any_case more.
Proof.
  intros Hm.
  exact (adds_callTool _ env replace_in_doc (JObj fields) st
           (handleReplaceInDoc_adds env fields Hm)).
Qed.

Lemma replace_in_doc_ignores_case_by_default_witness :
  exists more,
    trace (snd (Index.callTool sample_env "replace_in_doc"
                  (JObj [("document_id", JStr "doc1"); ("search_text", JStr "draft");
                         ("replace_text", JStr "final")]) signed_in))
    = more
    /\ Forall replaces_any_case more.
Proof.
  exact (replace_in_doc_ignores_case_by_default sample_env
           [("document_id", JStr "doc1"); ("search_text", JStr "draft");
            ("replace_text", JStr "final")] signed_in eq_refl).
Defined.

Section Quotes.



End Quotes.



(* ===================================================================== *)
(** ** Further properties: calendar invitations *)
(* ===================================================================== *)

Section Invitations.
Variable env : Env.

Lemma parse_array (em : string -> bool) (element : Zod.schema) (p : list string)
      (items : list json) :
  Zod.parse em (Zod.ZArray element) p (JArr items)
  = let '(errs, vs) := array_items em element p 0 items in (errs, JArr vs).
Proof.
  cbn [Zod.parse].
  match goal with
  | |- (let '(_, _) := ?each 0%nat items in _) = _ =>
      assert (H : forall xs i, each i xs = array_items em element p i xs)
  end.
  { induction xs as [|x xs IH]; intros i; [reflexivity|].
    cbn [array_items]. rewrite <- IH. reflexivity. }
  rewrite H. reflexivity.
Qed.

Lemma array_items_checked (em : string -> bool) (p : list string) (xs : list json) :
  forall i vs,
    array_items em (z.string |> z.email None) p i xs = ([], vs) ->
    Forall (checked_address em) vs.
Proof.
  induction xs as [|x xs IH]; intros i vs H.
  - injection H as <-. constructor.
  - cbn [array_items] in H.
    destruct (Zod.parse em (z.string |> z.email None) (p ++ [dec (Z.of_nat i)])%list x)
      as [e1 v] eqn:E1.
    destruct (array_items em (z.string |> z.email None) p (S i) xs) as [e2 vs'] eqn:E2.
    injection H as He <-. apply app_eq_nil in He. destruct He as [-> ->].
    constructor; [|exact (IH _ _ E2)].
    destruct x as [| |b|q|s|l|o]; cbn in E1; try discriminate E1.
    destruct (em s) eqn:Es; cbn in E1; [|discriminate E1].
    injection E1 as <-. exists s. auto.
Qed.

Lemma calendar_shape_keys :
  NoDup (map fst
    [("summary", z.string |> z.min_length 1 "Event title is required");
     ("description", z.string |> z.optional);
     ("start_time", z.string |> z.min_length 1
        "Start time is required (e.g., '2024-01-30 14:00' or ISO format)");
     ("end_time", z.string |> z.optional);
     ("duration_minutes",
        z.number |> z.int |> z.min 5 |> z.max 480 |> z.optional |> z.default (Schemas.num 60));
     ("attendees", z.array (z.string |> z.email None) |> z.optional);
     ("location", z.string |> z.optional);
     ("timezone", z.string |> z.optional |> z.default (JStr "Asia/Kolkata"));
     ("add_meet_link", z.boolean |> z.optional |> z.default (JBool true))]).
Proof. cbn. repeat constructor; cbn; intuition discriminate. Qed.

Ltac nth_field n :=
  match n with
  | O => exact (or_introl eq_refl)
  | S ?m => apply or_intror; nth_field m
  end.

(** What [CreateCalendarEventSchema] lets through. *)
Lemma validated_invitation (args data : json) (st st' : state) :
  Handlers.validateInput env Schemas.CreateCalendarEventSchema args st
  = (Returned data, st') ->
  Meet.summary (Handlers.calendar_params data) <> EmptyString
  /\ (forall guests a,
         Meet.attendees (Handlers.calendar_params data) = Some guests ->
         In a guests -> is_email env a = true)
  /\ Meet.or_string (Meet.timezone (Handlers.calendar_params data)) "America/Los_Angeles"
     = expected_zone (get "timezone" args).
Proof.
  intros H. apply validateInput_returned in H.
  unfold Schemas.CreateCalendarEventSchema in H.
  destruct (validated_is_record _ _ _ _ H) as [fields ->].
  pose proof (validated_field _ _ _ _ "summary" _ calendar_shape_keys ltac:(nth_field 0%nat) H)
    as Hs.
  pose proof (validated_field _ _ _ _ "attendees" _ calendar_shape_keys ltac:(nth_field 5%nat) H)
    as Ha.
  pose proof (validated_field _ _ _ _ "timezone" _ calendar_shape_keys ltac:(nth_field 7%nat) H)
    as Hz.
  unfold Handlers.calendar_params;
    cbn [Meet.summary Meet.attendees Meet.timezone get].
  fold (get "summary" data) (get "attendees" data) (get "timezone" data).
  repeat split.
  - destruct (lookup "summary" fields) as [| |b|q|v|l|o];
      cbn -[Nat.ltb] in Hs; try discriminate Hs.
    destruct (Nat.ltb (String.length v) 1) eqn:E; cbn in Hs; [discriminate Hs|].
    injection Hs as Hs. rewrite <- Hs. cbn [to_string]. intros ->. discriminate E.
  - intros guests a Hg Hin.
    destruct (lookup "attendees" fields) as [| |b|q|v|items|o];
      try (cbn in Ha; discriminate Ha).
    + cbn in Ha. injection Ha as Ha. rewrite <- Ha in Hg. discriminate Hg.
    + cbn [z.optional z.array Zod.parse] in Ha.
      change (Zod.parse (is_email env) (Zod.ZArray (z.string |> z.email None))
                        ["attendees"] (JArr items)
              = ([], get "attendees" data)) in Ha.
      rewrite parse_array in Ha.
      destruct (array_items (is_email env) (z.string |> z.email None) ["attendees"] 0 items)
        as [errs vs] eqn:E.
      injection Ha as -> Ha. rewrite <- Ha in Hg. injection Hg as <-.
      pose proof (array_items_checked _ _ _ _ _ E) as Hc.
      apply in_map_iff in Hin. destruct Hin as [v [<- Hv]].
      rewrite Forall_forall in Hc. destruct (Hc v Hv) as [s [-> Hs']]. exact Hs'.
  - destruct (lookup "timezone" fields) as [| |b|q|v|l|o];
      cbn in Hz; try discriminate Hz; injection Hz as Hz; rewrite <- Hz; reflexivity.
Qed.

Lemma createCalendarEvent_adds (P : event -> Prop) (params : Meet.CreateCalendarEventParams) :
  (forall startDateTime endDateTime,
      P (EvCalendarInsert
           (Meet.insert_request env params
              (Meet.or_string (Meet.timezone params) "America/Los_Angeles")
              startDateTime endDateTime))) ->
  adds P (Meet.createCalendarEvent env params).
Proof.
  intros H. unfold Meet.createCalendarEvent, Meet.event_end.
  adds_tac ltac:(apply H).
Qed.

Lemma handleCreateCalendarEvent_adds (P : event -> Prop) (args : json) :
  P EvAuthenticate ->
  (forall s input, P (EvValidate s input)) ->
  (forall data st st' startDateTime endDateTime,
      Handlers.validateInput env Schemas.CreateCalendarEventSchema args st
      = (Returned data, st') ->
      P (EvCalendarInsert
           (Meet.insert_request env (Handlers.calendar_params data)
              (Meet.or_string (Meet.timezone (Handlers.calendar_params data))
                              "America/Los_Angeles")
              startDateTime endDateTime))) ->
  adds P (Handlers.handleCreateCalendarEvent env args).
Proof.
  intros Ha Hv Hi. autounfold with handlers. apply adds_try_catch;
    [|intros; apply adds_on_auth_error].
  apply adds_bind; [apply adds_getMeetService; exact Ha|]. intros service.
  apply (adds_bind_post _
           (fun data => exists st st',
                Handlers.validateInput env Schemas.CreateCalendarEventSchema args st
                = (Returned data, st'))).
  - unfold Handlers.validateInput. adds_tac ltac:(apply Hv).
  - intros st a st' E. eauto.
  - intros data [st [st' E]]. apply adds_bind; [|intros; apply adds_ret].
    apply createCalendarEvent_adds. intros s e. exact (Hi data st st' s e E).
Qed.

End Invitations.

(** X19. Every invitation [create_calendar_event] sends to Calendar went
    through validation: it is for the primary calendar, has a title,
    lists only guests whose address passed the address check, never an
    empty guest list, notifies guests ("all") exactly when there are
    guests, and sets the conference-data version to 1 exactly when it
    asks for a Meet link. *)
Theorem invitations_are_well_formed (env : Env) (args : json) (st : state) :
  exists more,
    trace (snd (Index.callTool env "create_calendar_event" args st))
    = (trace st ++ more)%list
    /\ Forall (well_formed_invitation env) more.
Proof.
  apply (adds_callTool _ env create_calendar_event args st). cbn [Handlers.handler].
  apply handleCreateCalendarEvent_adds; [exact I|intros; exact I|].
  intros data st0 st' s e E.
  destruct (validated_invitation env args data st0 st' E) as [Hs [Hg _]].
  unfold well_formed_invitation, Meet.insert_request;
    cbn [ei_calendarId ei_summary ei_attendees ei_sendUpdates ei_conferenceDataVersion
         ei_conference_requestId].
  repeat split.
  - exact Hs.
  - intros guests a Hsome Hin. unfold Meet.has_attendees in Hsome.
    destruct (Meet.attendees (Handlers.calendar_params data)) as [[|g gs]|] eqn:Eg;
      try discriminate Hsome.
    injection Hsome as <-. exact (Hg _ a eq_refl Hin).
  - unfold Meet.has_attendees.
    destruct (Meet.attendees (Handlers.calendar_params data)) as [[|g gs]|]; discriminate.
  - unfold Meet.has_attendees.
    destruct (Meet.attendees (Handlers.calendar_params data)) as [[|g gs]|]; reflexivity.
  - destruct (Meet.wants_meet_link (Handlers.calendar_params data)); reflexivity.
Qed.

(** X20. The time zone of an invitation comes from the [timezone]
    argument: start and end carry the argument when it is a non-empty
    text, "Asia/Kolkata" (the schema's default) when it is left out, and
    "America/Los_Angeles" (the client's default) only when it is the
    empty text. *)
Theorem invitation_time_zone (env : Env) (args : json) (st : state) :
  exists more,
    trace (snd (Index.callTool env "create_calendar_event" args st))
    = (trace st ++ more)%list
    /\ Forall (in_time_zone (expected_zone (get "timezone" args))) more.
Proof.
  apply (adds_callTool _ env create_calendar_event args st). cbn [Handlers.handler].
  apply handleCreateCalendarEvent_adds; [exact I|intros; exact I|].
  intros data st0 st' s e E.
  destruct (validated_invitation env args data st0 st' E) as [_ [_ Hz]].
  unfold in_time_zone, Meet.insert_request; cbn [ei_start ei_end timeZone].
  split; exact Hz.
Qed.

(* ===================================================================== *)
(** ** Further properties: reading and adding times *)
(* ===================================================================== *)



Lemma twelve_hour_checked (isPM : bool) (hour minutes : Z) :
  (1 <= hour <= 12)%Z -> (0 <= minutes < 60)%Z ->
  twelve_hour_ok isPM (hour, minutes) = true.
Proof.
  intros Hh Hm.
  assert (Hall : forallb (twelve_hour_ok isPM) (pairs_below 60) = true)
    by (destruct isPM; vm_compute; reflexivity).
  apply (proj1 (forallb_forall _ _) Hall).
  apply in_prod; apply in_below; lia.
Qed.

(** X22. [parseDateTime] reads the twelve-hour clock: "YYYY-MM-DD h:mm
    AM" or "... PM" with an hour from 1 to 12 becomes
    "YYYY-MM-DDTHH:mm:00" where HH is the hour of the day: 12 AM is 00,
    12 PM is 12, and every other PM hour is twelve more. *)
Theorem twelve_hour_times_are_read
        (datePart timezone : string) (isPM : bool) (hour minutes : Z) :
  Re.take_date datePart = Some (datePart, EmptyString) ->
  (1 <= hour <= 12)%Z -> (0 <= minutes < 60)%Z ->
  Meet.parseDateTime (datePart ++ " " ++ twelve_hour_text isPM (hour, minutes)) timezone
  = datePart ++ "T" ++ Meet.pad2 (hour_of_day isPM hour) ++ ":" ++ Meet.pad2 minutes ++ ":00".
Proof.
  intros Hd Hh Hm.
  pose proof (twelve_hour_checked isPM hour minutes Hh Hm) as Hok.
  unfold twelve_hour_ok in Hok. cbn [fst snd] in Hok.
  replace (Z.leb 1 hour && Z.leb hour 12)%bool with true in Hok
    by (symmetry; apply andb_true_iff; split; apply Z.leb_le; lia).
  apply andb_true_iff in Hok. destruct Hok as [Hok HZ].
  apply andb_true_iff in Hok. destruct Hok as [Hok HT].
  apply andb_true_iff in Hok. destruct Hok as [Hb Hpt].
  apply negb_true_iff in HT, HZ.
  set (text := twelve_hour_text isPM (hour, minutes)) in *.
  destruct (Re.time_after_blanks (" " ++ text)) as [timePart|] eqn:Eb; [|discriminate Hb].
  apply String.eqb_eq in Hb. subst timePart.
  destruct (Meet.parseTimePart text) as [h m] eqn:Ep.
  apply andb_true_iff in Hpt. destruct Hpt as [Eh Em].
  apply Z.eqb_eq in Eh, Em. subst h m.
  destruct (take_date_exact datePart (" " ++ text) Hd) as [Ht [DT DZ]].
  unfold Meet.parseDateTime.
  rewrite (includes_app "T" datePart), (includes_app "Z" datePart), DT, DZ, HT, HZ.
  cbn [orb]. unfold Re.match_date_time. rewrite Ht, Eb, Ep. reflexivity.
Qed.

Lemma twelve_hour_times_are_read_witness :
  Meet.parseDateTime "2026-03-09 12:05 AM" "Europe/Paris" = "2026-03-09T00:05:00".
Proof.
  exact (twelve_hour_times_are_read "2026-03-09" "Europe/Paris" false 12 5
           eq_refl ltac:(lia) ltac:(lia)).
Defined.

(** X23. [parseDateTime] is idempotent: what it returns, it returns
    unchanged when given it again, whatever the time zones. *)
Theorem parseDateTime_idempotent (input timezone timezone' : string) :
  Meet.parseDateTime (Meet.parseDateTime input timezone) timezone'
  = Meet.parseDateTime input timezone.
Proof.
  assert (Hz : forall x, Meet.parseDateTime x timezone' = Meet.parseDateTime x timezone)
    by reflexivity.
  assert (Hiso : forall x, includes "T" x = true -> Meet.parseDateTime x timezone = x).
  { intros x Hx. unfold Meet.parseDateTime. rewrite Hx. reflexivity. }
  rewrite Hz.
  assert (H : Meet.parseDateTime input timezone = input
              \/ includes "T" (Meet.parseDateTime input timezone) = true).
  { unfold Meet.parseDateTime.
    destruct (includes "T" input || includes "Z" input)%bool; [left; reflexivity|].
    destruct (Re.match_date_time input) as [[datePart timePart]|]; [|left; reflexivity].
    destruct (Meet.parseTimePart timePart) as [hours minutes]. right.
    rewrite (includes_app "T" datePart). cbn [append includes Ascii.eqb Bool.eqb].
    apply orb_true_r. }
  destruct H as [H|H].
  - rewrite H. exact H.
  - exact (Hiso _ H).
Qed.

(* ===================================================================== *)
(** ** Further properties: the registry and the schemas *)
(* ===================================================================== *)

(** X24. The registry describes the schemas: for every tool, the
    properties it advertises are, in order and with the same JSON types,
    the fields of the schema the handler validates against, and the
    names it lists as required are exactly the fields that schema does
    not let the caller leave out. *)
Theorem registry_describes_schemas (d : Definitions.Tool) (t : tool) :
  In d Definitions.tools ->
  Handlers.tool_name t = Definitions.name d ->
  Definitions.properties d = fst (declared t)
  /\ Definitions.required d = snd (declared t).
Proof.
  intros Hd Ht. unfold Definitions.tools in Hd. cbn [In] in Hd.
  repeat (destruct Hd as [<-|Hd]; [cbn [Definitions.name] in Ht;
                                   destruct t; try discriminate Ht;
                                   split; reflexivity|]).
  contradiction.
Qed.

Lemma registry_describes_schemas_witness :
  Definitions.required
    {| Definitions.name := "create_doc";
       Definitions.properties := [("title", "string"); ("content", "string")];
       Definitions.required := ["title"] |}
  = snd (declared create_doc).
Proof.
  refine (proj2 (registry_describes_schemas
                   {| Definitions.name := "create_doc";
                      Definitions.properties := [("title", "string"); ("content", "string")];
                      Definitions.required := ["title"] |} create_doc _ eq_refl)).
  unfold Definitions.tools. cbn [In]. auto 40.
Defined.

(* ===================================================================== *)
(** ** Further properties: the helpers of utils.ts and auth.ts *)
(* ===================================================================== *)

(** X25. [formatDuration] for an end that is not before the start, with
    both times and their difference within 2^53 milliseconds (where the
    doubles of the code are exact): below one hour it prints the whole
    minutes alone; from one hour on it prints the whole hours and the
    minutes left over, which are fewer than sixty. *)
Theorem formatDuration_hours_and_minutes
        (getTime : string -> option Z) (rounded : Z -> Z -> string)
        (start end_ : string) (startMs endMs : Z) :
  start <> EmptyString -> end_ <> EmptyString ->
  getTime start = Some startMs -> getTime end_ = Some endMs ->
  (startMs <= endMs)%Z ->
  (Z.abs startMs <= Meet.max_exact)%Z -> (Z.abs endMs <= Meet.max_exact)%Z ->
  (endMs - startMs <= Meet.max_exact)%Z ->
  Helpers.formatDuration getTime rounded (Some start) (Some end_)
  = (if Z.ltb (endMs - startMs) 3600000
     then dec ((endMs - startMs) / 60000) ++ "m"
     else dec ((endMs - startMs) / 3600000) ++ "h "
          ++ dec (((endMs - startMs) / 60000) mod 60) ++ "m")
  /\ (0 <= ((endMs - startMs) / 60000) mod 60 < 60)%Z.
Proof.
  intros Hs He Gs Ge Hle Bs Be Bd.
  assert (Ts : str_truthy start = true)
    by (unfold str_truthy; apply negb_true_iff, String.eqb_neq; exact Hs).
  assert (Te : str_truthy end_ = true)
    by (unfold str_truthy; apply negb_true_iff, String.eqb_neq; exact He).
  split; [|apply Z.mod_pos_bound; lia].
  unfold Helpers.formatDuration. rewrite Ts, Te, Gs, Ge. cbn [andb]. cbv zeta.
  set (diff := (endMs - startMs)%Z) in *.
  assert (Hd : (0 <= diff)%Z) by (unfold diff; lia).
  replace (Z.leb (Z.abs startMs) Meet.max_exact) with true
    by (symmetry; apply Z.leb_le; exact Bs).
  replace (Z.leb (Z.abs endMs) Meet.max_exact) with true
    by (symmetry; apply Z.leb_le; exact Be).
  replace (Z.leb (Z.abs diff) Meet.max_exact) with true
    by (symmetry; apply Z.leb_le; rewrite Z.abs_eq by exact Hd; exact Bd).
  cbn [andb].
  assert (Hm : (0 <= diff / 60000)%Z) by (apply Z.div_pos; lia).
  rewrite Z.div_div by lia. change (60000 * 60)%Z with 3600000%Z.
  rewrite Z.rem_mod_nonneg by lia.
  destruct (Z.ltb diff 3600000) eqn:E.
  - apply Z.ltb_lt in E.
    rewrite (Z.div_small diff 3600000) by lia. reflexivity.
  - apply Z.ltb_ge in E.
    assert (1 <= diff / 3600000)%Z by (apply Z.div_le_lower_bound; lia).
    replace (Z.ltb 0 (diff / 3600000)) with true by (symmetry; apply Z.ltb_lt; lia).
    reflexivity.
Qed.

Lemma formatDuration_hours_and_minutes_witness :
  Helpers.formatDuration sample_clock (fun _ _ => "?") (Some "60000") (Some "5460000")
  = "1h 30m".
Proof.
  exact (proj1 (formatDuration_hours_and_minutes sample_clock (fun _ _ => "?")
                  "60000" "5460000" 60000 5460000
                  ltac:(discriminate) ltac:(discriminate) eq_refl eq_refl
                  ltac:(lia) ltac:(unfold Meet.max_exact; lia)
                  ltac:(unfold Meet.max_exact; lia) ltac:(unfold Meet.max_exact; lia))).
Defined.

(** X26. [isAuthenticated] and [getAuthStatus] agree: the status line
    starts with the check mark exactly when [isAuthenticated] says
    true. *)
Theorem auth_status_agrees_with_isAuthenticated (env : Env) :
  String.prefix "✅" (Auth.getAuthStatus env) = Auth.isAuthenticated env.
Proof.
  unfold Auth.getAuthStatus, Auth.isAuthenticated.
  destruct (credentials env) as [|e|j]; try reflexivity.
  destruct (Auth.getCredentialType j); [reflexivity|].
  destruct (token_exists env); reflexivity.
Qed.

(** X27. The display helpers never come back empty-handed: whatever the
    participant or the event looks like, [getParticipantDisplayName] and
    [getMeetingLink] return a truthy value. *)
Theorem display_helpers_never_empty (participant event : json) :
  truthy (Helpers.getParticipantDisplayName participant) = true
  /\ truthy (Helpers.getMeetingLink event) = true.
Proof.
  assert (H : forall v d, truthy d = true -> truthy (Meet.or_else v d) = true).
  { intros v d Hd. unfold Meet.or_else. destruct (truthy v) eqn:E; [exact E|exact Hd]. }
  unfold Helpers.getParticipantDisplayName, Helpers.getMeetingLink.
  split; repeat apply H; reflexivity.
Qed.
